(** * DataProcessorTester: a shallow embedding of [network.py]

    The harness merges two player datasets, cleans / filters / classifies the
    records ([process_data]), reads the output of the processor under test
    ([read_output_data]), compares both row by row ([validate_output]) and
    checks the schema of the output ([validate_schema]).

    The code is written against pandas.  The part of pandas the script uses is
    modelled here: typed scalar cells, frames with an ordered header and
    ordered rows, and the handful of frame operations the script calls.
    Python exceptions are values of [result]; Python objects that are mutated
    in place live in an explicit heap. *)

From Stdlib Require Import ZArith QArith Qround Ascii String Permutation.
From stdpp Require Import base option list strings gmap.

Local Open Scope string_scope.
Local Open Scope list_scope.
Local Open Scope Z_scope.

(** ** Exceptions *)

Inductive exn :=
| KeyError (key : string)
| TypeError
| ValueError
| FileError (path : string).

Inductive result (A : Type) :=
| Ok (a : A)
| Raise (e : exn).
Arguments Ok {A} a.
Arguments Raise {A} e.

#[global] Instance result_ret : MRet result := fun _ a => Ok a.
#[global] Instance result_bind : MBind result := fun _ _ f m =>
  match m with Ok a => f a | Raise e => Raise e end.

(** ** Numbers

    A float64 is modelled by the extended rational it denotes: every finite
    float64 is a rational, and IEEE-754 ordering and equality coincide with
    those of [Q] on finite values.  NaN is unordered. *)

Inductive float64 :=
| FNaN
| FInf (neg : bool)
| FFin (q : Q).

Definition float_compare (a b : float64) : option comparison :=
  match a, b with
  | FNaN, _ | _, FNaN => None
  | FInf true, FInf true => Some Eq
  | FInf false, FInf false => Some Eq
  | FInf true, _ => Some Lt
  | _, FInf true => Some Gt
  | FInf false, _ => Some Gt
  | _, FInf false => Some Lt
  | FFin p, FFin q => Some (p ?= q)%Q
  end.

Definition float_of_Z (z : Z) : float64 := FFin (inject_Z z).

Definition float_isnan (a : float64) : bool :=
  match a with FNaN => true | _ => false end.

(** ** Cells: the scalars a CSV or JSON field can hold *)

Inductive cell :=
| CInt (z : Z)
| CFloat (f : float64)
| CBool (b : bool)
| CStr (s : string)
| CNone.

Definition NaN : cell := CFloat FNaN.

(** The number a numeric cell stands for; Python's [bool] is an [int]. *)
Definition cell_num (c : cell) : option float64 :=
  match c with
  | CInt z => Some (float_of_Z z)
  | CFloat f => Some f
  | CBool b => Some (float_of_Z (if b then 1 else 0))
  | CStr _ | CNone => None
  end.

(** [pd.isna] on a scalar. *)
Definition isna (c : cell) : bool :=
  match c with
  | CNone => true
  | CFloat f => float_isnan f
  | _ => false
  end.

(** Python's ordering: numbers with numbers, strings with strings, anything
    else raises [TypeError].  [None] in the result means "unordered" (NaN). *)
Definition py_compare (a b : cell) : result (option comparison) :=
  match a, b with
  | CStr s, CStr t => Ok (Some (String.compare s t))
  | _, _ =>
      match cell_num a, cell_num b with
      | Some x, Some y => Ok (float_compare x y)
      | _, _ => Raise TypeError
      end
  end.

Definition py_gt (a b : cell) : result bool :=
  c ← py_compare a b; mret (match c with Some Gt => true | _ => false end).
Definition py_ge (a b : cell) : result bool :=
  c ← py_compare a b; mret (match c with Some Gt | Some Eq => true | _ => false end).
Definition py_le (a b : cell) : result bool :=
  c ← py_compare a b; mret (match c with Some Lt | Some Eq => true | _ => false end).
Definition py_lt (a b : cell) : result bool :=
  c ← py_compare a b; mret (match c with Some Lt => true | _ => false end).

(** Python's [==]: never raises on scalars; numbers compare by value across
    int / float / bool, NaN differs from everything including itself. *)
Definition py_eq (a b : cell) : bool :=
  match a, b with
  | CStr s, CStr t => bool_decide (s = t)
  | CNone, CNone => true
  | _, _ =>
      match cell_num a, cell_num b with
      | Some x, Some y =>
          match float_compare x y with Some Eq => true | _ => false end
      | _, _ => false
      end
  end.

Definition py_ne (a b : cell) : bool := negb (py_eq a b).

(** ** Series and frames *)

Inductive dtype := int64 | float64_ | bool_ | object_.

#[global] Instance dtype_eq_dec : EqDecision dtype.
Proof. solve_decision. Defined.

Record Series := mkSeries { s_dtype : dtype; s_values : list cell }.

(** A record of the dataset: field name to cell.  A field of the header that
    a row does not carry reads as NaN (what [pd.concat] fills in). *)
Definition row_get (r : gmap string cell) (col : string) : cell :=
  default NaN (r !! col).

Record DataFrame := mkDataFrame {
  header : list (string * dtype);
  rows : list (gmap string cell)
}.

Definition columns (d : DataFrame) : list string := (header d).*1.

Definition empty_frame : DataFrame := mkDataFrame [] [].

Fixpoint assoc (h : list (string * dtype)) (col : string) : option dtype :=
  match h with
  | [] => None
  | (c, t) :: h' => if bool_decide (c = col) then Some t else assoc h' col
  end.

Definition column_dtype (d : DataFrame) (col : string) : option dtype :=
  assoc (header d) col.

(** [d[col]] *)
Definition df_getitem (d : DataFrame) (col : string) : result Series :=
  match column_dtype d col with
  | Some t => Ok (mkSeries t (map (λ r, row_get r col) (rows d)))
  | None => Raise (KeyError col)
  end.

Definition set_header (h : list (string * dtype)) (col : string) (t : dtype)
  : list (string * dtype) :=
  if bool_decide (col ∈ h.*1)
  then map (λ e, if bool_decide (e.1 = col) then (col, t) else e) h
  else h ++ [(col, t)].

(** [d[col] = s]: replaces the column, or appends it to the header. *)
Definition df_setitem (d : DataFrame) (col : string) (s : Series) : result DataFrame :=
  if bool_decide (length (s_values s) = length (rows d))
  then Ok (mkDataFrame (set_header (header d) col (s_dtype s))
             (zip_with (λ r v, <[col := v]> r) (rows d) (s_values s)))
  else Raise ValueError.

(** [d[mask]] with a boolean mask aligned with the rows. *)
Fixpoint select {A} (l : list A) (mask : list bool) : list A :=
  match l, mask with
  | x :: l', b :: mask' => if b then x :: select l' mask' else select l' mask'
  | _, _ => []
  end.

Definition df_mask (d : DataFrame) (mask : list bool) : DataFrame :=
  mkDataFrame (header d) (select (rows d) mask).

Definition mask_and (m1 m2 : list bool) : list bool := zip_with andb m1 m2.

(** [s >= k], [s <= k]: elementwise, over the cells of the series. *)
Definition series_ge (s : Series) (k : Z) : result (list bool) :=
  mapM (λ c, py_ge c (CInt k)) (s_values s).
Definition series_le (s : Series) (k : Z) : result (list bool) :=
  mapM (λ c, py_le c (CInt k)) (s_values s).

(** ** [pd.to_numeric]

    Turning the text of a cell into a number is pandas' C parser; it is taken
    as an interface.  [parse_number s = None] means that [s] is not a numeric
    literal. *)

Inductive number := NInt (z : Z) | NFloat (f : float64).

Class NumericParser := parse_number : string → option number.

Definition cell_of_number (n : number) : cell :=
  match n with NInt z => CInt z | NFloat f => CFloat f end.

Inductive errors_mode := ErrRaise | ErrCoerce.
Inductive downcast_mode := NoDowncast | DowncastInteger.

Definition is_numeric_dtype (t : dtype) : bool :=
  match t with object_ => false | _ => true end.

Section ToNumeric.
Context `{NumericParser}.

(** One element of an object column.  The empty string and [None] read as
    missing; text that does not parse raises, or becomes NaN under
    [errors='coerce']. *)
Definition convert_cell (errors : errors_mode) (c : cell) : result cell :=
  match c with
  | CInt _ | CFloat _ | CBool _ => Ok c
  | CNone => Ok NaN
  | CStr s =>
      if bool_decide (s = "") then Ok NaN
      else match parse_number s with
           | Some n => Ok (cell_of_number n)
           | None =>
               match errors with
               | ErrCoerce => Ok NaN
               | ErrRaise => Raise ValueError
               end
           end
  end.

(** A cell "can be coerced to numeric" when [convert_cell] succeeds under
    [errors='raise'] with a number. *)
Definition coercible (c : cell) : bool :=
  match convert_cell ErrRaise c with
  | Ok c' => negb (isna c')
  | Raise _ => false
  end.

Definition is_float_cell (c : cell) : bool :=
  match c with CFloat _ => true | _ => false end.
Definition is_int_cell (c : cell) : bool :=
  match c with CInt _ => true | _ => false end.
Definition is_bool_cell (c : cell) : bool :=
  match c with CBool _ => true | _ => false end.

(** The dtype of the converted array: float64 as soon as a float or a
    missing value was seen, else int64 if an int was seen, else bool.
    A cell keeps the number it denotes whatever the dtype it is stored
    under; the dtype only records the storage. *)
Definition result_dtype (cs : list cell) : dtype :=
  if existsb is_float_cell cs then float64_
  else if existsb is_int_cell cs then int64
  else if existsb is_bool_cell cs then bool_
  else int64.

Definition is_integral (c : cell) : bool :=
  match c with
  | CInt _ | CBool _ => true
  | CFloat (FFin q) => Qeq_bool (inject_Z (Qfloor q)) q
  | _ => false
  end.

(** [downcast='integer']: a numeric array whose values are all whole
    numbers is stored with an integer dtype; otherwise nothing changes.
    The integer widths are not distinguished. *)
Definition apply_downcast (dc : downcast_mode) (s : Series) : Series :=
  match dc with
  | NoDowncast => s
  | DowncastInteger =>
      if forallb is_integral (s_values s)
      then mkSeries int64 (s_values s)
      else s
  end.

Definition to_numeric (errors : errors_mode) (dc : downcast_mode) (s : Series)
  : result Series :=
  if is_numeric_dtype (s_dtype s) then Ok (apply_downcast dc s)
  else
    cs ← mapM (convert_cell errors) (s_values s);
    Ok (apply_downcast dc (mkSeries (result_dtype cs) cs)).
End ToNumeric.

(** [d.dropna(subset=cols)] *)
Definition df_dropna (d : DataFrame) (subset : list string) : result DataFrame :=
  match List.filter (λ c, negb (bool_decide (c ∈ columns d))) subset with
  | c :: _ => Raise (KeyError c)
  | [] =>
      Ok (mkDataFrame (header d)
            (List.filter (λ r, forallb (λ c, negb (isna (row_get r c))) subset)
               (rows d)))
  end.

(** [d.apply(f, axis=1)] for a function returning a scalar; on a frame
    without rows pandas returns an empty float64 series. *)
Definition df_apply (d : DataFrame) (f : gmap string cell → result cell)
  : result Series :=
  vs ← mapM f (rows d);
  Ok (mkSeries (match vs with [] => float64_ | _ => object_ end) vs).

(** [d.copy()] gives a new frame holding the same data. *)
Definition df_copy (d : DataFrame) : DataFrame :=
  mkDataFrame (header d) (rows d).

(** ** The interpreter state: a heap of frames and a file system

    A frame variable of the script holds a reference.  [copy], [dropna] and
    mask selection allocate a new frame; item assignment writes through the
    reference.  A CSV file on disk is represented by what [pd.read_csv]
    makes of it. *)

Inductive file :=
| Csv (d : DataFrame)
| Unreadable.

Record world := mkWorld {
  heap : list DataFrame;
  files : gmap string file
}.

Definition M (A : Type) : Type := world → result A * world.

#[global] Instance M_ret : MRet M := fun _ a σ => (Ok a, σ).
#[global] Instance M_bind : MBind M := fun _ _ f m σ =>
  match m σ with
  | (Ok a, σ') => f a σ'
  | (Raise e, σ') => (Raise e, σ')
  end.

Definition lift {A} (r : result A) : M A := fun σ => (r, σ).

Definition new_frame (d : DataFrame) : M nat := fun σ =>
  (Ok (length (heap σ)), mkWorld (heap σ ++ [d]) (files σ)).

Definition read_frame (l : nat) : M DataFrame := fun σ =>
  match heap σ !! l with
  | Some d => (Ok d, σ)
  | None => (Raise ValueError, σ)
  end.

Definition write_frame (l : nat) (d : DataFrame) : M unit := fun σ =>
  (Ok tt, mkWorld (<[l := d]> (heap σ)) (files σ)).

Definition write_file (path : string) (f : file) : M unit := fun σ =>
  (Ok tt, mkWorld (heap σ) (<[path := f]> (files σ))).

Definition path_exists (path : string) : M bool := fun σ =>
  (Ok (bool_decide (is_Some (files σ !! path))), σ).

Fixpoint for_each {A} (l : list A) (body : A → M unit) : M unit :=
  match l with
  | [] => mret tt
  | x :: l' => body x ;; for_each l' body
  end.

(** Frame operations through references. *)
Definition ref_copy (l : nat) : M nat :=
  d ← read_frame l; new_frame (df_copy d).

Definition ref_columns (l : nat) : M (list string) :=
  d ← read_frame l; mret (columns d).

Definition ref_getitem (l : nat) (col : string) : M Series :=
  d ← read_frame l; lift (df_getitem d col).

Definition ref_setitem (l : nat) (col : string) (s : Series) : M unit :=
  d ← read_frame l; d' ← lift (df_setitem d col s); write_frame l d'.

Definition ref_dropna (l : nat) (subset : list string) : M nat :=
  d ← read_frame l; d' ← lift (df_dropna d subset); new_frame d'.

Definition ref_mask (l : nat) (mask : list bool) : M nat :=
  d ← read_frame l; new_frame (df_mask d mask).

Definition ref_apply (l : nat) (f : gmap string cell → result cell) : M Series :=
  d ← read_frame l; lift (df_apply d f).

Definition ref_to_csv (l : nat) (path : string) : M unit :=
  d ← read_frame l; write_file path (Csv d).

(** ** The tester object *)

Record DataProcessorTester := mkTester {
  input_dir : string;
  output_dir : string;
  temp_dir : string
}.

Definition path_join (dir name : string) : string := (dir ++ "/" ++ name)%string.

(** ** [process_data] *)

Definition numeric_cols : list string := ["runs"; "wickets"; "age"].

Definition determine_player_type (row : gmap string cell) : result cell :=
  c1 ← (b ← py_gt (row_get row "runs") (CInt 500);
        if b : bool then py_ge (row_get row "wickets") (CInt 50) else mret false);
  if c1 : bool then mret (CStr "All-Rounder")
  else
    c2 ← py_gt (row_get row "runs") (CInt 500);
    if c2 : bool then mret (CStr "Batsman") else mret (CStr "Bowler").

Section ProcessData.
Context `{NumericParser}.

(** Lines 48-51: the coercion loop over the numeric columns. *)
Definition coerce_numeric_cols (processed_data : nat) : M unit :=
  for_each numeric_cols (λ col,
    cols ← ref_columns processed_data;
    if bool_decide (col ∈ cols) then
      s ← ref_getitem processed_data col;
      s' ← lift (to_numeric ErrCoerce NoDowncast s);
      ref_setitem processed_data col s'
    else mret tt).

Definition process_data (self : DataProcessorTester) (data : nat) : M nat :=
  processed_data ← ref_copy data;
  coerce_numeric_cols processed_data;;
  processed_data ← ref_dropna processed_data ["runs"; "wickets"];
  age1 ← ref_getitem processed_data "age";
  m1 ← lift (series_ge age1 15);
  age2 ← ref_getitem processed_data "age";
  m2 ← lift (series_le age2 50);
  processed_data ← ref_mask processed_data (mask_and m1 m2);
  player_type ← ref_apply processed_data determine_player_type;
  ref_setitem processed_data "playerType" player_type;;
  ref_to_csv processed_data (path_join (temp_dir self) "processed_data.csv");;
  mret processed_data.
End ProcessData.

(** ** Sorting: [sort_values] with the default [kind='quicksort']

    pandas sorts the non-missing keys with numpy's index sort and puts the
    rows with a missing key last.  numpy's [quicksort] is an introsort:
    median-of-three partitioning, insertion sort on runs of at most 17
    elements, heapsort once the depth budget is spent.  It is not stable.
    The index array is only ever changed by exchanging two entries (the
    shifts of the C code are written as adjacent exchanges). *)

Section Argsort.
(** [less i j]: the key at position [i] is smaller than the key at [j]. *)
Variable less : nat → nat → bool.

Definition at_ (a : list nat) (p : Z) : nat := default 0%nat (a !! Z.to_nat p).

Definition swap (a : list nat) (p q : Z) : list nat :=
  match a !! Z.to_nat p, a !! Z.to_nat q with
  | Some x, Some y => <[Z.to_nat p := y]> (<[Z.to_nat q := x]> a)
  | _, _ => a
  end.

Definition SMALL_QUICKSORT : Z := 16.

(** [while (pj > pl && less(vp, v[*pk])) ...] of the insertion sort. *)
Fixpoint insert_back (fuel : nat) (a : list nat) (pl pj : Z) : list nat :=
  match fuel with
  | O => a
  | S fuel' =>
      if (pl <? pj) && less (at_ a pj) (at_ a (pj - 1))
      then insert_back fuel' (swap a pj (pj - 1)) pl (pj - 1)
      else a
  end.

(** [for (pi = pl + 1; pi <= pr; ++pi)] *)
Definition insertion_sort (a : list nat) (pl pr : Z) : list nat :=
  foldl (λ a k, insert_back (length a) a pl (pl + 1 + Z.of_nat k)) a
    (seq 0 (Z.to_nat (pr - pl))).

(** [do { ++pi; } while (less(v[*pi], vp))] *)
Fixpoint scan_up (fuel : nat) (a : list nat) (piv : nat) (pi : Z) : Z :=
  match fuel with
  | O => pi + 1
  | S fuel' =>
      if less (at_ a (pi + 1)) piv then scan_up fuel' a piv (pi + 1) else pi + 1
  end.

(** [do { --pj; } while (less(vp, v[*pj]))] *)
Fixpoint scan_down (fuel : nat) (a : list nat) (piv : nat) (pj : Z) : Z :=
  match fuel with
  | O => pj - 1
  | S fuel' =>
      if less piv (at_ a (pj - 1)) then scan_down fuel' a piv (pj - 1) else pj - 1
  end.

(** The [for (;;)] loop of the partition; returns the array and [pi]. *)
Fixpoint partition_loop (fuel : nat) (a : list nat) (piv : nat) (pi pj : Z)
  : list nat * Z :=
  let pi' := scan_up (length a) a piv pi in
  let pj' := scan_down (length a) a piv pj in
  if pj' <=? pi' then (a, pi')
  else match fuel with
       | O => (a, pi')
       | S fuel' => partition_loop fuel' (swap a pi' pj') piv pi' pj'
       end.

Definition swap_if_less (a : list nat) (p q : Z) : list nat :=
  if less (at_ a p) (at_ a q) then swap a p q else a.

Definition partition (a : list nat) (pl pr : Z) : list nat * Z :=
  let pm := pl + Z.shiftr (pr - pl) 1 in
  let a := swap_if_less a pm pl in
  let a := swap_if_less a pr pm in
  let a := swap_if_less a pm pl in
  let piv := at_ a pm in
  let a := swap a pm (pr - 1) in
  let '(a, pi) := partition_loop (length a) a piv pl (pr - 1) in
  (swap a pi (pr - 1), pi).

(** Heapsort of the [n] entries from [pl], 1-based as in the C code. *)
Fixpoint sift_down (fuel : nat) (a : list nat) (pl i n : Z) : list nat :=
  match fuel with
  | O => a
  | S fuel' =>
      let j := 2 * i in
      if j <=? n then
        let j := if (j <? n) && less (at_ a (pl - 1 + j)) (at_ a (pl - 1 + j + 1))
                 then j + 1 else j in
        if less (at_ a (pl - 1 + i)) (at_ a (pl - 1 + j))
        then sift_down fuel' (swap a (pl - 1 + i) (pl - 1 + j)) pl j n
        else a
      else a
  end.

Definition heapify (a : list nat) (pl n : Z) : list nat :=
  foldl (λ a k, sift_down (length a) a pl (Z.shiftr n 1 - Z.of_nat k) n) a
    (seq 0 (Z.to_nat (Z.shiftr n 1))).

Definition heap_extract (a : list nat) (pl n : Z) : list nat :=
  foldl (λ a k, let m := n - Z.of_nat k in
                sift_down (length a) (swap a (pl - 1 + 1) (pl - 1 + m)) pl 1 (m - 1))
    a (seq 0 (Z.to_nat (n - 1))).

Definition aheapsort (a : list nat) (pl n : Z) : list nat :=
  heap_extract (heapify a pl n) pl n.

(** The main loop with its explicit stack of pending runs.  Each step
    either partitions the current run (inner [while]) or finishes it and
    pops the next one. *)
Fixpoint aquicksort_loop (fuel : nat) (a : list nat) (pl pr cdepth : Z)
    (partitioning : bool) (stack : list (Z * Z * Z)) : list nat :=
  match fuel with
  | O => a
  | S fuel' =>
      let pop a :=
        match stack with
        | [] => a
        | (pl', pr', d') :: stack' => aquicksort_loop fuel' a pl' pr' d' false stack'
        end in
      if negb partitioning && (cdepth <? 0) then pop (aheapsort a pl (pr - pl + 1))
      else if SMALL_QUICKSORT <? pr - pl then
        let '(a, pi) := partition a pl pr in
        if pi - pl <? pr - pi
        then aquicksort_loop fuel' a pl (pi - 1) (cdepth - 1) true
               ((pi + 1, pr, cdepth - 1) :: stack)
        else aquicksort_loop fuel' a (pi + 1) pr (cdepth - 1) true
               ((pl, pi - 1, cdepth - 1) :: stack)
      else pop (insertion_sort a pl pr)
  end.

Definition npy_get_msb (n : Z) : Z := Z.log2 n.

Definition aquicksort (n : nat) : list nat :=
  aquicksort_loop (2 * n + 2) (seq 0 n) 0 (Z.of_nat n - 1)
    (npy_get_msb (Z.of_nat n) * 2) false [].
End Argsort.

Definition is_str_cell (c : cell) : bool :=
  match c with CStr _ => true | _ => false end.
Definition is_num_cell (c : cell) : bool :=
  match cell_num c with Some _ => true | None => false end.

(** Keys can be ordered when they are all text or all numbers; ordering a
    string against a number raises [TypeError], which any sort of two or
    more keys of both kinds runs into. *)
Definition sortable (keys : list cell) : bool :=
  forallb is_str_cell keys || forallb is_num_cell keys.

Definition key_less (keys : list cell) (i j : nat) : bool :=
  match py_lt (nth i keys CNone) (nth j keys CNone) with
  | Ok b => b
  | Raise _ => false
  end.

(** [nargsort]: positions of the rows in sorted order, missing keys last. *)
Definition nargsort (keys : list cell) : result (list nat) :=
  let idx := seq 0 (length keys) in
  let non_nan_idx := List.filter (λ i, negb (isna (nth i keys CNone))) idx in
  let nan_idx := List.filter (λ i, isna (nth i keys CNone)) idx in
  let non_nans := map (λ i, nth i keys CNone) non_nan_idx in
  if sortable non_nans then
    Ok (map (λ k, nth k non_nan_idx 0%nat)
          (aquicksort (key_less non_nans) (length non_nans)) ++ nan_idx)
  else Raise TypeError.

(** [d.sort_values(by).reset_index(drop=True)] *)
Definition df_sort_values (d : DataFrame) (by_ : string) : result DataFrame :=
  s ← df_getitem d by_;
  indexer ← nargsort (s_values s);
  Ok (mkDataFrame (header d) (map (λ i, nth i (rows d) ∅) indexer)).

(** [d[cols]]: projection on a list of columns. *)
Definition restrict (cols : list string) (r : gmap string cell) : gmap string cell :=
  filter (λ kv, kv.1 ∈ cols) r.

Definition df_select (d : DataFrame) (cols : list string) : result DataFrame :=
  match List.filter (λ c, negb (bool_decide (c ∈ columns d))) cols with
  | c :: _ => Raise (KeyError c)
  | [] =>
      Ok (mkDataFrame (map (λ c, (c, default object_ (column_dtype d c))) cols)
            (map (restrict cols) (rows d)))
  end.

(** [d[col] = v] with a scalar, broadcast to every row. *)
Definition df_setitem_scalar (d : DataFrame) (col : string) (v : cell)
  : result DataFrame :=
  df_setitem d col (mkSeries object_ (replicate (length (rows d)) v)).

(** [d.at[i, col] = v] *)
Definition df_at_set (d : DataFrame) (i : nat) (col : string) (v : cell) : DataFrame :=
  mkDataFrame (header d) (alter (λ r, <[col := v]> r) i (rows d)).

(** ** [pd.concat([a, b], ignore_index=True)] *)

Definition common_dtype (t1 t2 : dtype) : dtype :=
  if bool_decide (t1 = t2) then t1
  else match t1, t2 with
       | int64, float64_ | float64_, int64 => float64_
       | _, _ => object_
       end.

(** The dtype of a column that receives missing values. *)
Definition with_missing (t : dtype) : dtype :=
  match t with int64 => float64_ | bool_ => object_ | _ => t end.

Definition concat_dtype (a b : DataFrame) (col : string) : dtype :=
  match column_dtype a col, column_dtype b col with
  | Some t1, Some t2 => common_dtype t1 t2
  | Some t, None => match rows b with [] => t | _ => with_missing t end
  | None, Some t => match rows a with [] => t | _ => with_missing t end
  | None, None => object_
  end.

Definition df_concat (a b : DataFrame) : DataFrame :=
  let cols := columns a ++ List.filter (λ c, negb (bool_decide (c ∈ columns a))) (columns b) in
  mkDataFrame (map (λ c, (c, concat_dtype a b c)) cols) (rows a ++ rows b).

(** ** [read_output_data] *)

Definition read_csv (path : string) : M DataFrame := fun σ =>
  match files σ !! path with
  | Some (Csv d) => (Ok d, σ)
  | _ => (Raise (FileError path), σ)
  end.

Definition read_output_data (self : DataProcessorTester) : M nat :=
  let test_file := path_join (output_dir self) "test_results.csv" in
  let odi_file := path_join (output_dir self) "odi_results.csv" in
  test_data ← (b ← path_exists test_file;
               if b : bool then read_csv test_file else mret empty_frame);
  odi_data ← (b ← path_exists odi_file;
              if b : bool then read_csv odi_file else mret empty_frame);
  new_frame (df_concat test_data odi_data).

(** ** [validate_output]

    Both arguments are only read.  [expected_df] and [actual_df] are frames
    that this function creates and nobody else holds; they are threaded as
    values, and the result is stored as a new frame. *)

Definition expected_cols : list string :=
  ["playerName"; "age"; "runs"; "wickets"; "eventType"; "playerType"].

(** [actual_row[col]] on a row of [actual_df]. *)
Definition series_item (actual_df : DataFrame) (actual_row : gmap string cell)
    (col : string) : result cell :=
  if bool_decide (col ∈ columns actual_df) then Ok (row_get actual_row col)
  else Raise (KeyError col).

(** Lines 114-117: [true] when the loop leaves through [break]. *)
Fixpoint fields_differ (cols : list string) (actual_df : DataFrame)
    (expected_row actual_row : gmap string cell) : result bool :=
  match cols with
  | [] => Ok false
  | col :: cols' =>
      v ← series_item actual_df actual_row col;
      if py_ne (row_get expected_row col) v then Ok true
      else fields_differ cols' actual_df expected_row actual_row
  end.

(** One element of [series == scalar].  pandas compares element by element
    with Python's [==], except that a null ([None] or NaN) on either side
    gives [False]: a missing name matches nothing, not even a missing name. *)
Definition series_eq (c scalar : cell) : bool :=
  negb (isna c) && negb (isna scalar) && py_eq c scalar.

(** [actual_df[actual_df['playerName'] == player_name]] *)
Definition matching_rows (actual_df : DataFrame) (player_name : cell)
  : result (list (gmap string cell)) :=
  names ← df_getitem actual_df "playerName";
  Ok (select (rows actual_df) (map (λ c, series_eq c player_name) (s_values names))).

(** Lines 103-117, one iteration per row of the snapshot [iterrows] takes. *)
Fixpoint compare_rows (actual_df : DataFrame) (i : nat)
    (todo : list (gmap string cell)) (expected_df : DataFrame) : result DataFrame :=
  match todo with
  | [] => Ok expected_df
  | expected_row :: todo' =>
      let player_name := row_get expected_row "playerName" in
      matching ← matching_rows actual_df player_name;
      expected_df ←
        match matching with
        | [] => Ok (df_at_set expected_df i "Result" (CStr "FAIL"))
        | actual_row :: _ =>
            differ ← fields_differ expected_cols actual_df expected_row actual_row;
            Ok (if differ : bool
                then df_at_set expected_df i "Result" (CStr "FAIL")
                else expected_df)
        end;
      compare_rows actual_df (S i) todo' expected_df
  end.

Definition validate_output (self : DataProcessorTester)
    (expected_data actual_data : nat) : M nat :=
  expected ← read_frame expected_data;
  actual ← read_frame actual_data;
  let actual_cols := columns actual in
  e1 ← lift (df_select expected expected_cols);
  expected_df ← lift (df_sort_values e1 "playerName");
  a1 ← lift (df_select actual actual_cols);
  actual_df ← lift (df_sort_values a1 "playerName");
  expected_df ← lift (df_setitem_scalar expected_df "Result" (CStr "PASS"));
  expected_df ← lift (compare_rows actual_df 0 (rows expected_df) expected_df);
  write_file (path_join (temp_dir self) "test_result.csv") (Csv expected_df);;
  new_frame expected_df.

(** ** [validate_schema] *)

Inductive pytype := PyInt | PyStr.

Definition expected_schema : list (string * pytype) :=
  [("eventType", PyStr); ("playerName", PyStr); ("age", PyInt);
   ("runs", PyInt); ("wickets", PyInt); ("playerType", PyStr)].

Definition is_integer_dtype (s : Series) : bool :=
  bool_decide (s_dtype s = int64).

(** An object column counts as a string column when all its elements are
    strings. *)
Definition is_string_dtype (s : Series) : bool :=
  bool_decide (s_dtype s = object_) && forallb is_str_cell (s_values s).

Definition missing_message (column : string) : string :=
  ("Column '" ++ column ++ "' is missing")%string.
Definition integer_message (column : string) : string :=
  ("Column '" ++ column ++ "' should be integer type")%string.
Definition string_message (column : string) : string :=
  ("Column '" ++ column ++ "' should be string type")%string.

(** A [for] loop threading local variables, in the exception monad. *)
Fixpoint for_items {A S} (l : list A) (body : S → A → result S) (st : S) : result S :=
  match l with
  | [] => Ok st
  | x :: l' => st' ← body st x; for_items l' body st'
  end.

Section ValidateSchema.
Context `{NumericParser}.

(** One iteration of the loop of lines 139-158 on the pair
    [(schema_valid, schema_errors)]. *)
Definition check_column (d : DataFrame) (st : bool * list string)
    (item : string * pytype) : result (bool * list string) :=
  let '(schema_valid, schema_errors) := st in
  let '(column, expected_type) := item in
  if negb (bool_decide (column ∈ columns d)) then
    Ok (false, schema_errors ++ [missing_message column])
  else
    match expected_type with
    | PyInt =>
        s ← df_getitem d column;
        if negb (is_integer_dtype s) then
          s' ← df_getitem d column;
          match to_numeric ErrRaise DowncastInteger s' with
          | Ok _ => Ok (schema_valid, schema_errors)
          | Raise _ => Ok (false, schema_errors ++ [integer_message column])
          end
        else Ok (schema_valid, schema_errors)
    | PyStr =>
        s ← df_getitem d column;
        if negb (is_string_dtype s) then
          Ok (false, schema_errors ++ [string_message column])
        else Ok (schema_valid, schema_errors)
    end.

Definition check_schema (d : DataFrame) : result (bool * list string) :=
  for_items expected_schema (check_column d) (true, []).

Definition validate_schema (data : nat) : M (bool * list string) :=
  d ← read_frame data; lift (check_schema d).
End ValidateSchema.

(** ** A concrete parser, for running the model on examples

    Signed decimal integers only; enough to evaluate the functions on
    sample data. *)

Definition digit_of (a : ascii) : option Z :=
  let n := Z.of_nat (nat_of_ascii a) in
  if (48 <=? n) && (n <=? 57) then Some (n - 48) else None.

Fixpoint parse_digits (s : string) (acc : Z) : option Z :=
  match s with
  | EmptyString => Some acc
  | String a s' => d ← digit_of a; parse_digits s' (10 * acc + d)
  end.

Definition decimal_parser : NumericParser := λ s,
  match s with
  | EmptyString => None
  | String "-" EmptyString => None
  | String "-" s' => (λ z, NInt (- z)) <$> parse_digits s' 0
  | _ => NInt <$> parse_digits s 0
  end.

(** ** Closed forms used in the statements *)

Section ClosedForms.
Context `{NumericParser}.

(** What [errors='coerce'] makes of one cell. *)
Definition coerce_cell (c : cell) : cell :=
  match convert_cell ErrCoerce c with
  | Ok c' => c'
  | Raise _ => NaN
  end.

Definition coerce_series (s : Series) : Series :=
  if is_numeric_dtype (s_dtype s) then s
  else let cs := map coerce_cell (s_values s) in mkSeries (result_dtype cs) cs.

(** One iteration of the coercion loop, as a function on the frame. *)
Definition coerce_col (d : DataFrame) (col : string) : DataFrame :=
  match column_dtype d col with
  | Some t =>
      let s := coerce_series (mkSeries t (map (λ r, row_get r col) (rows d))) in
      mkDataFrame (set_header (header d) col (s_dtype s))
        (zip_with (λ r v, <[col := v]> r) (rows d) (s_values s))
  | None => d
  end.

Definition coerce_frame (d : DataFrame) : DataFrame :=
  foldl coerce_col d numeric_cols.

(** Lines 54-68 as a function on the coerced frame. *)
Definition age_mask (d : DataFrame) : result (list bool) :=
  age1 ← df_getitem d "age";
  m1 ← series_ge age1 15;
  age2 ← df_getitem d "age";
  m2 ← series_le age2 50;
  Ok (mask_and m1 m2).

Definition classify_frame (d : DataFrame) : result DataFrame :=
  player_type ← df_apply d determine_player_type;
  df_setitem d "playerType" player_type.
End ClosedForms.

(** The three classes of the classification. *)
Inductive player_class := AllRounder | Batsman | Bowler.

Definition class_name (k : player_class) : string :=
  match k with
  | AllRounder => "All-Rounder"
  | Batsman => "Batsman"
  | Bowler => "Bowler"
  end.

(** Order on numbers that are not NaN. *)
Definition f_gt (x : float64) (k : Z) : Prop := float_compare x (float_of_Z k) = Some Gt.
Definition f_ge (x : float64) (k : Z) : Prop :=
  float_compare x (float_of_Z k) = Some Gt ∨ float_compare x (float_of_Z k) = Some Eq.
Definition f_lt (x : float64) (k : Z) : Prop := float_compare x (float_of_Z k) = Some Lt.
Definition f_le (x : float64) (k : Z) : Prop :=
  float_compare x (float_of_Z k) = Some Lt ∨ float_compare x (float_of_Z k) = Some Eq.

(** The dtype of a column agrees with its cells: a column stored with a
    numeric dtype holds numbers only.  Every frame pandas builds has this
    property. *)
Definition well_typed (d : DataFrame) : bool :=
  forallb (λ h, negb (is_numeric_dtype h.2) ||
                forallb (λ r, is_num_cell (row_get r h.1)) (rows d))
    (header d).

Section CoerceAt.
Context `{NumericParser}.

(** What the coercion loop does to the cell [v] of column [col]. *)
Definition coerce_at (d : DataFrame) (col : string) (v : cell) : cell :=
  match column_dtype d col with
  | Some t => if is_numeric_dtype t then v else coerce_cell v
  | None => v
  end.
End CoerceAt.

(** The rule of each class as the specification words it, read on the
    [runs] and [wickets] cells of a record. *)
Definition rule_holds (runs wickets : cell) (k : player_class) : Prop :=
  ∃ x, cell_num runs = Some x ∧
    match k with
    | Bowler => f_le x 500
    | Batsman => f_gt x 500 ∧ ∃ w, cell_num wickets = Some w ∧ f_lt w 50
    | AllRounder => f_gt x 500 ∧ ∃ w, cell_num wickets = Some w ∧ f_ge w 50
    end.

(** What a path stands for when the reader gets to it: the table of the
    file, or the empty frame when there is no file. *)
Inductive reads_as (σ : world) (path : string) : DataFrame → Prop :=
| reads_file d : files σ !! path = Some (Csv d) → reads_as σ path d
| reads_absent : files σ !! path = None → reads_as σ path empty_frame.

(** ** Vocabulary for the schema checker *)

(** What one iteration does to the pair [(schema_valid, schema_errors)]. *)
Definition record_violation (st : bool * list string) (o : option string)
  : bool * list string :=
  match o with
  | Some m => (false, st.2 ++ [m])
  | None => st
  end.

Section Violations.
Context `{NumericParser}.

(** The integer check of lines 147-154 reports the column. *)
Definition int_check_fails (d : DataFrame) (column : string) : bool :=
  match df_getitem d column with
  | Ok s =>
      negb (is_integer_dtype s) &&
      match to_numeric ErrRaise DowncastInteger s with
      | Ok _ => false
      | Raise _ => true
      end
  | Raise _ => false
  end.

(** The string check of lines 155-158 reports the column. *)
Definition str_check_fails (d : DataFrame) (column : string) : bool :=
  match df_getitem d column with
  | Ok s => negb (is_string_dtype s)
  | Raise _ => false
  end.

(** The message a column of the schema gives rise to, if it violates. *)
Definition violation (d : DataFrame) (item : string * pytype) : option string :=
  if bool_decide (item.1 ∈ columns d) then
    match item.2 with
    | PyInt => if int_check_fails d item.1 then Some (integer_message item.1) else None
    | PyStr => if str_check_fails d item.1 then Some (string_message item.1) else None
    end
  else Some (missing_message item.1).
End Violations.

(** ** Vocabulary for the validator *)

Definition name_matches (player_name : cell) (r : gmap string cell) : bool :=
  series_eq (row_get r "playerName") player_name.

(** The first row, in the order of the list, that carries the name. *)
Definition first_match (rs : list (gmap string cell)) (player_name : cell)
  : option (gmap string cell) :=
  head (List.filter (name_matches player_name) rs).

(** All six projected fields are equal under Python's [==]. *)
Definition fields_equal (expected_row actual_row : gmap string cell) : bool :=
  forallb (λ c, py_eq (row_get expected_row c) (row_get actual_row c)) expected_cols.

(** Two fields hold the same value: the same text, or two numbers (an int,
    a float or a bool, whatever the type of either) that denote the same
    number.  A missing field holds no value. *)
Definition same_number (x y : float64) : Prop :=
  match x, y with
  | FFin p, FFin q => (p == q)%Q
  | FInf n, FInf m => n = m
  | _, _ => False
  end.

Definition same_value (a b : cell) : Prop :=
  match a, b with
  | CStr s, CStr t => s = t
  | _, _ =>
      match cell_num a, cell_num b with
      | Some x, Some y => same_number x y
      | _, _ => False
      end
  end.

(** Every projected field of the record is present. *)
Definition complete_record (r : gmap string cell) : Prop :=
  ∀ c, c ∈ expected_cols → isna (row_get r c) = false.

(** The body of the row loop: does this expected row get [FAIL]? *)
Definition row_fails (actual_df : DataFrame) (expected_row : gmap string cell)
  : result bool :=
  matching ← matching_rows actual_df (row_get expected_row "playerName");
  match matching with
  | [] => Ok true
  | actual_row :: _ => fields_differ expected_cols actual_df expected_row actual_row
  end.

Definition mark (actual_df : DataFrame) (expected_row r : gmap string cell)
  : gmap string cell :=
  match row_fails actual_df expected_row with
  | Ok true => <["Result" := CStr "FAIL"]> r
  | _ => r
  end.

(** The frames [validate_output] computes, without the heap and the file. *)
Definition sorted_expected (expected : DataFrame) : result DataFrame :=
  e1 ← df_select expected expected_cols; df_sort_values e1 "playerName".

Definition sorted_actual (actual : DataFrame) : result DataFrame :=
  a1 ← df_select actual (columns actual); df_sort_values a1 "playerName".

Definition validate_frames (expected actual : DataFrame) : result DataFrame :=
  expected_df ← sorted_expected expected;
  actual_df ← sorted_actual actual;
  expected_df ← df_setitem_scalar expected_df "Result" (CStr "PASS");
  compare_rows actual_df 0 (rows expected_df) expected_df.

(** The row of the validation result for one expected row: the verdict
    against the first row of [actual_df] that carries the name. *)
Definition verdict (actual_df : DataFrame) (expected_row : gmap string cell) : string :=
  match first_match (rows actual_df) (row_get expected_row "playerName") with
  | None => "FAIL"
  | Some actual_row => if fields_equal expected_row actual_row then "PASS" else "FAIL"
  end.

Definition verdict_row (actual_df : DataFrame) (expected_row : gmap string cell)
  : gmap string cell :=
  <["Result" := CStr (verdict actual_df expected_row)]> expected_row.

(** ** Sample data *)

Definition sample_tester : DataProcessorTester :=
  mkTester "inputDataSet" "outputDataSet" "tempDataSet".

Definition player (name event : string) (age runs wickets : cell)
  : gmap string cell :=
  <["playerName" := CStr name]> (<["eventType" := CStr event]>
    (<["age" := age]> (<["runs" := runs]> (<["wickets" := wickets]> ∅)))).

Definition raw_header : list (string * dtype) :=
  [("playerName", object_); ("eventType", object_); ("age", int64);
   ("runs", object_); ("wickets", float64_)].

(** A merged dataset: a good all-rounder, a player who is too old, one whose
    runs are not a number, one without wickets, and a bowler at the lower age
    bound. *)
Definition merged_sample : DataFrame :=
  mkDataFrame raw_header
    [ player "Kapil" "TEST" (CInt 30) (CStr "600") (CFloat (float_of_Z 60));
      player "Imran" "ODI" (CInt 52) (CStr "700") (CFloat (float_of_Z 10));
      player "Javed" "ODI" (CInt 33) (CStr "n/a") (CFloat (float_of_Z 3));
      player "Viv" "TEST" (CInt 40) (CStr "900") NaN;
      player "Wasim" "ODI" (CInt 15) (CStr "400") (CFloat (float_of_Z 999)) ].

Definition sample_world : world := mkWorld [merged_sample] ∅.

Definition out_header : list (string * dtype) :=
  [("playerName", object_); ("eventType", object_); ("age", int64);
   ("runs", int64); ("wickets", int64); ("playerType", object_)].

Definition typed_player (name event : string) (age runs wickets : Z) (type : string)
  : gmap string cell :=
  <["playerType" := CStr type]> (player name event (CInt age) (CInt runs) (CInt wickets)).

(** Expected records, and an output in which one player matches, one has
    other wickets and one is absent. *)
Definition expected_sample : DataFrame :=
  mkDataFrame out_header
    [ typed_player "Wasim" "ODI" 15 400 999 "Bowler";
      typed_player "Kapil" "TEST" 30 600 60 "All-Rounder";
      typed_player "Zaheer" "ODI" 25 100 200 "Bowler" ].

Definition actual_sample : DataFrame :=
  mkDataFrame out_header
    [ typed_player "Kapil" "TEST" 30 600 60 "All-Rounder";
      typed_player "Wasim" "ODI" 15 400 40 "Bowler" ].

Definition validation_world : world := mkWorld [expected_sample; actual_sample] ∅.

(** An output of eighteen rows in which the name [B] occurs seventeen
    times, each time with other runs; the row in ninth position is for [A].
    The expected record is the very first row of that output. *)
Definition repeated_row (i : nat) : gmap string cell :=
  typed_player (if bool_decide (i = 8%nat) then "A" else "B") "ODI" 30
    (Z.of_nat i) 10 "Bowler".

Definition repeated_actual : DataFrame :=
  mkDataFrame out_header (map repeated_row (seq 0 18)).

Definition repeated_expected : DataFrame :=
  mkDataFrame out_header [repeated_row 0].

Definition repeated_world : world := mkWorld [repeated_expected; repeated_actual] ∅.

(** A record without an event type, which the processing keeps (only
    [runs] and [wickets] are checked for completeness), validated against an
    output that holds the very same record. *)
Definition no_event_frame : DataFrame :=
  mkDataFrame out_header
    [ <["eventType" := NaN]> (typed_player "Kapil" "TEST" 30 600 60 "All-Rounder") ].

Definition no_event_world : world := mkWorld [no_event_frame; no_event_frame] ∅.

(** An output whose ages are stored as float64 because one age is missing;
    the expected record stores the same age as an int. *)
Definition float_age_header : list (string * dtype) :=
  [("playerName", object_); ("eventType", object_); ("age", float64_);
   ("runs", int64); ("wickets", int64); ("playerType", object_)].

Definition float_age_output : DataFrame :=
  mkDataFrame float_age_header
    [ <["age" := CFloat (float_of_Z 30)]>
        (typed_player "Kapil" "TEST" 30 600 60 "All-Rounder");
      <["age" := NaN]> (typed_player "Zaheer" "ODI" 25 100 200 "Bowler") ].

Definition int_age_expected : DataFrame :=
  mkDataFrame out_header [ typed_player "Kapil" "TEST" 30 600 60 "All-Rounder" ].

Definition float_age_world : world := mkWorld [int_age_expected; float_age_output] ∅.

(** An output directory that holds [test_results.csv] only. *)
Definition output_world : world :=
  mkWorld [expected_sample] {[ "outputDataSet/test_results.csv" := Csv actual_sample ]}.

(** No output file at all. *)
Definition no_output_world : world := mkWorld [expected_sample] ∅.

(** An output whose ages are stored as float64 and are not whole numbers. *)
Definition fractional_age_output : DataFrame :=
  mkDataFrame
    [("playerName", object_); ("eventType", object_); ("age", float64_);
     ("runs", int64); ("wickets", int64); ("playerType", object_)]
    [ <["age" := CFloat (FFin (61 # 2))]>
        (typed_player "Kapil" "TEST" 30 600 60 "All-Rounder") ].

(** An output without [runs], with textual ages and numeric names. *)
Definition broken_output : DataFrame :=
  mkDataFrame
    [("playerName", int64); ("eventType", object_); ("age", object_);
     ("wickets", int64); ("playerType", object_)]
    [ <["playerName" := CInt 7]> (<["age" := CStr "thirty"]>
        (typed_player "Kapil" "TEST" 30 600 60 "All-Rounder")) ].

(** ** Ingestion, merge and the orchestrator

    The two input files are read like the output files: a file stands for the
    frame its reader builds from it ([pd.read_csv] for the CSV file,
    [json.load] followed by [pd.DataFrame] for the JSON array of objects), and
    a file that is absent or that its reader rejects raises. *)

Definition read_csv_data (self : DataProcessorTester) : M nat :=
  let csv_file := path_join (input_dir self) "players_1990_2000.csv" in
  d ← read_csv csv_file; new_frame d.

(** Lines 24-26: [open], [json.load] and [pd.DataFrame(data)]. *)
Definition load_json_frame (path : string) : M DataFrame := fun σ =>
  match files σ !! path with
  | Some (Csv d) => (Ok d, σ)
  | _ => (Raise (FileError path), σ)
  end.

Definition read_json_data (self : DataProcessorTester) : M nat :=
  let json_file := path_join (input_dir self) "players_2000_onwards.json" in
  d ← load_json_frame json_file; new_frame d.

(** [pd.concat([a, b], ignore_index=True)] on two frame references. *)
Definition ref_concat (a b : nat) : M nat :=
  da ← read_frame a; db ← read_frame b; new_frame (df_concat da db).

Definition merge_data (self : DataProcessorTester) : M nat :=
  csv_data ← read_csv_data self;
  json_data ← read_json_data self;
  merged_data ← ref_concat csv_data json_data;
  ref_to_csv merged_data (path_join (temp_dir self) "merged_data.csv");;
  mret merged_data.

(** The dictionary [run_test] returns. *)
Record test_report := mkReport {
  validation_result : nat;
  schema_valid : bool;
  schema_errors : list string
}.

Section RunTest.
Context `{NumericParser}.

Definition run_test (self : DataProcessorTester) : M test_report :=
  merged_data ← merge_data self;
  processed_data ← process_data self merged_data;
  output_data ← read_output_data self;
  validation_result ← validate_output self processed_data output_data;
  schema ← validate_schema output_data;
  mret (mkReport validation_result schema.1 schema.2).
End RunTest.

(** Lines 191-192: [(result['Result'] == 'PASS').sum()] and the same for
    [FAIL]. *)
Definition count_result (d : DataFrame) (v : string) : nat :=
  length (List.filter (λ r, series_eq (row_get r "Result") (CStr v)) (rows d)).

Definition pass_count (d : DataFrame) : nat := count_result d "PASS".
Definition fail_count (d : DataFrame) : nat := count_result d "FAIL".

(** ** Vocabulary for the additional properties *)

(** The age test of line 57 on one cell. *)
Definition in_age_range (age : cell) : bool :=
  match py_ge age (CInt 15), py_le age (CInt 50) with
  | Ok true, Ok true => true
  | _, _ => false
  end.

(** A coerced record survives lines 54-57. *)
Definition kept (r : gmap string cell) : bool :=
  negb (isna (row_get r "runs")) && negb (isna (row_get r "wickets")) &&
  in_age_range (row_get r "age").

(** [s] ends with [suffix]. *)
Fixpoint ends_with (suffix s : string) : bool :=
  bool_decide (s = suffix) ||
  match s with
  | EmptyString => false
  | String _ s' => ends_with suffix s'
  end.

Definition merged_path (self : DataProcessorTester) : string :=
  path_join (temp_dir self) "merged_data.csv".
Definition processed_path (self : DataProcessorTester) : string :=
  path_join (temp_dir self) "processed_data.csv".
Definition result_path (self : DataProcessorTester) : string :=
  path_join (temp_dir self) "test_result.csv".

(** Two small input files and the output of a processor that got one
    player right. *)
Definition csv_sample : DataFrame :=
  mkDataFrame raw_header
    [ player "Kapil" "TEST" (CInt 30) (CStr "600") (CFloat (float_of_Z 60));
      player "Imran" "ODI" (CInt 52) (CStr "700") (CFloat (float_of_Z 10)) ].

Definition json_sample : DataFrame :=
  mkDataFrame raw_header
    [ player "Wasim" "ODI" (CInt 15) (CStr "400") (CFloat (float_of_Z 999)) ].

Definition input_files : gmap string file :=
  <["inputDataSet/players_1990_2000.csv" := Csv csv_sample]>
    (<["inputDataSet/players_2000_onwards.json" := Csv json_sample]> ∅).

Definition input_world : world := mkWorld [] input_files.

Definition full_world : world :=
  mkWorld []
    (<["outputDataSet/test_results.csv" := Csv actual_sample]> input_files).


(** A [playerName] the sort can handle next to text: text or missing. *)
Definition text_or_missing (c : cell) : bool := is_str_cell c || isna c.

(** The columns of the schema, by expected type. *)
Definition string_columns : list string := ["eventType"; "playerName"; "playerType"].
Definition integer_columns : list string := ["age"; "runs"; "wickets"].

(** What the output reader makes of a path: the table of the file, the
    empty frame when there is no file, nothing when the file cannot be
    read. *)
Definition table_or_empty (f : option file) : option DataFrame :=
  match f with
  | None => Some empty_frame
  | Some (Csv d) => Some d
  | Some Unreadable => None
  end.

(** A computation that leaves alone every file outside [paths] and every
    frame that exists when it starts. *)
Definition writes_only {A} (paths : list string) (m : M A) : Prop :=
  ∀ σ r σ', m σ = (r, σ') →
    (∀ path, path ∉ paths → files σ' !! path = files σ !! path) ∧
    (∀ l d, heap σ !! l = Some d → heap σ' !! l = Some d).

Definition snapshot_paths (self : DataProcessorTester) : list string :=
  [merged_path self; processed_path self; result_path self].


(** * Properties *)

(** ** The exception monad and the frame primitives *)

Lemma mapM_result_cons {A B} (f : A → result B) (x : A) (l : list A) :
  mapM f (x :: l) =
  match f x with
  | Ok y => match mapM f l with Ok k => Ok (y :: k) | Raise e => Raise e end
  | Raise e => Raise e
  end.
Proof. reflexivity. Qed.

Lemma mapM_result_length {A B} (f : A → result B) (l : list A) (k : list B) :
  mapM f l = Ok k → length k = length l.
Proof.
  revert k. induction l as [|x l IH]; intros k.
  - intros [= <-]. done.
  - rewrite mapM_result_cons.
    destruct (f x) as [y|]; [|done].
    destruct (mapM f l) as [k'|] eqn:E; [|done].
    intros [= <-]. simpl. f_equal. by apply IH.
Qed.

Lemma mapM_result_total {A B} (f : A → result B) (g : A → B) (l : list A) :
  (∀ x, x ∈ l → f x = Ok (g x)) → mapM f l = Ok (map g l).
Proof.
  induction l as [|x l IH]; intros Hf; [done|].
  rewrite mapM_result_cons.
  rewrite Hf by left. rewrite IH; [done|].
  intros y Hy. apply Hf. by right.
Qed.

Lemma mapM_result_lookup {A B} (f : A → result B) (l : list A) (k : list B) i x :
  mapM f l = Ok k → l !! i = Some x → ∃ y, k !! i = Some y ∧ f x = Ok y.
Proof.
  revert k i. induction l as [|a l IH]; intros k i; [by intros _ ?|].
  rewrite mapM_result_cons.
  destruct (f a) as [b|] eqn:Ea; [|done].
  destruct (mapM f l) as [k'|] eqn:E; [|done].
  intros [= <-]. destruct i as [|i]; simpl.
  - intros [= <-]. eauto.
  - intros Hi. by apply IH.
Qed.

Lemma assoc_is_Some (h : list (string * dtype)) (col : string) :
  col ∈ h.*1 ↔ is_Some (assoc h col).
Proof.
  induction h as [|[c t] h IH]; simpl.
  - split; [by intros ?%elem_of_nil | by intros [? ?]].
  - rewrite elem_of_cons. case_bool_decide as Hc.
    + split; [eauto | intros _; by left].
    + rewrite <- IH. split; [intros [?|?]; [congruence | done] | by right].
Qed.

Lemma column_dtype_None (d : DataFrame) (col : string) :
  col ∉ columns d ↔ column_dtype d col = None.
Proof.
  unfold columns, column_dtype. rewrite assoc_is_Some.
  rewrite eq_None_not_Some. done.
Qed.

Lemma select_elem_of {A} (l : list A) (mask : list bool) (x : A) :
  x ∈ select l mask → ∃ i, l !! i = Some x ∧ mask !! i = Some true.
Proof.
  revert mask. induction l as [|y l IH]; intros [|b mask]; simpl;
    try by intros ?%elem_of_nil.
  destruct b.
  - rewrite elem_of_cons. intros [->|Hx].
    + by exists 0%nat.
    + destruct (IH _ Hx) as (i & ? & ?). by exists (S i).
  - intros Hx. destruct (IH _ Hx) as (i & ? & ?). by exists (S i).
Qed.

Lemma select_sublist {A} (l : list A) (mask : list bool) :
  select l mask `sublist_of` l.
Proof.
  revert mask. induction l as [|y l IH]; intros [|b mask]; simpl;
    try apply sublist_nil_l.
  destruct b; [by apply sublist_skip | by apply sublist_cons].
Qed.

(** ** [to_numeric] under [errors='coerce'] *)

Section CoerceFacts.
Context `{NumericParser}.

Lemma convert_cell_coerce (c : cell) :
  convert_cell ErrCoerce c = Ok (coerce_cell c).
Proof.
  unfold coerce_cell. destruct c; simpl; try done.
  case_bool_decide; [done|]. by destruct (parse_number s).
Qed.

Lemma to_numeric_coerce (s : Series) :
  to_numeric ErrCoerce NoDowncast s = Ok (coerce_series s).
Proof.
  unfold to_numeric, coerce_series.
  destruct (is_numeric_dtype (s_dtype s)); simpl; [by destruct s|].
  rewrite (mapM_result_total _ coerce_cell).
  - done.
  - intros c _. apply convert_cell_coerce.
Qed.

Lemma coerce_series_length (s : Series) :
  length (s_values (coerce_series s)) = length (s_values s).
Proof.
  unfold coerce_series. destruct (is_numeric_dtype _); simpl; [done|].
  by rewrite length_map.
Qed.

(** A cell that cannot be read as a number comes out missing. *)
Lemma coerce_cell_not_coercible (c : cell) :
  coercible c = false → isna (coerce_cell c) = true.
Proof.
  unfold coercible, coerce_cell. destruct c; simpl; try done.
  - by rewrite negb_false_iff.
  - case_bool_decide; [done|]. destruct (parse_number s); simpl; [|done].
    by rewrite negb_false_iff.
Qed.

Lemma coerce_cell_is_num (c : cell) : is_num_cell (coerce_cell c) = true.
Proof.
  unfold coerce_cell. destruct c; simpl; try done.
  case_bool_decide; [done|]. by destruct (parse_number s) as [[]|].
Qed.
End CoerceFacts.

(** ** Running [process_data] *)

Section ProcessDataFacts.
Context `{NumericParser}.

Lemma df_getitem_Some (d : DataFrame) (col : string) (t : dtype) :
  column_dtype d col = Some t →
  df_getitem d col = Ok (mkSeries t (map (λ r, row_get r col) (rows d))).
Proof. unfold df_getitem. by intros ->. Qed.

Lemma coerce_body_run (l : nat) (col : string) (σ : world) (d : DataFrame) :
  heap σ !! l = Some d →
  (cols ← ref_columns l;
   if bool_decide (col ∈ cols) then
     s ← ref_getitem l col;
     s' ← lift (to_numeric ErrCoerce NoDowncast s);
     ref_setitem l col s'
   else mret tt) σ
  = (Ok tt, mkWorld (<[l := coerce_col d col]> (heap σ)) (files σ)).
Proof.
  intros Hl.
  unfold ref_columns, ref_getitem, ref_setitem, read_frame, write_frame, lift,
    mbind, M_bind, mret, M_ret. rewrite Hl. simpl.
  unfold coerce_col. case_bool_decide as Hc.
  - apply assoc_is_Some in Hc. destruct Hc as [t Ht].
    change (assoc (header d) col) with (column_dtype d col) in Ht.
    rewrite Hl. simpl. rewrite (df_getitem_Some _ _ _ Ht).
    rewrite to_numeric_coerce. rewrite Hl. simpl. rewrite Ht.
    unfold df_setitem. rewrite coerce_series_length. simpl.
    rewrite length_map. rewrite bool_decide_eq_true_2 by done. done.
  - apply column_dtype_None in Hc. rewrite Hc.
    rewrite list_insert_id by done. by destruct σ.
Qed.

Lemma coerce_numeric_cols_run (l : nat) (σ : world) (d : DataFrame) :
  heap σ !! l = Some d →
  coerce_numeric_cols l σ
  = (Ok tt, mkWorld (<[l := coerce_frame d]> (heap σ)) (files σ)).
Proof.
  intros Hl. pose proof (lookup_lt_Some _ _ _ Hl) as Hlt.
  unfold coerce_numeric_cols, numeric_cols, coerce_frame.
  cbn [for_each foldl].
  unfold mbind at 1, M_bind at 1.
  rewrite (coerce_body_run l "runs" σ d Hl).
  unfold mbind at 1, M_bind at 1.
  erewrite (coerce_body_run l "wickets"); last first.
  { cbn [heap]. by apply list_lookup_insert_eq. }
  unfold mbind at 1, M_bind at 1.
  erewrite (coerce_body_run l "age"); last first.
  { cbn [heap]. apply list_lookup_insert_eq. by rewrite length_insert. }
  cbn [heap files]. unfold mret, M_ret.
  by rewrite !list_insert_insert_eq.
Qed.

(** The whole function, run from a state where [data] holds [d]: the three
    frames it allocates are appended to the heap, nothing else changes. *)
Lemma process_data_run (self : DataProcessorTester) (data : nat) (σ : world)
    (d : DataFrame) :
  heap σ !! data = Some d →
  process_data self data σ =
  let d1 := coerce_frame (df_copy d) in
  match df_dropna d1 ["runs"; "wickets"] with
  | Raise e => (Raise e, mkWorld (heap σ ++ [d1]) (files σ))
  | Ok d2 =>
      match age_mask d2 with
      | Raise e => (Raise e, mkWorld (heap σ ++ [d1; d2]) (files σ))
      | Ok m =>
          let d3 := df_mask d2 m in
          match classify_frame d3 with
          | Raise e => (Raise e, mkWorld (heap σ ++ [d1; d2; d3]) (files σ))
          | Ok d4 =>
              (Ok (length (heap σ) + 2)%nat,
               mkWorld (heap σ ++ [d1; d2; d4])
                 (<[path_join (temp_dir self) "processed_data.csv" := Csv d4]>
                    (files σ)))
          end
      end
  end.
Proof.
  intros Hl. set (n := length (heap σ)).
  assert (Hat : ∀ (k : list DataFrame) i, (heap σ ++ k) !! (n + i)%nat = k !! i).
  { intros k i. rewrite lookup_app_r by (unfold n; lia). f_equal. unfold n. lia. }
  assert (Hset : ∀ (k : list DataFrame) i x,
             <[(n + i)%nat := x]> (heap σ ++ k) = heap σ ++ <[i := x]> k).
  { intros k i x. rewrite insert_app_r_alt by (unfold n; lia).
    do 2 f_equal. unfold n. lia. }
  assert (Hat0 : ∀ k : list DataFrame, (heap σ ++ k) !! n = k !! 0%nat).
  { intros k. by rewrite <- (Hat k 0%nat), Nat.add_0_r. }
  assert (Hset0 : ∀ (k : list DataFrame) x,
             <[n := x]> (heap σ ++ k) = heap σ ++ <[0%nat := x]> k).
  { intros k x. by rewrite <- (Hset k 0%nat), Nat.add_0_r. }
  unfold process_data.
  unfold mbind at 1, M_bind at 1.
  unfold ref_copy. unfold mbind at 1, M_bind at 1.
  unfold read_frame at 1. rewrite Hl. unfold new_frame.
  fold n.
  unfold mbind at 1, M_bind at 1.
  rewrite (coerce_numeric_cols_run _ _ (df_copy d)) by (cbn [heap]; by rewrite Hat0).
  cbn [heap files]. rewrite Hset0. cbn [insert list_insert].
  set (d1 := coerce_frame (df_copy d)). cbn zeta.
  unfold mbind at 1, M_bind at 1.
  unfold ref_dropna. unfold mbind at 1, M_bind at 1.
  unfold read_frame at 1. cbn [heap]. rewrite Hat0. cbn [lookup list_lookup].
  unfold mbind at 1, M_bind at 1. unfold lift at 1.
  destruct (df_dropna d1 ["runs"; "wickets"]) as [d2|e]; [|done].
  unfold new_frame at 1. cbn [heap files].
  rewrite length_app. cbn [length]. fold n.
  rewrite <- (assoc_L (++)). cbn [app].
  unfold age_mask.
  unfold ref_getitem, read_frame, lift.
  unfold mbind at 1, M_bind at 1. unfold mbind at 1, M_bind at 1.
  cbn [heap]. rewrite Hat. cbn [lookup list_lookup].
  destruct (df_getitem d2 "age") as [age|e] eqn:Eage; [|done].
  cbn [mbind result_bind].
  unfold mbind at 1, M_bind at 1.
  destruct (series_ge age 15) as [m1|e]; [|done].
  unfold mbind at 1, M_bind at 1. unfold mbind at 1, M_bind at 1.
  cbn [heap]. rewrite Hat. cbn [lookup list_lookup]. rewrite Eage.
  unfold mbind at 1, M_bind at 1.
  destruct (series_le age 50) as [m2|e]; [|done].
  cbn [mbind result_bind].
  unfold mbind at 1, M_bind at 1.
  unfold ref_mask, read_frame, new_frame.
  unfold mbind at 1, M_bind at 1. cbn [heap]. rewrite Hat.
  cbn [lookup list_lookup heap files].
  set (d3 := df_mask d2 (mask_and m1 m2)).
  rewrite length_app. cbn [length]. fold n.
  rewrite <- (assoc_L (++)). cbn [app].
  unfold classify_frame.
  unfold mbind at 1, M_bind at 1.
  unfold ref_apply, read_frame, lift.
  unfold mbind at 1, M_bind at 1. cbn [heap]. rewrite Hat.
  cbn [lookup list_lookup].
  destruct (df_apply d3 determine_player_type) as [pt|e]; cbn [mbind result_bind];
    [|done].
  unfold mbind at 1, M_bind at 1.
  unfold ref_setitem, read_frame, write_frame, lift.
  unfold mbind at 1, M_bind at 1. unfold mbind at 1, M_bind at 1.
  cbn [heap]. rewrite Hat. cbn [lookup list_lookup].
  unfold mbind at 1, M_bind at 1.
  destruct (df_setitem d3 "playerType" pt) as [d4|e]; [|done].
  cbn [heap files]. rewrite Hset. cbn [insert list_insert].
  unfold ref_to_csv, read_frame, write_file.
  unfold mbind at 1, M_bind at 1. cbn [heap]. rewrite Hat.
  cbn [lookup list_lookup heap files]. unfold mret, M_ret. done.
Qed.
End ProcessDataFacts.

(** ** Comparisons against an integer literal *)

Lemma py_compare_int (c : cell) (k : Z) :
  py_compare c (CInt k) =
  match cell_num c with
  | Some x => Ok (float_compare x (float_of_Z k))
  | None => Raise TypeError
  end.
Proof. by destruct c. Qed.

Lemma py_ge_true (c : cell) (k : Z) :
  py_ge c (CInt k) = Ok true ↔ ∃ x, cell_num c = Some x ∧ f_ge x k.
Proof.
  unfold py_ge, f_ge. rewrite py_compare_int.
  destruct (cell_num c) as [x|]; simpl.
  - split.
    + intros Hc. exists x. split; [done|].
      destruct (float_compare x (float_of_Z k)) as [[]|]; naive_solver.
    + intros (y & [= <-] & [-> | ->]); done.
  - split; [done | by intros (? & ? & _)].
Qed.

Lemma py_le_true (c : cell) (k : Z) :
  py_le c (CInt k) = Ok true ↔ ∃ x, cell_num c = Some x ∧ f_le x k.
Proof.
  unfold py_le, f_le. rewrite py_compare_int.
  destruct (cell_num c) as [x|]; simpl.
  - split.
    + intros Hc. exists x. split; [done|].
      destruct (float_compare x (float_of_Z k)) as [[]|]; naive_solver.
    + intros (y & [= <-] & [-> | ->]); done.
  - split; [done | by intros (? & ? & _)].
Qed.

(** ** What the stages of [process_data] do to the rows *)

Lemma dropna_rows (d d' : DataFrame) (subset : list string) (r : gmap string cell) :
  df_dropna d subset = Ok d' → r ∈ rows d' →
  r ∈ rows d ∧ ∀ c, c ∈ subset → isna (row_get r c) = false.
Proof.
  unfold df_dropna. destruct (List.filter _ subset); [|done].
  intros [= <-]. simpl. rewrite list_elem_of_In, filter_In, <- list_elem_of_In.
  intros [Hr Hall]. split; [done|].
  intros c Hc. rewrite forallb_forall in Hall.
  apply list_elem_of_In in Hc. specialize (Hall c Hc).
  by apply negb_true_iff in Hall.
Qed.

Lemma dropna_header (d d' : DataFrame) (subset : list string) :
  df_dropna d subset = Ok d' → header d' = header d.
Proof.
  unfold df_dropna. destruct (List.filter _ subset); [|done]. by intros [= <-].
Qed.

Lemma age_mask_rows (d : DataFrame) (m : list bool) (r : gmap string cell) :
  age_mask d = Ok m → r ∈ select (rows d) m →
  py_ge (row_get r "age") (CInt 15) = Ok true ∧
  py_le (row_get r "age") (CInt 50) = Ok true.
Proof.
  unfold age_mask, df_getitem.
  destruct (column_dtype d "age") as [t|]; [|done]. cbn [mbind result_bind].
  unfold series_ge, series_le. cbn [s_values].
  destruct (mapM (λ c, py_ge c (CInt 15)) _) as [m1|] eqn:E1; [|done].
  cbn [mbind result_bind].
  destruct (mapM (λ c, py_le c (CInt 50)) _) as [m2|] eqn:E2; [|done].
  cbn [mbind result_bind]. intros [= <-] Hr.
  apply select_elem_of in Hr as (i & Hi & Hm).
  unfold mask_and in Hm. apply lookup_zip_with_Some in Hm as (b1 & b2 & Hb & H1 & H2).
  symmetry in Hb. apply andb_true_iff in Hb as [-> ->].
  assert (Hcell : map (λ r, row_get r "age") (rows d) !! i = Some (row_get r "age")).
  { by rewrite list_lookup_fmap, Hi. }
  destruct (mapM_result_lookup _ _ _ _ _ E1 Hcell) as (y1 & Hy1 & Hge).
  destruct (mapM_result_lookup _ _ _ _ _ E2 Hcell) as (y2 & Hy2 & Hle).
  rewrite H1 in Hy1. rewrite H2 in Hy2.
  injection Hy1 as <-. injection Hy2 as <-. done.
Qed.

Lemma classify_rows (d d' : DataFrame) (r : gmap string cell) :
  classify_frame d = Ok d' → r ∈ rows d' →
  ∃ r0 v, r0 ∈ rows d ∧ determine_player_type r0 = Ok v ∧
          r = <["playerType" := v]> r0.
Proof.
  unfold classify_frame, df_apply.
  destruct (mapM determine_player_type (rows d)) as [vs|] eqn:E; [|done].
  cbn [mbind result_bind]. unfold df_setitem. cbn [s_values s_dtype].
  case_bool_decide; [|done]. intros [= <-]. cbn [rows].
  intros Hr. apply list_elem_of_lookup in Hr as [i Hi].
  apply lookup_zip_with_Some in Hi as (r0 & v & -> & Hr0 & Hv).
  exists r0, v. split; [by eapply list_elem_of_lookup_2|]. split; [|done].
  destruct (mapM_result_lookup _ _ _ _ _ E Hr0) as (y & Hy & Hdet).
  congruence.
Qed.

Lemma row_get_insert_ne (r : gmap string cell) (c c' : string) (v : cell) :
  c ≠ c' → row_get (<[c := v]> r) c' = row_get r c'.
Proof. intros Hne. unfold row_get. by rewrite lookup_insert_ne. Qed.

Lemma row_get_insert_eq (r : gmap string cell) (c : string) (v : cell) :
  row_get (<[c := v]> r) c = v.
Proof. unfold row_get. by rewrite lookup_insert_eq. Qed.

(** The rows of the frame [process_data] returns, traced back through
    classification, age filter and completeness filter. *)
Lemma process_data_rows `{NumericParser} (self : DataProcessorTester) (data out : nat)
    (σ σ' : world) :
  process_data self data σ = (Ok out, σ') →
  ∃ d d', heap σ !! data = Some d ∧ heap σ' !! out = Some d' ∧
    ∀ r, r ∈ rows d' →
      ∃ r0 v, r0 ∈ rows (coerce_frame (df_copy d)) ∧
        r = <["playerType" := v]> r0 ∧
        determine_player_type r0 = Ok v ∧
        isna (row_get r0 "runs") = false ∧
        isna (row_get r0 "wickets") = false ∧
        py_ge (row_get r0 "age") (CInt 15) = Ok true ∧
        py_le (row_get r0 "age") (CInt 50) = Ok true.
Proof.
  intros Hrun. destruct (heap σ !! data) as [d|] eqn:Hd.
  2:{ unfold process_data, ref_copy, read_frame in Hrun.
      unfold mbind at 1, M_bind at 1 in Hrun. unfold mbind at 1, M_bind at 1 in Hrun.
      by rewrite Hd in Hrun. }
  rewrite (process_data_run self data σ d Hd) in Hrun. cbn zeta in Hrun.
  destruct (df_dropna _ _) as [d2|] eqn:E2; [|done].
  destruct (age_mask d2) as [m|] eqn:Em; [|done].
  destruct (classify_frame _) as [d4|] eqn:E4; [|done].
  injection Hrun as <- <-. exists d, d4. split; [done|]. split.
  { cbn [heap]. rewrite lookup_app_r by lia.
    by replace (length (heap σ) + 2 - length (heap σ))%nat with 2%nat by lia. }
  intros r Hr.
  destruct (classify_rows _ _ _ E4 Hr) as (r0 & v & Hr0 & Hv & ->).
  cbn [df_mask rows] in Hr0.
  destruct (age_mask_rows _ _ _ Em Hr0) as [Hge Hle].
  assert (Hr2 : r0 ∈ rows d2).
  { eapply elem_of_sublist; [done | apply select_sublist]. }
  destruct (dropna_rows _ _ _ _ E2 Hr2) as [Hr1 Hna].
  exists r0, v. repeat split; try done.
  - apply Hna. set_solver.
  - apply Hna. set_solver.
Qed.

(** C1. Every record of the dataset returned by [process_data] has an age
    between 15 and 50, both bounds included, and neither its runs nor its
    wickets are missing. *)
Theorem process_data_age_range_and_complete `{NumericParser}
    (self : DataProcessorTester) (data out : nat) (σ σ' : world) :
  process_data self data σ = (Ok out, σ') →
  ∃ d', heap σ' !! out = Some d' ∧
    ∀ r, r ∈ rows d' →
      (∃ age, cell_num (row_get r "age") = Some age ∧ f_ge age 15 ∧ f_le age 50) ∧
      isna (row_get r "runs") = false ∧
      isna (row_get r "wickets") = false.
Proof.
  intros Hrun.
  destruct (process_data_rows _ _ _ _ _ Hrun) as (d & d' & _ & Hout & Hrows).
  exists d'. split; [done|]. intros r Hr.
  destruct (Hrows r Hr) as (r0 & v & _ & -> & _ & Hruns & Hwk & Hge & Hle).
  rewrite !row_get_insert_ne by done. split; [|done].
  apply py_ge_true in Hge as (x & Hx & Hx15).
  apply py_le_true in Hle as (y & Hy & Hy50).
  exists x. split; [done|]. split; [done|]. congruence.
Qed.

Lemma process_data_age_range_and_complete_witness :
  ∃ d', heap (process_data (H := decimal_parser) sample_tester 0 sample_world).2
          !! 3%nat = Some d' ∧
    ∀ r, r ∈ rows d' →
      (∃ age, cell_num (row_get r "age") = Some age ∧ f_ge age 15 ∧ f_le age 50) ∧
      isna (row_get r "runs") = false ∧
      isna (row_get r "wickets") = false.
Proof.
  apply (process_data_age_range_and_complete (H := decimal_parser)
           sample_tester 0 3 sample_world).
  vm_compute. reflexivity.
Defined.

(** ** Classification *)

Lemma float_compare_not_nan (x : float64) (k : Z) :
  float_isnan x = false → ∃ c, float_compare x (float_of_Z k) = Some c.
Proof. destruct x as [|[]|q]; simpl; intros; try done; eauto. Qed.

Lemma cell_num_not_na (c : cell) (x : float64) :
  cell_num c = Some x → isna c = false → float_isnan x = false.
Proof. destruct c; simpl; intros [= <-]; done. Qed.

Lemma rule_holds_unique (runs wickets : cell) (k k' : player_class) :
  rule_holds runs wickets k → rule_holds runs wickets k' → k = k'.
Proof.
  unfold rule_holds, f_le, f_gt, f_lt, f_ge.
  intros (x & Hx & Hk) (x' & Hx' & Hk'). rewrite Hx in Hx'. injection Hx' as <-.
  assert (Hw : ∀ w w', cell_num wickets = Some w → cell_num wickets = Some w' → w = w')
    by congruence.
  destruct k, k'; try done.
  all: repeat match goal with
       | H : _ ∧ _ |- _ => destruct H
       | H : ∃ _, _ |- _ => destruct H
       | H : _ ∨ _ |- _ => destruct H
       end.
  all: try match goal with
       | H1 : cell_num ?c = Some ?u, H2 : cell_num ?c = Some ?v |- _ =>
           pose proof (Hw _ _ H1 H2); subst
       end.
  all: congruence.
Qed.

(** The function is total on pairs of numbers and returns the class whose
    rule holds. *)
Lemma determine_player_type_total (row : gmap string cell) (x w : float64) :
  cell_num (row_get row "runs") = Some x →
  cell_num (row_get row "wickets") = Some w →
  float_isnan x = false → float_isnan w = false →
  ∃ k, determine_player_type row = Ok (CStr (class_name k)) ∧
       rule_holds (row_get row "runs") (row_get row "wickets") k.
Proof.
  intros Hx Hw Hnx Hnw.
  destruct (float_compare_not_nan x 500 Hnx) as [cx Hcx].
  destruct (float_compare_not_nan w 50 Hnw) as [cw Hcw].
  unfold determine_player_type, py_gt, py_ge. rewrite !py_compare_int, Hx, Hw.
  cbn [mbind result_bind mret result_ret]. rewrite Hcx, Hcw.
  unfold rule_holds, f_le, f_gt, f_lt, f_ge.
  destruct cx.
  - exists Bowler. split; [done|]. exists x. eauto.
  - exists Bowler. split; [done|]. exists x. eauto.
  - destruct cw.
    + exists AllRounder. split; [done|]. exists x. split; [done|]. split; [done|].
      exists w. eauto.
    + exists Batsman. split; [done|]. exists x. split; [done|]. split; [done|].
      exists w. eauto.
    + exists AllRounder. split; [done|]. exists x. split; [done|]. split; [done|].
      exists w. eauto.
Qed.

(** When it returns on a record with runs and wickets present, both cells
    that it looked at were numbers and the result follows the rule. *)
Lemma determine_player_type_rule (row : gmap string cell) (v : cell) :
  determine_player_type row = Ok v →
  isna (row_get row "runs") = false →
  isna (row_get row "wickets") = false →
  ∃ k, v = CStr (class_name k) ∧
       rule_holds (row_get row "runs") (row_get row "wickets") k.
Proof.
  intros Hv Hnr Hnw. revert Hv.
  unfold determine_player_type, py_gt, py_ge. rewrite !py_compare_int.
  destruct (cell_num (row_get row "runs")) as [x|] eqn:Hx; [|done].
  pose proof (cell_num_not_na _ _ Hx Hnr) as Hnx.
  destruct (float_compare_not_nan x 500 Hnx) as [cx Hcx].
  cbn [mbind result_bind mret result_ret]. rewrite Hcx.
  unfold rule_holds, f_le, f_gt, f_lt, f_ge.
  destruct cx.
  - intros [= <-]. exists Bowler. split; [done|]. exists x. eauto.
  - intros [= <-]. exists Bowler. split; [done|]. exists x. eauto.
  - destruct (cell_num (row_get row "wickets")) as [w|] eqn:Hw; [|done].
    pose proof (cell_num_not_na _ _ Hw Hnw) as Hnw'.
    destruct (float_compare_not_nan w 50 Hnw') as [cw Hcw].
    cbn [mbind result_bind mret result_ret]. rewrite Hcw.
    destruct cw; intros [= <-].
    + exists AllRounder. split; [done|]. exists x. split; [done|]. split; [done|].
      exists w. eauto.
    + exists Batsman. split; [done|]. exists x. split; [done|]. split; [done|].
      exists w. eauto.
    + exists AllRounder. split; [done|]. exists x. split; [done|]. split; [done|].
      exists w. eauto.
Qed.

(** C2. Every record that reaches the classification step gets as
    [playerType] the name of exactly one of the three classes, the one whose
    rule holds for its runs and wickets: more than 500 runs and at least 50
    wickets is an all-rounder, more than 500 runs and fewer than 50 wickets a
    batsman, at most 500 runs a bowler whatever the wickets.  The function
    is total on pairs of numbers, and 400 runs with 999 wickets is a bowler. *)
Theorem classification_follows_rule `{NumericParser} :
  (∀ (self : DataProcessorTester) (data out : nat) (σ σ' : world),
      process_data self data σ = (Ok out, σ') →
      ∃ d', heap σ' !! out = Some d' ∧
        ∀ r, r ∈ rows d' →
          ∃ k, row_get r "playerType" = CStr (class_name k) ∧
               rule_holds (row_get r "runs") (row_get r "wickets") k ∧
               ∀ k', rule_holds (row_get r "runs") (row_get r "wickets") k' → k' = k)
  ∧ (∀ (row : gmap string cell) (x w : float64),
      cell_num (row_get row "runs") = Some x →
      cell_num (row_get row "wickets") = Some w →
      float_isnan x = false → float_isnan w = false →
      ∃ k, determine_player_type row = Ok (CStr (class_name k)) ∧
           rule_holds (row_get row "runs") (row_get row "wickets") k ∧
           ∀ k', rule_holds (row_get row "runs") (row_get row "wickets") k' → k' = k)
  ∧ determine_player_type (<["runs" := CInt 400]> (<["wickets" := CInt 999]> ∅))
    = Ok (CStr "Bowler").
Proof.
  split; [|split].
  - intros self data out σ σ' Hrun.
    destruct (process_data_rows _ _ _ _ _ Hrun) as (d & d' & _ & Hout & Hrows).
    exists d'. split; [done|]. intros r Hr.
    destruct (Hrows r Hr) as (r0 & v & _ & -> & Hv & Hruns & Hwk & _ & _).
    rewrite (row_get_insert_ne _ "playerType" "runs") by done.
    rewrite (row_get_insert_ne _ "playerType" "wickets") by done.
    rewrite row_get_insert_eq.
    destruct (determine_player_type_rule _ _ Hv Hruns Hwk) as (k & -> & Hk).
    exists k. split; [done|]. split; [done|].
    intros k' Hk'. by eapply rule_holds_unique.
  - intros row x w Hx Hw Hnx Hnw.
    destruct (determine_player_type_total row x w Hx Hw Hnx Hnw) as (k & Hk & Hrule).
    exists k. split; [done|]. split; [done|].
    intros k' Hk'. by eapply rule_holds_unique.
  - reflexivity.
Qed.

Lemma classification_follows_rule_witness :
  ∃ d', heap (process_data (H := decimal_parser) sample_tester 0 sample_world).2
          !! 3%nat = Some d' ∧
    ∀ r, r ∈ rows d' →
      ∃ k, row_get r "playerType" = CStr (class_name k) ∧
           rule_holds (row_get r "runs") (row_get r "wickets") k ∧
           ∀ k', rule_holds (row_get r "runs") (row_get r "wickets") k' → k' = k.
Proof.
  apply (proj1 (classification_follows_rule (H := decimal_parser))
           sample_tester 0%nat 3%nat sample_world).
  vm_compute. reflexivity.
Defined.

(** ** The argument of [process_data] is left alone *)

Lemma process_data_heap `{NumericParser} (self : DataProcessorTester) (data : nat)
    (σ σ' : world) (res : result nat) :
  process_data self data σ = (res, σ') →
  ∃ extra, heap σ' = heap σ ++ extra ∧
           ∀ out, res = Ok out → (length (heap σ) ≤ out)%nat.
Proof.
  intros Hrun. destruct (heap σ !! data) as [d|] eqn:Hd.
  - rewrite (process_data_run self data σ d Hd) in Hrun. cbn zeta in Hrun.
    destruct (df_dropna _ _) as [d2|].
    2:{ injection Hrun as <- <-. eexists. split; [done|]. by intros out. }
    destruct (age_mask d2) as [m|].
    2:{ injection Hrun as <- <-. eexists. split; [done|]. by intros out. }
    destruct (classify_frame _) as [d4|].
    2:{ injection Hrun as <- <-. eexists. split; [done|]. by intros out. }
    injection Hrun as <- <-. eexists. split; [done|].
    intros out [= <-]. lia.
  - unfold process_data, ref_copy, read_frame in Hrun.
    unfold mbind at 1, M_bind at 1 in Hrun. unfold mbind at 1, M_bind at 1 in Hrun.
    rewrite Hd in Hrun. injection Hrun as <- <-.
    exists []. split; [by rewrite app_nil_r | by intros out].
Qed.

(** C9. [process_data] does not mutate its argument: whatever the outcome,
    the frame behind [data] (and every other frame that existed before the
    call) holds the same header and the same records afterwards, and the
    frame returned is a new one. *)
Theorem process_data_does_not_mutate_input `{NumericParser}
    (self : DataProcessorTester) (data : nat) (σ σ' : world) (res : result nat)
    (d : DataFrame) :
  heap σ !! data = Some d →
  process_data self data σ = (res, σ') →
  heap σ' !! data = Some d ∧
  (∀ l d0, heap σ !! l = Some d0 → heap σ' !! l = Some d0) ∧
  (∀ out, res = Ok out → out ≠ data).
Proof.
  intros Hd Hrun.
  destruct (process_data_heap _ _ _ _ _ Hrun) as (extra & Hheap & Hout).
  assert (Hkeep : ∀ l d0, heap σ !! l = Some d0 → heap σ' !! l = Some d0).
  { intros l d0 Hl. rewrite Hheap. by apply lookup_app_l_Some. }
  split; [by apply Hkeep|]. split; [done|].
  intros out Hres. specialize (Hout out Hres).
  apply lookup_lt_Some in Hd. lia.
Qed.

Lemma process_data_does_not_mutate_input_witness :
  heap (process_data (H := decimal_parser) sample_tester 0 sample_world).2 !! 0%nat
  = Some merged_sample.
Proof.
  refine (proj1 (process_data_does_not_mutate_input (H := decimal_parser)
             sample_tester 0%nat sample_world _ _ merged_sample _ _)).
  - reflexivity.
  - vm_compute. reflexivity.
Defined.

(** ** The coercion loop, cell by cell *)

Lemma set_header_assoc_ne (h : list (string * dtype)) (col c : string) (t : dtype) :
  c ≠ col → assoc (set_header h col t) c = assoc h c.
Proof.
  intros Hne. unfold set_header. case_bool_decide as Hin.
  - clear Hin. induction h as [|[c0 t0] h IH]; simpl; [done|].
    case_bool_decide as E1; simpl.
    + subst c0. rewrite !bool_decide_eq_false_2 by done. done.
    + case_bool_decide; [done | apply IH].
  - induction h as [|[c0 t0] h IH]; simpl.
    + by rewrite bool_decide_eq_false_2.
    + case_bool_decide; [done|]. apply IH.
      intros Hc. apply Hin. simpl. by right.
Qed.

Lemma assoc_Some_elem_of (h : list (string * dtype)) (col : string) (t : dtype) :
  assoc h col = Some t → (col, t) ∈ h.
Proof.
  induction h as [|[c0 t0] h IH]; simpl; [done|].
  case_bool_decide as E.
  - intros [= <-]. subst. by left.
  - intros Ha. right. by apply IH.
Qed.

Lemma well_typed_cell (d : DataFrame) (col : string) (t : dtype)
    (r : gmap string cell) :
  well_typed d = true → column_dtype d col = Some t → is_numeric_dtype t = true →
  r ∈ rows d → is_num_cell (row_get r col) = true.
Proof.
  unfold well_typed, column_dtype. intros Hwt Ha Ht Hr.
  apply assoc_Some_elem_of in Ha. rewrite forallb_forall in Hwt.
  apply list_elem_of_In in Ha. specialize (Hwt _ Ha). simpl in Hwt.
  rewrite Ht in Hwt. simpl in Hwt. rewrite forallb_forall in Hwt.
  apply Hwt. by apply list_elem_of_In.
Qed.

Section CoerceCells.
Context `{NumericParser}.

Lemma coerce_col_dtype_ne (d : DataFrame) (col c : string) :
  c ≠ col → column_dtype (coerce_col d col) c = column_dtype d c.
Proof.
  intros Hne. unfold coerce_col.
  destruct (column_dtype d col) as [t|] eqn:Ht; [|done].
  unfold column_dtype. cbn [header]. by apply set_header_assoc_ne.
Qed.

Lemma coerce_col_cell (d : DataFrame) (c : string) (i : nat)
    (r : gmap string cell) :
  rows d !! i = Some r →
  ∃ r', rows (coerce_col d c) !! i = Some r' ∧
        (∀ col, col ≠ c → row_get r' col = row_get r col) ∧
        row_get r' c = coerce_at d c (row_get r c).
Proof.
  intros Hi. unfold coerce_col, coerce_at.
  destruct (column_dtype d c) as [t|] eqn:Ht.
  - cbn [rows]. unfold coerce_series. cbn [s_dtype s_values].
    destruct (is_numeric_dtype t); cbn [s_values].
    + exists (<[c := row_get r c]> r). split.
      { rewrite lookup_zip_with, Hi. cbn. by rewrite list_lookup_fmap, Hi. }
      split; [|apply row_get_insert_eq].
      intros col Hne. by apply row_get_insert_ne.
    + exists (<[c := coerce_cell (row_get r c)]> r). split.
      { rewrite lookup_zip_with, Hi. cbn.
        by rewrite !list_lookup_fmap, Hi. }
      split; [|apply row_get_insert_eq].
      intros col Hne. by apply row_get_insert_ne.
  - exists r. done.
Qed.

(** The three iterations together. *)
Lemma coerce_frame_cell (d : DataFrame) (i : nat) (r : gmap string cell) :
  rows d !! i = Some r →
  ∃ r', rows (coerce_frame d) !! i = Some r' ∧
        (∀ col, col ∈ numeric_cols → row_get r' col = coerce_at d col (row_get r col)) ∧
        (∀ col, col ∉ numeric_cols → row_get r' col = row_get r col).
Proof.
  intros Hi. unfold coerce_frame, numeric_cols. cbn [foldl].
  destruct (coerce_col_cell d "runs" i r Hi) as (r1 & H1 & Hne1 & Heq1).
  destruct (coerce_col_cell _ "wickets" i r1 H1) as (r2 & H2 & Hne2 & Heq2).
  destruct (coerce_col_cell _ "age" i r2 H2) as (r3 & H3 & Hne3 & Heq3).
  exists r3. split; [done|]. split.
  - intros col Hcol.
    apply elem_of_cons in Hcol as [->|Hcol];
      [|apply elem_of_cons in Hcol as [->|Hcol];
        [|apply elem_of_cons in Hcol as [->|Hcol]; [|by apply elem_of_nil in Hcol]]].
    + rewrite Hne3, Hne2 by done. done.
    + rewrite Hne3 by done. rewrite Heq2. unfold coerce_at.
      rewrite coerce_col_dtype_ne by done. by rewrite Hne1.
    + rewrite Heq3. unfold coerce_at.
      rewrite !coerce_col_dtype_ne by done. by rewrite Hne2, Hne1.
  - intros col Hcol.
    rewrite Hne3, Hne2, Hne1; [done|..]; intros ->; apply Hcol; set_solver.
Qed.

Lemma coerce_frame_length (d : DataFrame) :
  length (rows (coerce_frame d)) = length (rows d).
Proof.
  assert (Hstep : ∀ d c, length (rows (coerce_col d c)) = length (rows d)).
  { intros d0 c. unfold coerce_col. destruct (column_dtype d0 c); [|done].
    cbn [rows]. rewrite length_zip_with, coerce_series_length. cbn [s_values].
    rewrite length_map. lia. }
  unfold coerce_frame, numeric_cols. cbn [foldl]. by rewrite !Hstep.
Qed.

Lemma coercible_num_cell (c : cell) :
  is_num_cell c = true → coercible c = negb (isna c).
Proof. by destruct c. Qed.

(** C8. The coercion step never raises, whatever the cells hold; it
    keeps the number of records, and in the columns [runs], [wickets] and
    [age] every value that cannot be coerced to a number comes out
    missing (and every cell comes out a number or missing). *)
Theorem coercion_never_raises_and_blanks (processed_data : nat) (σ : world)
    (d : DataFrame) :
  heap σ !! processed_data = Some d →
  ∃ d', coerce_numeric_cols processed_data σ
        = (Ok tt, mkWorld (<[processed_data := d']> (heap σ)) (files σ)) ∧
    length (rows d') = length (rows d) ∧
    (well_typed d = true →
     ∀ i r col, rows d !! i = Some r → col ∈ numeric_cols → col ∈ columns d →
       ∃ r', rows d' !! i = Some r' ∧
             is_num_cell (row_get r' col) = true ∧
             (coercible (row_get r col) = false → isna (row_get r' col) = true)).
Proof.
  intros Hd. exists (coerce_frame d).
  split; [by apply coerce_numeric_cols_run|].
  split; [apply coerce_frame_length|].
  intros Hwt i r col Hi Hcol Hin.
  destruct (coerce_frame_cell d i r Hi) as (r' & Hi' & Hnum & _).
  exists r'. split; [done|]. rewrite (Hnum col Hcol). unfold coerce_at.
  apply assoc_is_Some in Hin as [t Ht].
  change (assoc (header d) col) with (column_dtype d col) in Ht. rewrite Ht.
  destruct (is_numeric_dtype t) eqn:Et.
  - assert (Hn : is_num_cell (row_get r col) = true).
    { eapply well_typed_cell; eauto. by eapply list_elem_of_lookup_2. }
    split; [done|]. rewrite (coercible_num_cell _ Hn). by rewrite negb_false_iff.
  - split; [apply coerce_cell_is_num | apply coerce_cell_not_coercible].
Qed.
End CoerceCells.

Lemma coercion_never_raises_and_blanks_witness :
  ∃ d' r',
    coerce_numeric_cols (H := decimal_parser) 0 sample_world
    = (Ok tt, mkWorld (<[0%nat := d']> (heap sample_world)) (files sample_world)) ∧
    rows d' !! 2%nat = Some r' ∧
    coercible (H := decimal_parser) (CStr "n/a") = false ∧
    isna (row_get r' "runs") = true.
Proof.
  destruct (coercion_never_raises_and_blanks (H := decimal_parser) 0%nat sample_world
              merged_sample eq_refl) as (d' & Hrun & _ & Hcells).
  destruct (Hcells eq_refl 2%nat
              (player "Javed" "ODI" (CInt 33) (CStr "n/a") (CFloat (float_of_Z 3)))
              "runs" eq_refl) as (r' & Hr' & _ & Hna).
  - unfold numeric_cols. set_solver.
  - unfold columns, merged_sample, raw_header. simpl. set_solver.
  - exists d', r'. split; [done|]. split; [done|]. split; [reflexivity|].
    apply Hna. reflexivity.
Defined.

(** ** Sorting permutes *)

Lemma insert_Permutation {A} (l : list A) (i : nat) (x y : A) :
  l !! i = Some x → <[i := y]> l ≡ₚ y :: delete i l.
Proof.
  revert i. induction l as [|a l IH]; intros [|i]; simpl; try done.
  intros Hi. rewrite (IH _ Hi). apply Permutation_swap.
Qed.

Lemma foldl_Permutation {A B} (f : list A → B → list A) (a : list A) (l : list B) :
  (∀ a k, f a k ≡ₚ a) → foldl f a l ≡ₚ a.
Proof.
  intros Hf. revert a. induction l as [|k l IH]; intros a; simpl; [done|].
  by rewrite IH.
Qed.

Lemma map_nth_seq_id {A} (l : list A) (d : A) :
  map (λ k, nth k l d) (seq 0 (length l)) = l.
Proof.
  apply list_eq. intros i. rewrite list_lookup_fmap.
  destruct (l !! i) as [x|] eqn:Hi.
  - rewrite lookup_seq_lt by (by eapply lookup_lt_Some). simpl.
    f_equal. by apply nth_lookup_Some.
  - apply lookup_ge_None in Hi. by rewrite lookup_seq_ge.
Qed.

Lemma filter_partition_Permutation {A} (p : A → bool) (l : list A) :
  List.filter (λ x, negb (p x)) l ++ List.filter p l ≡ₚ l.
Proof.
  induction l as [|x l IH]; simpl; [done|].
  destruct (p x); simpl.
  - rewrite <- Permutation_middle. by constructor.
  - by constructor.
Qed.

Section ArgsortFacts.
Variable less : nat → nat → bool.

Lemma swap_Permutation (a : list nat) (p q : Z) : swap a p q ≡ₚ a.
Proof.
  unfold swap. set (i := Z.to_nat p). set (j := Z.to_nat q).
  destruct (a !! i) as [x|] eqn:Hi; [|done].
  destruct (a !! j) as [y|] eqn:Hj; [|done].
  destruct (decide (i = j)) as [->|Hne].
  - rewrite Hi in Hj. injection Hj as ->.
    rewrite list_insert_insert_eq. by rewrite list_insert_id.
  - assert (Hb : <[j := x]> a !! i = Some x) by (by rewrite list_lookup_insert_ne).
    etrans; [apply (insert_Permutation _ _ _ y Hb)|].
    etrans; [|symmetry; apply (delete_Permutation a j y Hj)].
    constructor.
    apply (Permutation_cons_inv (a := x)).
    etrans; [symmetry; apply (delete_Permutation _ i x Hb)|].
    by eapply insert_Permutation.
Qed.

Lemma insert_back_Permutation (fuel : nat) (a : list nat) (pl pj : Z) :
  insert_back less fuel a pl pj ≡ₚ a.
Proof.
  revert a pj. induction fuel as [|fuel IH]; intros a pj; simpl; [done|].
  destruct (_ && _); [|done]. rewrite IH. apply swap_Permutation.
Qed.

Lemma insertion_sort_Permutation (a : list nat) (pl pr : Z) :
  insertion_sort less a pl pr ≡ₚ a.
Proof.
  unfold insertion_sort. apply foldl_Permutation.
  intros. apply insert_back_Permutation.
Qed.

Lemma partition_loop_Permutation (fuel : nat) (a : list nat) (piv : nat) (pi pj : Z) :
  (partition_loop less fuel a piv pi pj).1 ≡ₚ a.
Proof.
  revert a pi pj. induction fuel as [|fuel IH]; intros a pi pj; simpl.
  - by destruct (_ <=? _).
  - destruct (_ <=? _); [done|]. rewrite IH. apply swap_Permutation.
Qed.

Lemma swap_if_less_Permutation (a : list nat) (p q : Z) :
  swap_if_less less a p q ≡ₚ a.
Proof. unfold swap_if_less. destruct (less _ _); [apply swap_Permutation | done]. Qed.

Lemma partition_Permutation (a : list nat) (pl pr : Z) :
  (partition less a pl pr).1 ≡ₚ a.
Proof.
  unfold partition.
  set (a3 := swap_if_less less (swap_if_less less (swap_if_less less a _ _) _ _) _ _).
  assert (Ha3 : a3 ≡ₚ a) by (unfold a3; by rewrite !swap_if_less_Permutation).
  set (a4 := swap a3 _ _).
  pose proof (partition_loop_Permutation (length a4) a4
                (at_ a3 (pl + (pr - pl) ≫ 1)) pl (pr - 1)) as Hloop.
  destruct (partition_loop _ _ _ _ _ _) as [a5 pi]. simpl in *.
  rewrite swap_Permutation, Hloop. unfold a4. by rewrite swap_Permutation.
Qed.

Lemma sift_down_Permutation (fuel : nat) (a : list nat) (pl i n : Z) :
  sift_down less fuel a pl i n ≡ₚ a.
Proof.
  revert a i. induction fuel as [|fuel IH]; intros a i; simpl; [done|].
  destruct (_ <=? _); [|done]. destruct (less _ _); [|done].
  rewrite IH. apply swap_Permutation.
Qed.

Lemma aheapsort_Permutation (a : list nat) (pl n : Z) :
  aheapsort less a pl n ≡ₚ a.
Proof.
  unfold aheapsort, heap_extract, heapify.
  rewrite foldl_Permutation.
  - apply foldl_Permutation. intros. apply sift_down_Permutation.
  - intros. cbn zeta. rewrite sift_down_Permutation. apply swap_Permutation.
Qed.

Lemma aquicksort_loop_Permutation (fuel : nat) (a : list nat) (pl pr cdepth : Z)
    (partitioning : bool) (stack : list (Z * Z * Z)) :
  aquicksort_loop less fuel a pl pr cdepth partitioning stack ≡ₚ a.
Proof.
  revert a pl pr cdepth partitioning stack.
  induction fuel as [|fuel IH]; intros a pl pr cdepth partitioning stack; simpl;
    [done|].
  destruct (_ && _).
  - destruct stack as [|[[pl' pr'] d'] stack'].
    + apply aheapsort_Permutation.
    + rewrite IH. apply aheapsort_Permutation.
  - destruct (SMALL_QUICKSORT <? _).
    + pose proof (partition_Permutation a pl pr) as Hp.
      destruct (partition less a pl pr) as [a' pi]. simpl in Hp.
      destruct (_ <? _); by rewrite IH.
    + destruct stack as [|[[pl' pr'] d'] stack'].
      * apply insertion_sort_Permutation.
      * rewrite IH. apply insertion_sort_Permutation.
Qed.

Lemma aquicksort_Permutation (n : nat) : aquicksort less n ≡ₚ seq 0 n.
Proof. apply aquicksort_loop_Permutation. Qed.
End ArgsortFacts.

Lemma nargsort_Permutation (keys : list cell) (indexer : list nat) :
  nargsort keys = Ok indexer → indexer ≡ₚ seq 0 (length keys).
Proof.
  unfold nargsort. destruct (sortable _); [|done]. intros [= <-].
  set (idx := seq 0 (length keys)).
  set (non_nan_idx := List.filter _ idx).
  rewrite length_map.
  rewrite (aquicksort_Permutation _ (length non_nan_idx)).
  rewrite map_nth_seq_id.
  apply (filter_partition_Permutation (λ i, isna (nth i keys CNone))).
Qed.

Lemma df_sort_values_Permutation (d d' : DataFrame) (by_ : string) :
  df_sort_values d by_ = Ok d' →
  header d' = header d ∧ rows d' ≡ₚ rows d ∧ by_ ∈ columns d.
Proof.
  unfold df_sort_values, df_getitem.
  destruct (column_dtype d by_) as [t|] eqn:Ht; [|done].
  cbn [mbind result_bind s_values].
  destruct (nargsort _) as [indexer|] eqn:Hsort; [|done].
  cbn [mbind result_bind]. intros [= <-]. cbn [header rows].
  split; [done|]. split.
  - apply nargsort_Permutation in Hsort. rewrite length_map in Hsort.
    rewrite Hsort. by rewrite map_nth_seq_id.
  - apply assoc_is_Some. eauto.
Qed.

(** ** Running [validate_output] *)

Lemma validate_output_run (self : DataProcessorTester) (expected_data actual_data : nat)
    (σ : world) (expected actual : DataFrame) :
  heap σ !! expected_data = Some expected →
  heap σ !! actual_data = Some actual →
  validate_output self expected_data actual_data σ =
  match validate_frames expected actual with
  | Ok res =>
      (Ok (length (heap σ)),
       mkWorld (heap σ ++ [res])
         (<[path_join (temp_dir self) "test_result.csv" := Csv res]> (files σ)))
  | Raise e => (Raise e, σ)
  end.
Proof.
  intros He Ha.
  unfold validate_output, validate_frames, sorted_expected, sorted_actual.
  unfold read_frame, lift, write_file, new_frame.
  unfold mbind at 1, M_bind at 1. rewrite He.
  unfold mbind at 1, M_bind at 1. rewrite Ha.
  unfold mbind at 1, M_bind at 1.
  destruct (df_select expected expected_cols) as [e1|]; [|done].
  cbn [mbind result_bind].
  unfold mbind at 1, M_bind at 1.
  destruct (df_sort_values e1 "playerName") as [expected_df|]; [|done].
  cbn [mbind result_bind].
  unfold mbind at 1, M_bind at 1.
  destruct (df_select actual (columns actual)) as [a1|]; [|done].
  cbn [mbind result_bind].
  unfold mbind at 1, M_bind at 1.
  destruct (df_sort_values a1 "playerName") as [actual_df|]; [|done].
  cbn [mbind result_bind].
  unfold mbind at 1, M_bind at 1.
  destruct (df_setitem_scalar expected_df "Result" (CStr "PASS")) as [e2|]; [|done].
  cbn [mbind result_bind].
  unfold mbind at 1, M_bind at 1.
  destruct (compare_rows actual_df 0 (rows e2) e2) as [res|]; [|done].
  unfold mbind at 1, M_bind at 1. done.
Qed.

(** ** The row loop of the validator *)

Lemma select_map_filter {A} (p : A → bool) (l : list A) :
  select l (map p l) = List.filter p l.
Proof. induction l as [|x l IH]; simpl; [done|]. destruct (p x); by rewrite IH. Qed.

Lemma matching_rows_filter (actual_df : DataFrame) (player_name : cell)
    (matching : list (gmap string cell)) :
  matching_rows actual_df player_name = Ok matching →
  matching = List.filter (name_matches player_name) (rows actual_df).
Proof.
  unfold matching_rows, df_getitem.
  destruct (column_dtype actual_df "playerName"); [|done].
  cbn [mbind result_bind s_values]. intros [= <-].
  rewrite map_map. apply select_map_filter.
Qed.

Lemma fields_differ_equal (cols : list string) (actual_df : DataFrame)
    (er ar : gmap string cell) (b : bool) :
  fields_differ cols actual_df er ar = Ok b →
  b = negb (forallb (λ c, py_eq (row_get er c) (row_get ar c)) cols).
Proof.
  induction cols as [|c cols IH]; simpl.
  - by intros [= <-].
  - unfold series_item. case_bool_decide; [|done]. cbn [mbind result_bind].
    unfold py_ne. destruct (py_eq _ _); simpl.
    + apply IH.
    + by intros [= <-].
Qed.

Lemma compare_rows_cons (actual_df : DataFrame) (i : nat) (er : gmap string cell)
    (todo : list (gmap string cell)) (df : DataFrame) :
  compare_rows actual_df i (er :: todo) df =
  match row_fails actual_df er with
  | Ok b => compare_rows actual_df (S i) todo
              (if b then df_at_set df i "Result" (CStr "FAIL") else df)
  | Raise e => Raise e
  end.
Proof.
  cbn [compare_rows]. unfold row_fails.
  destruct (matching_rows _ _) as [[|ar m]|]; cbn [mbind result_bind]; try done.
  by destruct (fields_differ _ _ _ _) as [[]|].
Qed.

Lemma compare_rows_lookup (actual_df : DataFrame) (todo : list (gmap string cell))
    (i : nat) (df res : DataFrame) :
  compare_rows actual_df i todo df = Ok res →
  header res = header df ∧
  (∀ er, er ∈ todo → ∃ b, row_fails actual_df er = Ok b) ∧
  ∀ j, rows res !! j =
       if decide (i ≤ j)%nat then
         match todo !! (j - i)%nat with
         | Some er => mark actual_df er <$> rows df !! j
         | None => rows df !! j
         end
       else rows df !! j.
Proof.
  revert i df. induction todo as [|er todo IH]; intros i df.
  - intros [= <-]. split; [done|]. split; [by intros ? ?%elem_of_nil|].
    intros j. by case_decide.
  - rewrite compare_rows_cons.
    destruct (row_fails actual_df er) as [b|] eqn:Hb; [|done].
    intros Hres. destruct (IH _ _ Hres) as (Hh & Hok & Hrows).
    split; [by rewrite Hh; destruct b|]. split.
    { intros er' [->|Hin]%elem_of_cons; eauto. }
    intros j. rewrite Hrows.
    assert (Hdf : ∀ k, (if b then df_at_set df i "Result" (CStr "FAIL") else df).(rows) !! k
                       = if decide (k = i) then mark actual_df er <$> rows df !! k
                         else rows df !! k).
    { intros k. unfold mark. rewrite Hb. destruct b; cbn [df_at_set rows].
      - case_decide as Hk.
        + subst k. by rewrite list_lookup_alter_eq.
        + by rewrite list_lookup_alter_ne.
      - case_decide; [|done]. by destruct (rows df !! k). }
    rewrite Hdf.
    destruct (decide (S i ≤ j)%nat) as [Hle|Hgt].
    + rewrite (decide_True (P := (i ≤ j)%nat)) by lia.
      rewrite (decide_False (P := j = i)) by lia.
      replace (j - i)%nat with (S (j - S i)) by lia. done.
    + destruct (decide (i ≤ j)%nat) as [Hle'|Hgt'].
      * assert (j = i) as -> by lia. rewrite decide_True by done.
        by rewrite Nat.sub_diag.
      * by rewrite decide_False by lia.
Qed.

(** The loop over the snapshot of the frame itself: every row is marked
    according to its own verdict. *)
Lemma compare_rows_all (actual_df df res : DataFrame) :
  compare_rows actual_df 0 (rows df) df = Ok res →
  header res = header df ∧
  (∀ er, er ∈ rows df → ∃ b, row_fails actual_df er = Ok b) ∧
  rows res = map (λ er, mark actual_df er er) (rows df).
Proof.
  intros Hres. destruct (compare_rows_lookup _ _ _ _ _ Hres) as (Hh & Hok & Hrows).
  split; [done|]. split; [done|].
  apply list_eq. intros j. rewrite Hrows, list_lookup_fmap.
  rewrite decide_True by lia. rewrite Nat.sub_0_r.
  by destruct (rows df !! j).
Qed.

(** ** Projection and the sorted frames *)

Lemma restrict_row_get (cols : list string) (r : gmap string cell) (c : string) :
  c ∈ cols → row_get (restrict cols r) c = row_get r c.
Proof.
  intros Hc. unfold row_get, restrict. f_equal.
  destruct (r !! c) as [v|] eqn:Hr.
  - apply map_lookup_filter_Some. done.
  - apply map_lookup_filter_None. left. done.
Qed.

Lemma df_select_Ok (d d' : DataFrame) (cols : list string) :
  df_select d cols = Ok d' →
  columns d' = cols ∧ rows d' = map (restrict cols) (rows d) ∧
  ∀ c, c ∈ cols → c ∈ columns d.
Proof.
  unfold df_select.
  destruct (List.filter _ cols) as [|c0 l] eqn:Hf; [|done].
  intros [= <-]. unfold columns at 1. cbn [header rows]. split.
  - rewrite <- list_fmap_compose. apply list_fmap_id.
  - split; [done|]. intros c Hc.
    destruct (decide (c ∈ columns d)) as [|Hn]; [done|].
    assert (In c (List.filter (λ c, negb (bool_decide (c ∈ columns d))) cols)) as Hin.
    { apply filter_In. split; [by apply list_elem_of_In|].
      by rewrite bool_decide_eq_false_2. }
    rewrite Hf in Hin. done.
Qed.

Lemma sorted_actual_Ok (actual actual_df : DataFrame) :
  sorted_actual actual = Ok actual_df →
  columns actual_df = columns actual ∧
  rows actual_df ≡ₚ map (restrict (columns actual)) (rows actual) ∧
  "playerName" ∈ columns actual.
Proof.
  unfold sorted_actual.
  destruct (df_select actual (columns actual)) as [a1|] eqn:Hsel; [|done].
  cbn [mbind result_bind]. intros Hsort.
  apply df_select_Ok in Hsel as (Hcols & Hrows & _).
  apply df_sort_values_Permutation in Hsort as (Hh & Hperm & Hin).
  split; [|split].
  - unfold columns in *. by rewrite Hh.
  - by rewrite Hperm, Hrows.
  - by rewrite <- Hcols.
Qed.

Lemma sorted_expected_Ok (expected expected_df : DataFrame) :
  sorted_expected expected = Ok expected_df →
  columns expected_df = expected_cols ∧
  rows expected_df ≡ₚ map (restrict expected_cols) (rows expected).
Proof.
  unfold sorted_expected.
  destruct (df_select expected expected_cols) as [e1|] eqn:Hsel; [|done].
  cbn [mbind result_bind]. intros Hsort.
  apply df_select_Ok in Hsel as (Hcols & Hrows & _).
  apply df_sort_values_Permutation in Hsort as (Hh & Hperm & Hin).
  split.
  - unfold columns in *. by rewrite Hh.
  - by rewrite Hperm, Hrows.
Qed.

Lemma fields_equal_insert_Result (er ar : gmap string cell) (v : cell) :
  fields_equal (<["Result" := v]> er) ar = fields_equal er ar.
Proof.
  unfold fields_equal, expected_cols. cbn [forallb].
  by rewrite !row_get_insert_ne by done.
Qed.

Lemma mark_verdict_row (actual_df : DataFrame) (er : gmap string cell) (b : bool) :
  row_fails actual_df (<["Result" := CStr "PASS"]> er) = Ok b →
  mark actual_df (<["Result" := CStr "PASS"]> er) (<["Result" := CStr "PASS"]> er)
  = verdict_row actual_df er.
Proof.
  intros Hb. unfold mark, verdict_row, verdict, first_match. rewrite Hb.
  revert Hb. unfold row_fails. rewrite row_get_insert_ne by done.
  destruct (matching_rows _ _) as [matching|] eqn:Hm; [|done].
  cbn [mbind result_bind].
  apply matching_rows_filter in Hm. rewrite <- Hm.
  destruct matching as [|ar matching]; cbn [head].
  - intros [= <-]. by rewrite insert_insert_eq.
  - intros Hd. apply fields_differ_equal in Hd.
    change (forallb _ expected_cols) with
      (fields_equal (<["Result" := CStr "PASS"]> er) ar) in Hd.
    rewrite fields_equal_insert_Result in Hd. subst b.
    destruct (fields_equal er ar); cbn [negb]; [done|].
    by rewrite insert_insert_eq.
Qed.

(** The validation result, row by row. *)
Lemma validate_output_rows (self : DataProcessorTester)
    (expected_data actual_data out : nat) (σ σ' : world)
    (expected actual : DataFrame) :
  heap σ !! expected_data = Some expected →
  heap σ !! actual_data = Some actual →
  validate_output self expected_data actual_data σ = (Ok out, σ') →
  ∃ expected_df actual_df res,
    sorted_expected expected = Ok expected_df ∧
    sorted_actual actual = Ok actual_df ∧
    heap σ' !! out = Some res ∧
    rows res = map (verdict_row actual_df) (rows expected_df).
Proof.
  intros He Ha Hrun. rewrite (validate_output_run _ _ _ _ _ _ He Ha) in Hrun.
  destruct (validate_frames expected actual) as [res|] eqn:Hres; [|done].
  injection Hrun as <- <-. revert Hres. unfold validate_frames.
  destruct (sorted_expected expected) as [expected_df|]; [|done].
  cbn [mbind result_bind].
  destruct (sorted_actual actual) as [actual_df|]; [|done].
  cbn [mbind result_bind].
  destruct (df_setitem_scalar _ _ _) as [e2|] eqn:He2; [|done].
  cbn [mbind result_bind]. intros Hcmp.
  exists expected_df, actual_df, res. split; [done|]. split; [done|]. split.
  { cbn [heap]. by rewrite lookup_app_r, Nat.sub_diag. }
  apply compare_rows_all in Hcmp as (_ & Hok & ->).
  revert He2. unfold df_setitem_scalar, df_setitem. cbn [s_values s_dtype].
  case_bool_decide; [|done]. intros [= <-]. cbn [rows] in *.
  assert (Hz : zip_with (λ r v, <["Result" := v]> r) (rows expected_df)
                 (replicate (length (rows expected_df)) (CStr "PASS"))
               = map (λ r, <["Result" := CStr "PASS"]> r) (rows expected_df)).
  { generalize (rows expected_df). intros l.
    induction l as [|r l IH]; simpl; [done|]. by rewrite IH. }
  rewrite Hz in *. rewrite map_map. apply map_ext_in.
  intros er Her.
  destruct (Hok (<["Result" := CStr "PASS"]> er)) as [b Hb].
  { apply list_elem_of_fmap. exists er. split; [done|]. by apply list_elem_of_In. }
  by eapply mark_verdict_row.
Qed.

Lemma name_matches_restrict (cols : list string) (name : cell) (r : gmap string cell) :
  "playerName" ∈ cols → name_matches name (restrict cols r) = name_matches name r.
Proof. intros Hc. unfold name_matches. by rewrite restrict_row_get. Qed.

Lemma first_match_None (rs : list (gmap string cell)) (name : cell) :
  first_match rs name = None ↔ ∀ r, r ∈ rs → name_matches name r = false.
Proof.
  unfold first_match. split.
  - intros Hh r Hr. destruct (name_matches name r) eqn:Hm; [|done].
    assert (In r (List.filter (name_matches name) rs)) as Hin.
    { apply filter_In. split; [by apply list_elem_of_In | done]. }
    destruct (List.filter _ rs); [done | discriminate].
  - intros Hall. destruct (List.filter _ rs) as [|r l] eqn:Hf; [done|].
    assert (In r (List.filter (name_matches name) rs)) as Hin by (rewrite Hf; by left).
    apply filter_In in Hin as [Hin Hm]. apply list_elem_of_In in Hin.
    rewrite (Hall r Hin) in Hm. done.
Qed.

Lemma first_match_Some (rs : list (gmap string cell)) (name : cell)
    (r : gmap string cell) :
  first_match rs name = Some r → r ∈ rs ∧ name_matches name r = true.
Proof.
  unfold first_match. destruct (List.filter _ rs) as [|r' l] eqn:Hf; [done|].
  intros [= <-].
  assert (In r' (List.filter (name_matches name) rs)) as Hin by (rewrite Hf; by left).
  apply filter_In in Hin as [Hin Hm]. split; [by apply list_elem_of_In | done].
Qed.

Lemma float_compare_Eq (x y : float64) :
  (match float_compare x y with Some Eq => true | _ => false end) = true
  ↔ same_number x y.
Proof.
  destruct x as [|[]|p], y as [|[]|q]; simpl; try (split; done).
  split.
  - destruct (p ?= q)%Q eqn:Hc; try done. intros _. by apply Qeq_alt.
  - intros Hq. apply Qeq_alt in Hq. by rewrite Hq.
Qed.

Lemma py_eq_same_value (a b : cell) :
  isna a = false → py_eq a b = true ↔ same_value a b.
Proof.
  intros Ha. unfold py_eq, same_value.
  destruct a as [z|f|x|s|], b as [z'|f'|x'|s'|]; cbn [cell_num];
    try apply float_compare_Eq; try (split; done).
  apply bool_decide_eq_true.
Qed.

Lemma forallb_false_ex {A} (p : A → bool) (l : list A) :
  forallb p l = false → ∃ x, x ∈ l ∧ p x = false.
Proof.
  induction l as [|x l IH]; simpl; [done|].
  destruct (p x) eqn:Hx; simpl.
  - intros Hl. destruct (IH Hl) as (y & Hy & Hpy). exists y. split; [by right | done].
  - intros _. exists x. split; [by left | done].
Qed.

Lemma fields_equal_same_value (er ar : gmap string cell) :
  complete_record er →
  fields_equal er ar = true
  ↔ ∀ c, c ∈ expected_cols → same_value (row_get er c) (row_get ar c).
Proof.
  intros Her. unfold fields_equal. rewrite forallb_forall. split.
  - intros Hall c Hc. apply py_eq_same_value; [by apply Her|].
    by apply Hall, list_elem_of_In.
  - intros Hall c Hc. apply list_elem_of_In in Hc.
    apply py_eq_same_value; [by apply Her | by apply Hall].
Qed.

Lemma fields_differ_some_value (er ar : gmap string cell) :
  complete_record er →
  fields_equal er ar = false
  ↔ ∃ c, c ∈ expected_cols ∧ ¬ same_value (row_get er c) (row_get ar c).
Proof.
  intros Her. split.
  - intros Hf. apply forallb_false_ex in Hf as (c & Hc & Hne).
    exists c. split; [done|]. intros Hs.
    apply py_eq_same_value in Hs; [congruence | by apply Her].
  - intros (c & Hc & Hne). destruct (fields_equal er ar) eqn:Hf; [|done].
    exfalso. apply Hne. by apply (fields_equal_same_value er ar Her).
Qed.

(** C3 as stated fails, in both directions.  A record validated against an
    output that holds the very same record, field for field, gets FAIL when
    one of its fields ([eventType] here) is missing: Python's [!=] makes NaN
    differ from itself.  And a record whose age is the int 30 gets PASS
    against an output row whose age is the float 30.0: the comparison is by
    value and tolerates the difference of type. *)
Lemma identical_record_fails_and_retyped_record_passes :
  (heap no_event_world !! 0%nat = Some no_event_frame ∧
   heap no_event_world !! 1%nat = Some no_event_frame ∧
   map (λ r, isna (row_get r "eventType")) (rows no_event_frame) = [true] ∧
   (validate_output sample_tester 0 1 no_event_world).1 = Ok 2%nat ∧
   match heap (validate_output sample_tester 0 1 no_event_world).2 !! 2%nat with
   | Some res => map (λ r, row_get r "Result") (rows res) = [CStr "FAIL"]
   | None => False
   end) ∧
  (map (λ r, (row_get r "playerName", row_get r "age")) (rows int_age_expected)
   = [(CStr "Kapil", CInt 30)] ∧
   map (λ r, (row_get r "playerName", row_get r "age")) (rows float_age_output)
   = [(CStr "Kapil", CFloat (float_of_Z 30)); (CStr "Zaheer", NaN)] ∧
   CInt 30 ≠ CFloat (float_of_Z 30) ∧
   (validate_output sample_tester 0 1 float_age_world).1 = Ok 2%nat ∧
   match heap (validate_output sample_tester 0 1 float_age_world).2 !! 2%nat with
   | Some res => map (λ r, row_get r "Result") (rows res) = [CStr "PASS"]
   | None => False
   end).
Proof.
  split.
  - split; [reflexivity|]. split; [reflexivity|].
    split; [vm_compute; reflexivity|].
    split; [vm_compute; reflexivity|].
    vm_compute; reflexivity.
  - split; [vm_compute; reflexivity|].
    split; [vm_compute; reflexivity|].
    split; [discriminate|].
    split; [vm_compute; reflexivity|].
    vm_compute; reflexivity.
Qed.

(** C3, amended.  For every expected record, taken in the order of the
    projected and sorted expected frame: the result row carries its fields;
    if no record of the actual dataset has the same [playerName] the verdict
    is FAIL; if one has, the first match (in the actual frame sorted by name)
    is compared over the six projected fields with Python's [!=], and the
    verdict is PASS when no field differs and FAIL when one does.  For a
    record none of whose projected fields is missing, that comparison is by
    value: PASS exactly when every field holds the same text or the same
    number as the field of the match, whatever the numeric types, and FAIL
    exactly when some field does not. *)
Theorem validate_output_verdicts (self : DataProcessorTester)
    (expected_data actual_data out : nat) (σ σ' : world)
    (expected actual : DataFrame) :
  heap σ !! expected_data = Some expected →
  heap σ !! actual_data = Some actual →
  validate_output self expected_data actual_data σ = (Ok out, σ') →
  ∃ expected_df actual_df res,
    sorted_expected expected = Ok expected_df ∧
    sorted_actual actual = Ok actual_df ∧
    heap σ' !! out = Some res ∧
    rows expected_df ≡ₚ map (restrict expected_cols) (rows expected) ∧
    length (rows res) = length (rows expected_df) ∧
    ∀ i er, rows expected_df !! i = Some er →
      ∃ rr, rows res !! i = Some rr ∧
        (∀ c, c ≠ "Result" → row_get rr c = row_get er c) ∧
        ((∀ ar, ar ∈ rows actual → name_matches (row_get er "playerName") ar = false) →
         row_get rr "Result" = CStr "FAIL") ∧
        ((∃ ar, ar ∈ rows actual ∧ name_matches (row_get er "playerName") ar = true) →
         ∃ ar, first_match (rows actual_df) (row_get er "playerName") = Some ar ∧
               row_get rr "Result"
               = CStr (if fields_equal er ar then "PASS" else "FAIL") ∧
               (complete_record er →
                (row_get rr "Result" = CStr "PASS"
                 ↔ ∀ c, c ∈ expected_cols → same_value (row_get er c) (row_get ar c)) ∧
                (row_get rr "Result" = CStr "FAIL"
                 ↔ ∃ c, c ∈ expected_cols ∧
                        ¬ same_value (row_get er c) (row_get ar c)))).
Proof.
  intros He Ha Hrun.
  destruct (validate_output_rows _ _ _ _ _ _ _ _ He Ha Hrun)
    as (expected_df & actual_df & res & Hse & Hsa & Hout & Hrows).
  exists expected_df, actual_df, res.
  destruct (sorted_expected_Ok _ _ Hse) as [_ Hpe].
  destruct (sorted_actual_Ok _ _ Hsa) as (_ & Hpa & Hname).
  repeat (split; [done|]). split; [by rewrite Hrows, length_map|].
  intros i er Hi. exists (verdict_row actual_df er). split.
  { by rewrite Hrows, list_lookup_fmap, Hi. }
  unfold verdict_row. split; [intros c Hc; by apply row_get_insert_ne|].
  rewrite row_get_insert_eq. unfold verdict. split.
  - intros Hnone.
    assert (first_match (rows actual_df) (row_get er "playerName") = None) as ->; [|done].
    apply first_match_None. intros r Hr. rewrite Hpa in Hr.
    apply list_elem_of_fmap in Hr as (r0 & -> & Hr0).
    rewrite name_matches_restrict by done. by apply Hnone.
  - intros (ar0 & Har0 & Hm).
    destruct (first_match (rows actual_df) (row_get er "playerName")) as [ar|] eqn:Hf.
    + exists ar. split; [done|]. split; [by destruct (fields_equal er ar)|].
      intros Her.
      pose proof (fields_equal_same_value er ar Her) as Hsame.
      pose proof (fields_differ_some_value er ar Her) as Hdiff.
      destruct (fields_equal er ar); split.
      * split; [intros _; by apply Hsame | done].
      * split; [done|]. intros Hex. by apply Hdiff in Hex.
      * split; [done|]. intros Hall. by apply Hsame in Hall.
      * split; [intros _; by apply Hdiff | done].
    + exfalso. rewrite first_match_None in Hf.
      assert (restrict (columns actual) ar0 ∈ rows actual_df) as Hin.
      { rewrite Hpa. apply list_elem_of_fmap. eauto. }
      specialize (Hf _ Hin). rewrite name_matches_restrict in Hf by done. congruence.
Qed.

Lemma validate_output_verdicts_witness :
  ∃ res, heap (validate_output sample_tester 0 1 validation_world).2 !! 2%nat = Some res ∧
         map (λ r, (row_get r "playerName", row_get r "Result")) (rows res)
         = [(CStr "Kapil", CStr "PASS"); (CStr "Wasim", CStr "FAIL");
            (CStr "Zaheer", CStr "FAIL")].
Proof.
  destruct (validate_output_verdicts sample_tester 0%nat 1%nat 2%nat validation_world
              (validate_output sample_tester 0 1 validation_world).2
              expected_sample actual_sample)
    as (expected_df & actual_df & res & _ & _ & Hout & _).
  - reflexivity.
  - reflexivity.
  - vm_compute. reflexivity.
  - exists res. split; [done|].
    revert Hout. vm_compute. intros [= <-]. reflexivity.
Defined.

(** C6 as stated fails: the expected record equals, field by field, the
    earliest row of the output that carries its name (the first row, with 0
    runs), and still gets FAIL, because the row it is compared with is the
    first one after sorting, which is the sixteenth row of the output as
    given (the one with 15 runs). *)
Lemma first_match_not_in_given_order :
  rows repeated_expected = [repeated_row 0] ∧
  first_match (rows repeated_actual) (CStr "B") = Some (repeated_row 0) ∧
  fields_equal (repeated_row 0) (repeated_row 0) = true ∧
  (validate_output sample_tester 0 1 repeated_world).1 = Ok 2%nat ∧
  match heap (validate_output sample_tester 0 1 repeated_world).2 !! 2%nat with
  | Some res => map (λ r, row_get r "Result") (rows res) = [CStr "FAIL"]
  | None => False
  end ∧
  match sorted_actual repeated_actual with
  | Ok actual_df =>
      match first_match (rows actual_df) (CStr "B") with
      | Some ar => row_get ar "runs" = CInt 15
      | None => False
      end
  | Raise _ => False
  end ∧
  (row_get (repeated_row 15) "runs" = CInt 15 ∧
   rows repeated_actual !! 15%nat = Some (repeated_row 15)).
Proof.
  split; [reflexivity|].
  split; [vm_compute; reflexivity|].
  split; [vm_compute; reflexivity|].
  split; [vm_compute; reflexivity|].
  split; [vm_compute; reflexivity|].
  split; [vm_compute; reflexivity|].
  split; [vm_compute; reflexivity | reflexivity].
Qed.

(** On that output the sort does its job: [A] first, then the seventeen
    [B]s. *)
Lemma sorted_actual_repeated_names :
  match sorted_actual repeated_actual with
  | Ok actual_df =>
      map (λ r, row_get r "playerName") (rows actual_df)
      = CStr "A" :: replicate 17 (CStr "B")
  | Raise _ => False
  end.
Proof. vm_compute. reflexivity. Qed.

(** C6, amended. An expected record whose name occurs in the actual dataset
    is compared with the first matching row of the actual frame sorted by
    [playerName]; that row is one of the records of the actual dataset that
    carry the name, and the verdict is the outcome of that comparison. *)
Theorem validate_output_first_match_after_sort (self : DataProcessorTester)
    (expected_data actual_data out : nat) (σ σ' : world)
    (expected actual : DataFrame) :
  heap σ !! expected_data = Some expected →
  heap σ !! actual_data = Some actual →
  validate_output self expected_data actual_data σ = (Ok out, σ') →
  ∃ expected_df actual_df res,
    sorted_expected expected = Ok expected_df ∧
    sorted_actual actual = Ok actual_df ∧
    heap σ' !! out = Some res ∧
    rows actual_df ≡ₚ map (restrict (columns actual)) (rows actual) ∧
    ∀ i er, rows expected_df !! i = Some er →
      (∃ ar0, ar0 ∈ rows actual ∧ name_matches (row_get er "playerName") ar0 = true) →
      ∃ ar ar0 rr,
        first_match (rows actual_df) (row_get er "playerName") = Some ar ∧
        ar0 ∈ rows actual ∧ ar = restrict (columns actual) ar0 ∧
        name_matches (row_get er "playerName") ar0 = true ∧
        rows res !! i = Some rr ∧
        row_get rr "Result" = CStr (if fields_equal er ar then "PASS" else "FAIL").
Proof.
  intros He Ha Hrun.
  destruct (validate_output_rows _ _ _ _ _ _ _ _ He Ha Hrun)
    as (expected_df & actual_df & res & Hse & Hsa & Hout & Hrows).
  exists expected_df, actual_df, res.
  destruct (sorted_actual_Ok _ _ Hsa) as (_ & Hpa & Hname).
  repeat (split; [done|]).
  intros i er Hi (ar1 & Har1 & Hm1).
  destruct (first_match (rows actual_df) (row_get er "playerName")) as [ar|] eqn:Hf.
  - destruct (first_match_Some _ _ _ Hf) as [Hin Hm].
    rewrite Hpa in Hin. apply list_elem_of_fmap in Hin as (ar0 & -> & Hin0).
    rewrite name_matches_restrict in Hm by done.
    exists (restrict (columns actual) ar0), ar0, (verdict_row actual_df er).
    repeat (split; [done|]). split.
    { by rewrite Hrows, list_lookup_fmap, Hi. }
    unfold verdict_row, verdict. rewrite row_get_insert_eq, Hf.
    by destruct (fields_equal _ _).
  - exfalso. rewrite first_match_None in Hf.
    assert (restrict (columns actual) ar1 ∈ rows actual_df) as Hin.
    { rewrite Hpa. apply list_elem_of_fmap. eauto. }
    specialize (Hf _ Hin). rewrite name_matches_restrict in Hf by done. congruence.
Qed.

Lemma validate_output_first_match_after_sort_witness :
  ∃ ar ar0 rr,
    ar0 ∈ rows actual_sample ∧ ar = restrict (columns actual_sample) ar0 ∧
    name_matches (CStr "Kapil") ar0 = true ∧
    row_get rr "Result" = CStr (if fields_equal
                                     (typed_player "Kapil" "TEST" 30 600 60 "All-Rounder") ar
                                then "PASS" else "FAIL").
Proof.
  destruct (validate_output_first_match_after_sort sample_tester 0%nat 1%nat 2%nat
              validation_world (validate_output sample_tester 0 1 validation_world).2
              expected_sample actual_sample)
    as (expected_df & actual_df & res & Hse & Hsa & Hout & _ & Hrows).
  - reflexivity.
  - reflexivity.
  - vm_compute. reflexivity.
  - vm_compute in Hse. injection Hse as <-.
    destruct (Hrows 0%nat (typed_player "Kapil" "TEST" 30 600 60 "All-Rounder"))
      as (ar & ar0 & rr & Hf & Hin & -> & Hm & Hrr & Hv).
    + vm_compute. reflexivity.
    + exists (typed_player "Kapil" "TEST" 30 600 60 "All-Rounder").
      split; [|reflexivity].
      apply list_elem_of_lookup. exists 0%nat. reflexivity.
    + exists (restrict (columns actual_sample) ar0), ar0, rr.
      split; [exact Hin|]. split; [reflexivity|]. split; [exact Hm | exact Hv].
Defined.

(** ** [read_output_data] *)

Lemma read_or_empty_run (σ : world) (path : string) (d : DataFrame) :
  reads_as σ path d →
  (b ← path_exists path; if b : bool then read_csv path else mret empty_frame) σ
  = (Ok d, σ).
Proof.
  unfold path_exists, read_csv. unfold mbind, M_bind, mret, M_ret.
  intros [d' Hf | Hf]; rewrite Hf.
  - rewrite bool_decide_eq_true_2 by eauto. by rewrite Hf.
  - rewrite bool_decide_eq_false_2; [done|]. by intros [? ?].
Qed.

Lemma read_output_data_run (self : DataProcessorTester) (σ : world)
    (test_data odi_data : DataFrame) :
  reads_as σ (path_join (output_dir self) "test_results.csv") test_data →
  reads_as σ (path_join (output_dir self) "odi_results.csv") odi_data →
  read_output_data self σ
  = (Ok (length (heap σ)),
     mkWorld (heap σ ++ [df_concat test_data odi_data]) (files σ)).
Proof.
  intros Ht Ho. unfold read_output_data. cbn zeta.
  unfold mbind at 1, M_bind at 1. rewrite (read_or_empty_run _ _ _ Ht).
  unfold mbind at 1, M_bind at 1. rewrite (read_or_empty_run _ _ _ Ho).
  done.
Qed.

Lemma df_concat_columns_empty (d : DataFrame) :
  columns (df_concat d empty_frame) = columns d.
Proof.
  unfold df_concat, columns at 1. cbn [header columns empty_frame fmap list_fmap].
  cbn [List.filter]. rewrite app_nil_r.
  rewrite <- list_fmap_compose. apply list_fmap_id.
Qed.

(** C7. A missing output file reads as the empty dataset, without an
    error; the result holds the rows of [test_results.csv] followed by the
    rows of [odi_results.csv]; when only [odi_results.csv] is missing, the
    result has exactly the columns and the rows of [test_results.csv]. *)
Theorem read_output_data_tolerant (self : DataProcessorTester) (σ : world)
    (test_data odi_data : DataFrame) :
  reads_as σ (path_join (output_dir self) "test_results.csv") test_data →
  reads_as σ (path_join (output_dir self) "odi_results.csv") odi_data →
  ∃ out σ' output_data,
    read_output_data self σ = (Ok out, σ') ∧
    heap σ' !! out = Some output_data ∧
    rows output_data = rows test_data ++ rows odi_data ∧
    (files σ !! path_join (output_dir self) "test_results.csv" = None →
     rows test_data = []) ∧
    (files σ !! path_join (output_dir self) "odi_results.csv" = None →
     rows output_data = rows test_data ∧ columns output_data = columns test_data).
Proof.
  intros Ht Ho. eexists _, _, _.
  split; [by apply read_output_data_run|]. split.
  { cbn [heap]. by rewrite lookup_app_r, Nat.sub_diag. }
  split; [done|]. split.
  - intros Hnone. destruct Ht as [d Hf|]; [congruence | done].
  - intros Hnone. destruct Ho as [d Hf|]; [congruence|].
    split; [apply app_nil_r | apply df_concat_columns_empty].
Qed.

Lemma read_output_data_tolerant_witness :
  ∃ out σ' output_data,
    read_output_data sample_tester output_world = (Ok out, σ') ∧
    heap σ' !! out = Some output_data ∧
    rows output_data = rows actual_sample ∧
    columns output_data = columns actual_sample.
Proof.
  destruct (read_output_data_tolerant sample_tester output_world
              actual_sample empty_frame)
    as (out & σ' & output_data & Hrun & Hout & _ & _ & Hodi).
  - apply reads_file. reflexivity.
  - apply reads_absent. reflexivity.
  - exists out, σ', output_data. split; [done|]. split; [done|].
    apply Hodi. reflexivity.
Defined.

(** ** [validate_output] on an output without names *)

(** C10. When the actual dataset has no [playerName] column,
    [validate_output] raises, whatever the expected dataset (empty or not);
    this is what happens with the frame [read_output_data] returns when both
    output files are absent.  No validation result is produced. *)
Theorem validate_output_raises_without_player_name :
  (∀ (self : DataProcessorTester) (expected_data actual_data : nat) (σ : world)
     (expected actual : DataFrame),
      heap σ !! expected_data = Some expected →
      heap σ !! actual_data = Some actual →
      "playerName" ∉ columns actual →
      ∃ e, validate_output self expected_data actual_data σ = (Raise e, σ))
  ∧ (∀ (self : DataProcessorTester) (expected_data : nat) (σ : world)
       (expected : DataFrame),
      heap σ !! expected_data = Some expected →
      files σ !! path_join (output_dir self) "test_results.csv" = None →
      files σ !! path_join (output_dir self) "odi_results.csv" = None →
      ∃ e σ', (actual_data ← read_output_data self;
               validate_output self expected_data actual_data) σ = (Raise e, σ')).
Proof.
  assert (Hfirst : ∀ (self : DataProcessorTester) (expected_data actual_data : nat)
            (σ : world) (expected actual : DataFrame),
            heap σ !! expected_data = Some expected →
            heap σ !! actual_data = Some actual →
            "playerName" ∉ columns actual →
            ∃ e, validate_output self expected_data actual_data σ = (Raise e, σ)).
  { intros self expected_data actual_data σ expected actual He Ha Hno.
    rewrite (validate_output_run _ _ _ _ _ _ He Ha).
    unfold validate_frames.
    destruct (sorted_expected expected) as [expected_df|e]; [|by exists e].
    cbn [mbind result_bind].
    destruct (sorted_actual actual) as [actual_df|e] eqn:Hsa; [|by exists e].
    by apply sorted_actual_Ok in Hsa as (_ & _ & Hin). }
  split; [exact Hfirst|].
  intros self expected_data σ expected He Ht Ho.
  unfold mbind at 1, M_bind at 1.
  rewrite (read_output_data_run self σ empty_frame empty_frame)
    by (by apply reads_absent).
  destruct (Hfirst self expected_data (length (heap σ))
              (mkWorld (heap σ ++ [df_concat empty_frame empty_frame]) (files σ))
              expected (df_concat empty_frame empty_frame)) as [e Hraise].
  - cbn [heap]. by apply lookup_app_l_Some.
  - cbn [heap]. by rewrite lookup_app_r, Nat.sub_diag.
  - vm_compute. by intros ?%elem_of_nil.
  - eauto.
Qed.

Lemma validate_output_raises_without_player_name_witness :
  ∃ e σ', (actual_data ← read_output_data sample_tester;
           validate_output sample_tester 0 actual_data) no_output_world
          = (Raise e, σ').
Proof.
  apply (proj2 validate_output_raises_without_player_name sample_tester 0%nat
           no_output_world expected_sample); reflexivity.
Defined.

(** ** [validate_schema] *)

Section SchemaFacts.
Context `{NumericParser}.

Lemma check_column_violation (d : DataFrame) (st : bool * list string)
    (item : string * pytype) :
  check_column d st item = Ok (record_violation st (violation d item)).
Proof.
  destruct st as [valid errors], item as [column ty].
  unfold check_column, violation, int_check_fails, str_check_fails.
  cbn [fst snd]. case_bool_decide as Hin; cbn [negb]; [|done].
  apply assoc_is_Some in Hin as [t Ht].
  change (assoc (header d) column) with (column_dtype d column) in Ht.
  rewrite (df_getitem_Some _ _ _ Ht). cbn [mbind result_bind].
  destruct ty.
  - destruct (is_integer_dtype _); cbn [negb andb]; [done|].
    by destruct (to_numeric _ _ _).
  - by destruct (is_string_dtype _).
Qed.

Lemma for_items_check (d : DataFrame) (l : list (string * pytype))
    (st : bool * list string) :
  for_items l (check_column d) st
  = Ok (st.1 && bool_decide (omap (violation d) l = []),
        st.2 ++ omap (violation d) l).
Proof.
  revert st. induction l as [|item l IH]; intros [valid errors].
  - cbn. by rewrite andb_true_r, app_nil_r.
  - cbn [for_items]. rewrite check_column_violation. cbn [mbind result_bind].
    rewrite IH. cbn [omap list_omap]. fold (omap (violation d) l).
    destruct (violation d item) as [m|]; cbn [record_violation fst snd].
    + rewrite andb_false_r, <- (assoc_L (++)). done.
    + done.
Qed.

(** C4. [validate_schema] always returns; the flag is false exactly when
    the error list is not empty; the list holds, in schema order, one
    message for each violating column and nothing else; a missing column
    contributes only its "is missing" message. *)
Theorem validate_schema_reports (data : nat) (σ : world) (d : DataFrame) :
  heap σ !! data = Some d →
  ∃ schema_valid schema_errors,
    validate_schema data σ = (Ok (schema_valid, schema_errors), σ) ∧
    (schema_valid = false ↔ schema_errors ≠ []) ∧
    schema_errors = omap (violation d) expected_schema ∧
    length schema_errors
    = length (List.filter (λ item, bool_decide (is_Some (violation d item)))
                expected_schema) ∧
    ∀ item, item ∈ expected_schema → item.1 ∉ columns d →
            violation d item = Some (missing_message item.1).
Proof.
  intros Hd. eexists _, _. split.
  { unfold validate_schema, read_frame, lift, mbind, M_bind. rewrite Hd.
    unfold check_schema. by rewrite for_items_check. }
  cbn [fst snd andb app]. split; [|split; [done|split]].
  - rewrite bool_decide_eq_false. done.
  - generalize expected_schema. intros l.
    induction l as [|item l IH]; [done|].
    cbn [omap list_omap List.filter]. fold (omap (violation d) l).
    destruct (violation d item) as [m|]; cbn [length].
    + rewrite bool_decide_eq_true_2 by eauto. cbn [length]. by rewrite IH.
    + rewrite bool_decide_eq_false_2 by (by intros [? ?]). done.
  - intros item _ Hno. unfold violation. by rewrite bool_decide_eq_false_2.
Qed.

(** C5, the code at the failing input: ages stored as float64 that are not
    whole numbers pass the integer check, and the schema is reported
    valid without any message. *)
Theorem validate_schema_accepts_fractional_age (σ : world) (data : nat) :
  heap σ !! data = Some fractional_age_output →
  validate_schema data σ = (Ok (true, []), σ) ∧
  column_dtype fractional_age_output "age" = Some float64_ ∧
  (∃ s, df_getitem fractional_age_output "age" = Ok s ∧
        forallb is_integral (s_values s) = false).
Proof.
  intros Hd. split; [|split].
  - unfold validate_schema, read_frame, lift, mbind, M_bind. rewrite Hd.
    vm_compute. reflexivity.
  - reflexivity.
  - eexists. split; [reflexivity|]. vm_compute. reflexivity.
Qed.
End SchemaFacts.

Lemma validate_schema_reports_witness :
  ∃ schema_valid schema_errors,
    validate_schema (H := decimal_parser) 0 (mkWorld [broken_output] ∅)
    = (Ok (schema_valid, schema_errors), mkWorld [broken_output] ∅) ∧
    schema_valid = false ∧
    schema_errors = ["Column 'playerName' should be string type";
                     "Column 'age' should be integer type";
                     "Column 'runs' is missing"].
Proof.
  destruct (validate_schema_reports (H := decimal_parser) 0%nat
              (mkWorld [broken_output] ∅) broken_output)
    as (schema_valid & schema_errors & Hrun & Hiff & -> & _).
  - reflexivity.
  - exists schema_valid. eexists. split; [exact Hrun|].
    split; [|reflexivity]. apply Hiff. vm_compute. discriminate.
Defined.

Lemma validate_schema_accepts_fractional_age_witness :
  validate_schema (H := decimal_parser) 0 (mkWorld [fractional_age_output] ∅)
  = (Ok (true, []), mkWorld [fractional_age_output] ∅).
Proof.
  apply (validate_schema_accepts_fractional_age (H := decimal_parser)
           (mkWorld [fractional_age_output] ∅) 0%nat).
  reflexivity.
Defined.

(** ** [process_data] returns on well-formed input *)

Ltac list_mem :=
  repeat first [apply list_elem_of_here | apply list_elem_of_further].

Lemma mapM_result_Ok {A B} (f : A → result B) (l : list A) :
  (∀ x, x ∈ l → ∃ y, f x = Ok y) → ∃ k, mapM f l = Ok k.
Proof.
  induction l as [|x l IH]; intros Hf; [by exists []|].
  rewrite mapM_result_cons.
  destruct (Hf x) as [y ->]; [by left|].
  destruct IH as [k ->]; [|by eexists].
  intros z Hz. apply Hf. by right.
Qed.

Lemma set_header_names (h : list (string * dtype)) (col : string) (t : dtype) :
  col ∈ h.*1 → (set_header h col t).*1 = h.*1.
Proof.
  intros Hin. unfold set_header. rewrite bool_decide_eq_true_2 by done.
  clear Hin. induction h as [|[c0 t0] h IH]; [done|].
  cbn [map fmap list_fmap]. f_equal; [|exact IH].
  cbn [fst]. case_bool_decide; [by subst | done].
Qed.

Lemma filter_missing_nil (d : DataFrame) (cols : list string) :
  (∀ c, c ∈ cols → c ∈ columns d) →
  List.filter (λ c, negb (bool_decide (c ∈ columns d))) cols = [].
Proof.
  induction cols as [|c cols IH]; intros Hall; simpl; [done|].
  rewrite bool_decide_eq_true_2 by (apply Hall; by left). simpl.
  apply IH. intros c' Hc'. apply Hall. by right.
Qed.

Section ProcessDataReturns.
Context `{NumericParser}.

Lemma coerce_col_columns (d : DataFrame) (col : string) :
  columns (coerce_col d col) = columns d.
Proof.
  unfold coerce_col. destruct (column_dtype d col) as [t|] eqn:Ht; [|done].
  unfold columns. cbn [header]. apply set_header_names.
  apply assoc_is_Some. eauto.
Qed.

Lemma coerce_frame_columns (d : DataFrame) :
  columns (coerce_frame d) = columns d.
Proof.
  unfold coerce_frame, numeric_cols. cbn [foldl]. by rewrite !coerce_col_columns.
Qed.

Lemma coerce_frame_numeric (d : DataFrame) (r' : gmap string cell) (col : string) :
  well_typed d = true → r' ∈ rows (coerce_frame d) →
  col ∈ numeric_cols → col ∈ columns d →
  is_num_cell (row_get r' col) = true.
Proof.
  intros Hwt Hr' Hcol Hin.
  apply list_elem_of_lookup in Hr' as [i Hi].
  assert (is_Some (rows d !! i)) as [r Hr].
  { apply lookup_lt_is_Some. rewrite <- coerce_frame_length.
    by eapply lookup_lt_Some. }
  destruct (coerce_frame_cell d i r Hr) as (r'' & Hi' & Hnum & _).
  rewrite Hi in Hi'. injection Hi' as <-.
  rewrite (Hnum col Hcol). unfold coerce_at.
  apply assoc_is_Some in Hin as [t Ht].
  change (assoc (header d) col) with (column_dtype d col) in Ht. rewrite Ht.
  destruct (is_numeric_dtype t) eqn:Et; [|apply coerce_cell_is_num].
  eapply well_typed_cell; eauto. by eapply list_elem_of_lookup_2.
Qed.

Lemma py_compare_num_Ok (c : cell) (k : Z) :
  is_num_cell c = true → ∃ o, py_compare c (CInt k) = Ok o.
Proof.
  rewrite py_compare_int. unfold is_num_cell.
  destruct (cell_num c); [eauto | done].
Qed.

(** On a frame whose dtypes agree with its cells and that has the three
    numeric columns, [process_data] returns a dataset. *)
Lemma process_data_returns (self : DataProcessorTester) (data : nat) (σ : world)
    (d : DataFrame) :
  heap σ !! data = Some d → well_typed d = true →
  (∀ col, col ∈ numeric_cols → col ∈ columns d) →
  ∃ out σ', process_data self data σ = (Ok out, σ').
Proof.
  intros Hd Hwt Hcols. rewrite (process_data_run self data σ d Hd). cbn zeta.
  assert (df_copy d = d) as -> by (by destruct d).
  set (d1 := coerce_frame d).
  assert (Hcols1 : ∀ col, col ∈ numeric_cols → col ∈ columns d1).
  { intros col Hc. unfold d1. rewrite coerce_frame_columns. by apply Hcols. }
  assert (Hnum1 : ∀ r col, r ∈ rows d1 → col ∈ numeric_cols →
                           is_num_cell (row_get r col) = true).
  { intros r col Hr Hc. eapply coerce_frame_numeric; eauto. }
  destruct (df_dropna d1 ["runs"; "wickets"]) as [d2|e] eqn:E2.
  2:{ unfold df_dropna in E2. rewrite filter_missing_nil in E2; [done|].
      intros c Hc. apply Hcols1. unfold numeric_cols.
      apply elem_of_cons in Hc as [->|Hc]; [list_mem|].
      apply elem_of_cons in Hc as [->|Hc]; [list_mem|].
      by apply elem_of_nil in Hc. }
  pose proof (dropna_header _ _ _ E2) as Hh2.
  assert (Hrows2 : ∀ r, r ∈ rows d2 →
            r ∈ rows d1 ∧ isna (row_get r "runs") = false ∧
            isna (row_get r "wickets") = false).
  { intros r Hr. destruct (dropna_rows _ _ _ _ E2 Hr) as [Hr1 Hna].
    split; [done|]. split; apply Hna; list_mem. }
  destruct (age_mask d2) as [m|e] eqn:Em.
  2:{ exfalso. revert Em. unfold age_mask, df_getitem, column_dtype.
      rewrite Hh2.
      destruct (assoc (header d1) "age") as [t|] eqn:Ht.
      2:{ apply eq_None_not_Some in Ht. destruct Ht. apply assoc_is_Some.
          apply Hcols1. unfold numeric_cols. list_mem. }
      cbn [mbind result_bind]. unfold series_ge, series_le. cbn [s_values].
      destruct (mapM_result_Ok (λ c, py_ge c (CInt 15))
                  (map (λ r, row_get r "age") (rows d2))) as [m1 ->].
      { intros c (r & -> & Hr)%list_elem_of_fmap. unfold py_ge.
        destruct (py_compare_num_Ok (row_get r "age") 15) as [o ->]; [|by eexists].
        apply Hnum1; [by apply Hrows2 | unfold numeric_cols; list_mem]. }
      cbn [mbind result_bind].
      destruct (mapM_result_Ok (λ c, py_le c (CInt 50))
                  (map (λ r, row_get r "age") (rows d2))) as [m2 ->].
      { intros c (r & -> & Hr)%list_elem_of_fmap. unfold py_le.
        destruct (py_compare_num_Ok (row_get r "age") 50) as [o ->]; [|by eexists].
        apply Hnum1; [by apply Hrows2 | unfold numeric_cols; list_mem]. }
      done. }
  destruct (classify_frame (df_mask d2 m)) as [d4|e] eqn:E4; [by eexists _, _|].
  exfalso. revert E4. unfold classify_frame, df_apply.
  destruct (mapM_result_Ok determine_player_type (rows (df_mask d2 m))) as [vs Hvs].
  { intros r Hr. cbn [df_mask rows] in Hr.
    assert (Hr2 : r ∈ rows d2) by (eapply elem_of_sublist; [done | apply select_sublist]).
    destruct (Hrows2 r Hr2) as (Hr1 & Hnr & Hnw).
    assert (Hruns : is_num_cell (row_get r "runs") = true)
      by (apply Hnum1; [done | unfold numeric_cols; list_mem]).
    assert (Hwk : is_num_cell (row_get r "wickets") = true)
      by (apply Hnum1; [done | unfold numeric_cols; list_mem]).
    unfold is_num_cell in Hruns, Hwk.
    destruct (cell_num (row_get r "runs")) as [x|] eqn:Hx; [|done].
    destruct (cell_num (row_get r "wickets")) as [w|] eqn:Hw; [|done].
    destruct (determine_player_type_total r x w Hx Hw) as (k & Hk & _).
    - by eapply cell_num_not_na.
    - by eapply cell_num_not_na.
    - eauto. }
  rewrite Hvs. cbn [mbind result_bind]. unfold df_setitem. cbn [s_values].
  rewrite (mapM_result_length _ _ _ Hvs). by rewrite bool_decide_eq_true_2.
Qed.
End ProcessDataReturns.

(** * Further properties *)

(** ** Paths *)

Lemma string_app_nil (s : string) : ("" ++ s)%string = s.
Proof. reflexivity. Qed.

Lemma string_app_cons (a : ascii) (s t : string) :
  (String a s ++ t)%string = String a (s ++ t)%string.
Proof. reflexivity. Qed.

Lemma string_app_eq_suffix (d1 d2 s1 s2 : string) :
  (d1 ++ s1)%string = (d2 ++ s2)%string →
  (∃ p, s1 = (p ++ s2)%string) ∨ (∃ p, s2 = (p ++ s1)%string).
Proof.
  revert d2. induction d1 as [|a d1 IH]; intros d2.
  - rewrite string_app_nil. intros ->. left. by exists d2.
  - destruct d2 as [|b d2].
    + rewrite string_app_nil. intros <-. right. by exists (String a d1).
    + rewrite !string_app_cons. intros [= _ Heq]. by apply (IH d2).
Qed.

Lemma ends_with_app (p s : string) : ends_with s (p ++ s)%string = true.
Proof.
  induction p as [|a p IH].
  - rewrite string_app_nil. destruct s; cbn [ends_with]; by rewrite bool_decide_eq_true_2.
  - rewrite string_app_cons. cbn [ends_with]. rewrite IH. apply orb_true_r.
Qed.

(** Two paths differ as soon as neither file name ends with the other,
    whatever the directories. *)
Lemma path_join_ne (d1 d2 n1 n2 : string) :
  ends_with ("/" ++ n2) ("/" ++ n1) = false →
  ends_with ("/" ++ n1) ("/" ++ n2) = false →
  path_join d1 n1 ≠ path_join d2 n2.
Proof.
  intros H1 H2 Heq. unfold path_join in Heq.
  apply string_app_eq_suffix in Heq as [[p Hp] | [p Hp]].
  - rewrite Hp, ends_with_app in H1. done.
  - rewrite Hp, ends_with_app in H2. done.
Qed.

(** ** [merge_data] *)

Lemma merge_data_eq (self : DataProcessorTester) (σ : world) :
  merge_data self σ =
  match files σ !! path_join (input_dir self) "players_1990_2000.csv" with
  | Some (Csv c) =>
      match files σ !! path_join (input_dir self) "players_2000_onwards.json" with
      | Some (Csv j) =>
          (Ok (length (heap σ) + 2)%nat,
           mkWorld (heap σ ++ [c; j; df_concat c j])
             (<[merged_path self := Csv (df_concat c j)]> (files σ)))
      | _ =>
          (Raise (FileError (path_join (input_dir self) "players_2000_onwards.json")),
           mkWorld (heap σ ++ [c]) (files σ))
      end
  | _ => (Raise (FileError (path_join (input_dir self) "players_1990_2000.csv")), σ)
  end.
Proof.
  set (n := length (heap σ)).
  assert (Hat : ∀ (k : list DataFrame) i, (heap σ ++ k) !! (n + i)%nat = k !! i).
  { intros k i. rewrite lookup_app_r by (unfold n; lia). f_equal. unfold n. lia. }
  unfold merge_data, read_csv_data, read_json_data.
  unfold mbind at 1, M_bind at 1. unfold mbind at 1, M_bind at 1.
  unfold read_csv at 1.
  destruct (files σ !! path_join (input_dir self) "players_1990_2000.csv")
    as [[c|]|]; [|done..].
  unfold new_frame at 1. fold n. cbn [heap files].
  unfold mbind at 1, M_bind at 1. unfold mbind at 1, M_bind at 1.
  unfold load_json_frame at 1. cbn [heap files].
  destruct (files σ !! path_join (input_dir self) "players_2000_onwards.json")
    as [[j|]|]; [|done..].
  unfold new_frame at 1. cbn [heap files].
  rewrite length_app. cbn [length]. fold n.
  rewrite <- (assoc_L (++)). cbn [app].
  unfold mbind at 1, M_bind at 1.
  unfold ref_concat, read_frame, new_frame.
  unfold mbind at 1, M_bind at 1. cbn [heap files].
  rewrite <- (Nat.add_0_r n) at 1. rewrite Hat. cbn [lookup list_lookup].
  unfold mbind at 1, M_bind at 1. cbn [heap files].
  rewrite Hat. cbn [lookup list_lookup]. cbn [heap files].
  rewrite length_app. cbn [length]. fold n.
  rewrite <- (assoc_L (++)). cbn [app].
  unfold mbind at 1, M_bind at 1.
  unfold ref_to_csv, read_frame, write_file.
  unfold mbind at 1, M_bind at 1. cbn [heap files].
  rewrite Hat. cbn [lookup list_lookup heap files]. unfold mret, M_ret. done.
Qed.

Lemma df_concat_columns (a b : DataFrame) :
  columns (df_concat a b)
  = columns a ++ List.filter (λ c, negb (bool_decide (c ∈ columns a))) (columns b).
Proof.
  unfold df_concat, columns at 1. cbn [header].
  rewrite <- list_fmap_compose. apply list_fmap_id.
Qed.

(** X1. With both input files readable, [merge_data] returns a new frame
    whose records are the CSV records followed by the JSON records (nothing
    dropped, merged or reordered) and whose columns are those of the CSV
    file followed by the columns only the JSON file has; the same frame is
    what it writes to [merged_data.csv], and it writes nothing else. *)
Theorem merge_data_concatenates (self : DataProcessorTester) (σ : world)
    (c j : DataFrame) :
  files σ !! path_join (input_dir self) "players_1990_2000.csv" = Some (Csv c) →
  files σ !! path_join (input_dir self) "players_2000_onwards.json" = Some (Csv j) →
  ∃ out σ' merged,
    merge_data self σ = (Ok out, σ') ∧
    heap σ' !! out = Some merged ∧
    rows merged = rows c ++ rows j ∧
    columns merged
    = columns c ++ List.filter (λ col, negb (bool_decide (col ∈ columns c))) (columns j) ∧
    files σ' = <[merged_path self := Csv merged]> (files σ) ∧
    (∀ l d, heap σ !! l = Some d → heap σ' !! l = Some d).
Proof.
  intros Hc Hj. eexists _, _, (df_concat c j).
  split; [by rewrite merge_data_eq, Hc, Hj|].
  cbn [heap files]. split.
  { rewrite lookup_app_r by lia.
    by replace (length (heap σ) + 2 - length (heap σ))%nat with 2%nat by lia. }
  split; [done|]. split; [apply df_concat_columns|]. split; [done|].
  intros l d Hl. by apply lookup_app_l_Some.
Qed.

Lemma merge_data_concatenates_witness :
  ∃ out σ' merged,
    merge_data sample_tester input_world = (Ok out, σ') ∧
    heap σ' !! out = Some merged ∧
    rows merged = rows csv_sample ++ rows json_sample ∧
    columns merged = columns csv_sample.
Proof.
  destruct (merge_data_concatenates sample_tester input_world csv_sample json_sample)
    as (out & σ' & merged & Hrun & Hout & Hrows & Hcols & _).
  - reflexivity.
  - reflexivity.
  - exists out, σ', merged. repeat (split; [done|]).
    rewrite Hcols. vm_compute. reflexivity.
Defined.



(** X3. Running [merge_data] again after a successful run succeeds, returns
    a frame equal to the first one and leaves the file system, snapshot
    included, exactly as the first run left it. *)
Theorem merge_data_idempotent (self : DataProcessorTester) (σ σ1 : world) (out1 : nat) :
  merge_data self σ = (Ok out1, σ1) →
  ∃ out2 σ2,
    merge_data self σ1 = (Ok out2, σ2) ∧
    files σ2 = files σ1 ∧
    heap σ2 !! out2 = heap σ1 !! out1 ∧
    is_Some (heap σ1 !! out1).
Proof.
  rewrite merge_data_eq.
  destruct (files σ !! path_join (input_dir self) "players_1990_2000.csv")
    as [[c|]|] eqn:Hc; [|done..].
  destruct (files σ !! path_join (input_dir self) "players_2000_onwards.json")
    as [[j|]|] eqn:Hj; [|done..].
  intros [= <- <-]. rewrite merge_data_eq. cbn [heap files].
  rewrite lookup_insert_ne by (by apply path_join_ne).
  rewrite Hc.
  rewrite lookup_insert_ne by (by apply path_join_ne).
  rewrite Hj.
  eexists _, _. split; [done|]. cbn [heap files].
  split; [by rewrite insert_insert_eq|].
  rewrite !lookup_app_r by (rewrite ?length_app; simpl; lia).
  rewrite !length_app. cbn [length].
  replace (length (heap σ) + 3 + 2 - (length (heap σ) + 3))%nat with 2%nat by lia.
  replace (length (heap σ) + 2 - length (heap σ))%nat with 2%nat by lia.
  split; [done | by eexists].
Qed.

Lemma merge_data_idempotent_witness :
  ∃ out2 σ2,
    merge_data sample_tester (merge_data sample_tester input_world).2 = (Ok out2, σ2) ∧
    files σ2 = files (merge_data sample_tester input_world).2.
Proof.
  destruct (merge_data_idempotent sample_tester input_world
              (merge_data sample_tester input_world).2 2%nat)
    as (out2 & σ2 & Hrun & Hfiles & _).
  - vm_compute. reflexivity.
  - by exists out2, σ2.
Defined.

(** ** More on [process_data] *)

Lemma filter_filter_andb {A} (p q : A → bool) (l : list A) :
  List.filter q (List.filter p l) = List.filter (λ x, p x && q x) l.
Proof.
  induction l as [|x l IH]; simpl; [done|].
  destruct (p x); simpl; [|done]. destruct (q x); by rewrite IH.
Qed.

Lemma select_range_filter {A} (f : A → cell) (l : list A) (m1 m2 : list bool) :
  mapM (λ c, py_ge c (CInt 15)) (map f l) = Ok m1 →
  mapM (λ c, py_le c (CInt 50)) (map f l) = Ok m2 →
  select l (mask_and m1 m2) = List.filter (λ r, in_age_range (f r)) l.
Proof.
  revert m1 m2. induction l as [|x l IH]; intros m1 m2.
  - by intros [= <-] [= <-].
  - cbn [map]. rewrite !mapM_result_cons.
    destruct (py_ge (f x) (CInt 15)) as [b1|] eqn:E1; [|done].
    destruct (mapM _ (map f l)) as [k1|] eqn:Ek1; [|done].
    intros [= <-].
    destruct (py_le (f x) (CInt 50)) as [b2|] eqn:E2; [|done].
    destruct (mapM (λ c, py_le c (CInt 50)) (map f l)) as [k2|] eqn:Ek2; [|done].
    intros [= <-]. cbn [mask_and zip_with select List.filter].
    unfold in_age_range. rewrite E1, E2.
    fold (mask_and k1 k2). rewrite (IH k1 k2) by done.
    by destruct b1, b2.
Qed.

Lemma age_mask_filter (d : DataFrame) (m : list bool) :
  age_mask d = Ok m →
  select (rows d) m = List.filter (λ r, in_age_range (row_get r "age")) (rows d).
Proof.
  unfold age_mask, df_getitem.
  destruct (column_dtype d "age") as [t|]; [|done]. cbn [mbind result_bind].
  unfold series_ge, series_le. cbn [s_values].
  destruct (mapM (λ c, py_ge c (CInt 15)) _) as [m1|] eqn:E1; [|done].
  cbn [mbind result_bind].
  destruct (mapM (λ c, py_le c (CInt 50)) _) as [m2|] eqn:E2; [|done].
  cbn [mbind result_bind]. intros [= <-].
  by apply (select_range_filter (λ r, row_get r "age")).
Qed.

Lemma dropna_filter (d d' : DataFrame) (subset : list string) :
  df_dropna d subset = Ok d' →
  header d' = header d ∧
  rows d' = List.filter (λ r, forallb (λ c, negb (isna (row_get r c))) subset) (rows d).
Proof.
  unfold df_dropna. destruct (List.filter _ subset); [|done]. by intros [= <-].
Qed.

Lemma classify_frame_Ok (d d' : DataFrame) :
  classify_frame d = Ok d' →
  ∃ vs, mapM determine_player_type (rows d) = Ok vs ∧
        header d' = set_header (header d) "playerType"
                      (match vs with [] => float64_ | _ => object_ end) ∧
        rows d' = zip_with (λ r v, <["playerType" := v]> r) (rows d) vs.
Proof.
  unfold classify_frame, df_apply.
  destruct (mapM determine_player_type (rows d)) as [vs|] eqn:E; [|done].
  cbn [mbind result_bind]. unfold df_setitem. cbn [s_values s_dtype].
  case_bool_decide; [|done]. intros [= <-]. by exists vs.
Qed.

Lemma mapM_zip_Forall2 (l : list (gmap string cell)) (vs : list cell) :
  mapM determine_player_type l = Ok vs →
  Forall2 (λ r' r, ∃ v, determine_player_type r = Ok v ∧ r' = <["playerType" := v]> r)
    (zip_with (λ r v, <["playerType" := v]> r) l vs) l.
Proof.
  revert vs. induction l as [|r l IH]; intros vs.
  - intros [= <-]. constructor.
  - rewrite mapM_result_cons.
    destruct (determine_player_type r) as [v|] eqn:Ev; [|done].
    destruct (mapM determine_player_type l) as [k|] eqn:Ek; [|done].
    intros [= <-]. cbn [zip_with]. constructor; [eauto | by apply IH].
Qed.

Lemma set_header_names_new (h : list (string * dtype)) (col : string) (t : dtype) :
  col ∉ h.*1 → (set_header h col t).*1 = h.*1 ++ [col].
Proof.
  intros Hin. unfold set_header. rewrite bool_decide_eq_false_2 by done.
  by rewrite fmap_app.
Qed.

Section ProcessDataMore.
Context `{NumericParser}.

(** The outcome of a successful run, stage by stage. *)
Lemma process_data_Ok (self : DataProcessorTester) (data out : nat) (σ σ' : world)
    (d : DataFrame) :
  heap σ !! data = Some d →
  process_data self data σ = (Ok out, σ') →
  ∃ d2 m d4,
    df_dropna (coerce_frame d) ["runs"; "wickets"] = Ok d2 ∧
    age_mask d2 = Ok m ∧
    classify_frame (df_mask d2 m) = Ok d4 ∧
    heap σ' !! out = Some d4 ∧
    files σ' = <[processed_path self := Csv d4]> (files σ).
Proof.
  intros Hd Hrun. rewrite (process_data_run self data σ d Hd) in Hrun.
  cbn zeta in Hrun. assert (df_copy d = d) as Hcopy by (by destruct d).
  rewrite Hcopy in Hrun.
  destruct (df_dropna _ _) as [d2|] eqn:E2; [|done].
  destruct (age_mask d2) as [m|] eqn:Em; [|done].
  destruct (classify_frame _) as [d4|] eqn:E4; [|done].
  injection Hrun as <- <-. exists d2, m, d4. repeat (split; [done|]).
  cbn [heap files]. split; [|done].
  rewrite lookup_app_r by lia.
  by replace (length (heap σ) + 2 - length (heap σ))%nat with 2%nat by lia.
Qed.

(** X4. The records [process_data] returns are exactly the coerced input
    records that have runs and wickets and an age from 15 to 50, in the
    order of the input, each with its [playerType] added: no record is
    invented, duplicated or reordered, and no record that qualifies is
    dropped. *)
Theorem process_data_keeps_exactly (self : DataProcessorTester) (data out : nat)
    (σ σ' : world) (d : DataFrame) :
  heap σ !! data = Some d →
  process_data self data σ = (Ok out, σ') →
  ∃ d', heap σ' !! out = Some d' ∧
    Forall2 (λ r' r, ∃ v, determine_player_type r = Ok v ∧ r' = <["playerType" := v]> r)
      (rows d') (List.filter kept (rows (coerce_frame d))) ∧
    (length (rows d') ≤ length (rows d))%nat.
Proof.
  intros Hd Hrun.
  destruct (process_data_Ok _ _ _ _ _ _ Hd Hrun) as (d2 & m & d4 & E2 & Em & E4 & Hout & _).
  exists d4. split; [done|].
  apply dropna_filter in E2 as [_ Hrows2].
  pose proof (age_mask_filter _ _ Em) as Hsel.
  apply classify_frame_Ok in E4 as (vs & Hvs & _ & Hrows4).
  cbn [df_mask rows] in Hvs, Hrows4. rewrite Hsel in Hvs, Hrows4.
  rewrite Hrows2, filter_filter_andb in Hvs, Hrows4.
  assert (Hkept : List.filter
                    (λ x, forallb (λ c, negb (isna (row_get x c))) ["runs"; "wickets"]
                          && in_age_range (row_get x "age")) (rows (coerce_frame d))
                  = List.filter kept (rows (coerce_frame d))).
  { apply filter_ext. intros r. unfold kept. cbn [forallb].
    by rewrite andb_true_r. }
  rewrite Hkept in Hvs, Hrows4. rewrite Hrows4.
  split; [by apply mapM_zip_Forall2|].
  rewrite length_zip_with. rewrite (mapM_result_length _ _ _ Hvs).
  rewrite Nat.min_id. rewrite <- (coerce_frame_length d).
  apply filter_length_le.
Qed.

(** X5. The frame [process_data] returns has the columns of its input in
    the same order, with [playerType] appended at the end unless the input
    already had a column of that name. *)
Theorem process_data_columns (self : DataProcessorTester) (data out : nat)
    (σ σ' : world) (d : DataFrame) :
  heap σ !! data = Some d →
  process_data self data σ = (Ok out, σ') →
  ∃ d', heap σ' !! out = Some d' ∧
    columns d' = if bool_decide ("playerType" ∈ columns d) then columns d
                 else columns d ++ ["playerType"].
Proof.
  intros Hd Hrun.
  destruct (process_data_Ok _ _ _ _ _ _ Hd Hrun) as (d2 & m & d4 & E2 & Em & E4 & Hout & _).
  exists d4. split; [done|].
  apply dropna_filter in E2 as [Hh2 _].
  apply classify_frame_Ok in E4 as (vs & _ & Hh4 & _).
  cbn [df_mask header] in Hh4.
  assert (Hcols : (header d2).*1 = columns d).
  { rewrite Hh2. apply coerce_frame_columns. }
  unfold columns at 1. rewrite Hh4. case_bool_decide as Hin.
  - rewrite set_header_names; [done | by rewrite Hcols].
  - rewrite set_header_names_new; [by rewrite Hcols | by rewrite Hcols].
Qed.

(** X6. [process_data] writes the frame it returns, and only that, to
    [processed_data.csv]; when it raises, the file system is unchanged. *)
Theorem process_data_snapshot (self : DataProcessorTester) (data : nat) (σ σ' : world)
    (res : result nat) :
  process_data self data σ = (res, σ') →
  match res with
  | Ok out => ∃ d', heap σ' !! out = Some d' ∧
                    files σ' = <[processed_path self := Csv d']> (files σ)
  | Raise _ => files σ' = files σ
  end.
Proof.
  intros Hrun. destruct (heap σ !! data) as [d|] eqn:Hd.
  - destruct res as [out|e].
    + destruct (process_data_Ok _ _ _ _ _ _ Hd Hrun) as (d2 & m & d4 & _ & _ & _ & Hout & Hf).
      by exists d4.
    + rewrite (process_data_run self data σ d Hd) in Hrun. cbn zeta in Hrun.
      destruct (df_dropna _ _) as [d2|]; [|by injection Hrun as _ <-].
      destruct (age_mask d2) as [m|]; [|by injection Hrun as _ <-].
      destruct (classify_frame _) as [d4|]; [done | by injection Hrun as _ <-].
  - unfold process_data, ref_copy, read_frame in Hrun.
    unfold mbind at 1, M_bind at 1 in Hrun. unfold mbind at 1, M_bind at 1 in Hrun.
    rewrite Hd in Hrun. by injection Hrun as <- <-.
Qed.

End ProcessDataMore.

Lemma process_data_keeps_exactly_witness :
  ∃ d', heap (process_data (H := decimal_parser) sample_tester 0 sample_world).2
          !! 3%nat = Some d' ∧
        map (λ r, row_get r "playerName") (rows d') = [CStr "Kapil"; CStr "Wasim"].
Proof.
  destruct (process_data_keeps_exactly (H := decimal_parser) sample_tester 0%nat 3%nat
              sample_world
              (process_data (H := decimal_parser) sample_tester 0 sample_world).2
              merged_sample)
    as (d' & Hout & _ & _).
  - reflexivity.
  - vm_compute. reflexivity.
  - exists d'. split; [done|].
    revert Hout. vm_compute. intros [= <-]. reflexivity.
Defined.

Lemma process_data_columns_witness :
  ∃ d', heap (process_data (H := decimal_parser) sample_tester 0 sample_world).2
          !! 3%nat = Some d' ∧
        columns d' = columns merged_sample ++ ["playerType"].
Proof.
  destruct (process_data_columns (H := decimal_parser) sample_tester 0%nat 3%nat
              sample_world
              (process_data (H := decimal_parser) sample_tester 0 sample_world).2
              merged_sample)
    as (d' & Hout & Hcols).
  - reflexivity.
  - vm_compute. reflexivity.
  - exists d'. split; [done|]. rewrite Hcols. reflexivity.
Defined.

Lemma process_data_snapshot_witness :
  ∃ d', heap (process_data (H := decimal_parser) sample_tester 0 sample_world).2
          !! 3%nat = Some d' ∧
        files (process_data (H := decimal_parser) sample_tester 0 sample_world).2
        = <[processed_path sample_tester := Csv d']> (files sample_world).
Proof.
  apply (process_data_snapshot (H := decimal_parser) sample_tester 0%nat sample_world
           _ (Ok 3%nat)).
  vm_compute. reflexivity.
Defined.


(** ** More on [validate_output] *)

Lemma validate_frames_Ok (expected actual res : DataFrame) :
  validate_frames expected actual = Ok res →
  ∃ expected_df actual_df,
    sorted_expected expected = Ok expected_df ∧
    sorted_actual actual = Ok actual_df ∧
    header res = set_header (header expected_df) "Result" object_ ∧
    rows res = map (verdict_row actual_df) (rows expected_df).
Proof.
  unfold validate_frames.
  destruct (sorted_expected expected) as [expected_df|]; [|done].
  cbn [mbind result_bind].
  destruct (sorted_actual actual) as [actual_df|]; [|done].
  cbn [mbind result_bind].
  destruct (df_setitem_scalar _ _ _) as [e2|] eqn:He2; [|done].
  cbn [mbind result_bind]. intros Hcmp.
  exists expected_df, actual_df. split; [done|]. split; [done|].
  apply compare_rows_all in Hcmp as (Hh & Hok & ->).
  revert He2. unfold df_setitem_scalar, df_setitem. cbn [s_values s_dtype].
  case_bool_decide; [|done]. intros [= <-]. cbn [rows header] in *.
  split; [done|].
  assert (Hz : zip_with (λ r v, <["Result" := v]> r) (rows expected_df)
                 (replicate (length (rows expected_df)) (CStr "PASS"))
               = map (λ r, <["Result" := CStr "PASS"]> r) (rows expected_df)).
  { generalize (rows expected_df). intros l.
    induction l as [|r l IH]; simpl; [done|]. by rewrite IH. }
  rewrite Hz in *. rewrite map_map. apply map_ext_in.
  intros er Her.
  destruct (Hok (<["Result" := CStr "PASS"]> er)) as [b Hb].
  { apply list_elem_of_fmap. exists er. split; [done|]. by apply list_elem_of_In. }
  by eapply mark_verdict_row.
Qed.

Lemma verdict_cases (actual_df : DataFrame) (er : gmap string cell) :
  verdict actual_df er = "PASS" ∨ verdict actual_df er = "FAIL".
Proof.
  unfold verdict. destruct (first_match _ _) as [ar|]; [|by right].
  destruct (fields_equal er ar); [by left | by right].
Qed.

Lemma count_result_verdicts (actual_df : DataFrame) (h : list (string * dtype))
    (l : list (gmap string cell)) :
  (pass_count (mkDataFrame h (map (verdict_row actual_df) l))
   + fail_count (mkDataFrame h (map (verdict_row actual_df) l)) = length l)%nat.
Proof.
  unfold pass_count, fail_count, count_result. cbn [rows].
  assert (Hpp : series_eq (CStr "PASS") (CStr "PASS") = true) by reflexivity.
  assert (Hpf : series_eq (CStr "PASS") (CStr "FAIL") = false) by reflexivity.
  assert (Hfp : series_eq (CStr "FAIL") (CStr "PASS") = false) by reflexivity.
  assert (Hff : series_eq (CStr "FAIL") (CStr "FAIL") = true) by reflexivity.
  assert (Hres : ∀ er, row_get (verdict_row actual_df er) "Result"
                       = CStr (verdict actual_df er))
    by (intros; apply row_get_insert_eq).
  induction l as [|er l IH]; [done|]. cbn [map List.filter].
  rewrite !Hres.
  destruct (verdict_cases actual_df er) as [-> | ->].
  - rewrite Hpp, Hpf. cbn [length]. lia.
  - rewrite Hfp, Hff. cbn [length]. lia.
Qed.

(** X8. The validation result has the six projected columns followed by
    [Result], one record per expected record, every verdict is PASS or FAIL,
    and the PASS and FAIL counts of the summary add up to the number of
    expected records. *)
Theorem validate_output_report_shape (self : DataProcessorTester)
    (expected_data actual_data out : nat) (σ σ' : world)
    (expected actual : DataFrame) :
  heap σ !! expected_data = Some expected →
  heap σ !! actual_data = Some actual →
  validate_output self expected_data actual_data σ = (Ok out, σ') →
  ∃ res, heap σ' !! out = Some res ∧
    columns res = expected_cols ++ ["Result"] ∧
    length (rows res) = length (rows expected) ∧
    (∀ r, r ∈ rows res →
          row_get r "Result" = CStr "PASS" ∨ row_get r "Result" = CStr "FAIL") ∧
    (pass_count res + fail_count res = length (rows expected))%nat.
Proof.
  intros He Ha Hrun. rewrite (validate_output_run _ _ _ _ _ _ He Ha) in Hrun.
  destruct (validate_frames expected actual) as [res|] eqn:Hres; [|done].
  injection Hrun as <- <-. exists res. split.
  { cbn [heap]. by rewrite lookup_app_r, Nat.sub_diag. }
  apply validate_frames_Ok in Hres
    as (expected_df & actual_df & Hse & Hsa & Hh & Hrows).
  apply sorted_expected_Ok in Hse as [Hcols Hperm].
  assert (Hlen : length (rows expected_df) = length (rows expected)).
  { rewrite Hperm. apply length_map. }
  split; [|split; [|split]].
  - unfold columns at 1. rewrite Hh. rewrite set_header_names_new.
    + by rewrite <- Hcols.
    + fold (columns expected_df). rewrite Hcols. unfold expected_cols.
      intros Hin. repeat (apply elem_of_cons in Hin as [Hin|Hin]; [discriminate|]).
      by apply elem_of_nil in Hin.
  - by rewrite Hrows, length_map.
  - intros r Hr. rewrite Hrows in Hr.
    apply list_elem_of_fmap in Hr as (er & -> & _).
    unfold verdict_row. rewrite row_get_insert_eq.
    destruct (verdict_cases actual_df er) as [-> | ->]; [by left | by right].
  - destruct res as [h rs]. cbn [rows] in Hrows. subst rs.
    rewrite count_result_verdicts. done.
Qed.

Lemma validate_output_report_shape_witness :
  ∃ res, heap (validate_output sample_tester 0 1 validation_world).2 !! 2%nat
         = Some res ∧
    columns res = expected_cols ++ ["Result"] ∧
    (pass_count res + fail_count res = 3)%nat.
Proof.
  destruct (validate_output_report_shape sample_tester 0%nat 1%nat 2%nat
              validation_world (validate_output sample_tester 0 1 validation_world).2
              expected_sample actual_sample)
    as (res & Hout & Hcols & _ & _ & Hcount).
  - reflexivity.
  - reflexivity.
  - vm_compute. reflexivity.
  - exists res. split; [exact Hout|]. split; [exact Hcols | exact Hcount].
Defined.

(** X9. [validate_output] changes no frame that existed before the call
    (its two arguments included); when it returns, the result is a new
    frame and the only file written is [test_result.csv], holding that
    frame; when it raises, nothing at all has changed. *)
Theorem validate_output_frame (self : DataProcessorTester)
    (expected_data actual_data : nat) (σ σ' : world) (r : result nat) :
  validate_output self expected_data actual_data σ = (r, σ') →
  (∀ l d, heap σ !! l = Some d → heap σ' !! l = Some d) ∧
  match r with
  | Ok out => ∃ res, out = length (heap σ) ∧ heap σ' !! out = Some res ∧
                     files σ' = <[result_path self := Csv res]> (files σ)
  | Raise _ => σ' = σ
  end.
Proof.
  intros Hrun.
  destruct (heap σ !! expected_data) as [expected|] eqn:He.
  2:{ unfold validate_output, read_frame in Hrun.
      unfold mbind at 1, M_bind at 1 in Hrun. rewrite He in Hrun.
      by injection Hrun as <- <-. }
  destruct (heap σ !! actual_data) as [actual|] eqn:Ha.
  2:{ unfold validate_output, read_frame in Hrun.
      unfold mbind at 1, M_bind at 1 in Hrun. rewrite He in Hrun.
      unfold mbind at 1, M_bind at 1 in Hrun. rewrite Ha in Hrun.
      by injection Hrun as <- <-. }
  rewrite (validate_output_run _ _ _ _ _ _ He Ha) in Hrun.
  destruct (validate_frames expected actual) as [res|]; injection Hrun as <- <-.
  - cbn [heap files]. split; [intros l d Hl; by apply lookup_app_l_Some|].
    exists res. split; [done|]. split; [|done].
    by rewrite lookup_app_r, Nat.sub_diag.
  - done.
Qed.

Lemma validate_output_frame_witness :
  heap (validate_output sample_tester 0 1 validation_world).2 !! 0%nat
  = Some expected_sample ∧
  heap (validate_output sample_tester 0 1 validation_world).2 !! 1%nat
  = Some actual_sample.
Proof.
  destruct (validate_output_frame sample_tester 0%nat 1%nat validation_world
              (validate_output sample_tester 0 1 validation_world).2
              (validate_output sample_tester 0 1 validation_world).1)
    as [Hkeep _].
  - by destruct (validate_output sample_tester 0 1 validation_world).
  - split; apply Hkeep; reflexivity.
Defined.



(** ** When [validate_output] returns, and a dataset against itself *)

Lemma float_compare_refl (x : float64) :
  float_isnan x = false → float_compare x x = Some Eq.
Proof.
  destruct x as [|[]|q]; simpl; try done. intros _. f_equal.
  apply Qeq_alt. reflexivity.
Qed.

Lemma py_eq_refl (c : cell) : isna c = false → py_eq c c = true.
Proof.
  destruct c as [z|f|b|s|]; cbn [py_eq cell_num isna]; try done.
  - intros _. by rewrite (float_compare_refl (float_of_Z z)).
  - intros Hf. by rewrite float_compare_refl.
  - intros _. by destruct b.
  - intros _. by rewrite bool_decide_eq_true_2.
Qed.

Lemma nargsort_returns (keys : list cell) :
  (∀ c, c ∈ keys → text_or_missing c = true) → ∃ indexer, nargsort keys = Ok indexer.
Proof.
  intros Hkeys. unfold nargsort.
  set (non_nans := map _ _).
  assert (sortable non_nans = true) as ->; [|by eexists].
  unfold sortable. apply orb_true_iff. left. apply forallb_forall.
  intros c Hc. unfold non_nans in Hc. apply in_map_iff in Hc as (i & <- & Hi).
  apply filter_In in Hi as [Hi Hna]. apply in_seq in Hi.
  assert (nth i keys CNone ∈ keys) as Hin.
  { apply list_elem_of_In, nth_In. lia. }
  specialize (Hkeys _ Hin). unfold text_or_missing in Hkeys.
  apply negb_true_iff in Hna. rewrite Hna, orb_false_r in Hkeys. done.
Qed.

Lemma df_sort_values_returns (d : DataFrame) (by_ : string) :
  by_ ∈ columns d →
  (∀ r, r ∈ rows d → text_or_missing (row_get r by_) = true) →
  ∃ d', df_sort_values d by_ = Ok d'.
Proof.
  intros Hin Hkeys. unfold df_sort_values, df_getitem.
  apply assoc_is_Some in Hin as [t Ht].
  change (assoc (header d) by_) with (column_dtype d by_) in Ht. rewrite Ht.
  cbn [mbind result_bind s_values].
  destruct (nargsort_returns (map (λ r, row_get r by_) (rows d))) as [indexer ->].
  - intros c (r & -> & Hr)%list_elem_of_fmap. by apply Hkeys.
  - by eexists.
Qed.

Lemma df_select_returns (d : DataFrame) (cols : list string) :
  (∀ c, c ∈ cols → c ∈ columns d) →
  ∃ d', df_select d cols = Ok d' ∧ columns d' = cols ∧
        rows d' = map (restrict cols) (rows d).
Proof.
  intros Hcols. unfold df_select. rewrite filter_missing_nil by done.
  eexists. split; [done|]. split; [|done].
  unfold columns. cbn [header]. rewrite <- list_fmap_compose. apply list_fmap_id.
Qed.

Lemma sorted_frame_returns (d : DataFrame) (cols : list string) :
  (∀ c, c ∈ cols → c ∈ columns d) → "playerName" ∈ cols →
  (∀ r, r ∈ rows d → text_or_missing (row_get r "playerName") = true) →
  ∃ d', (a1 ← df_select d cols; df_sort_values a1 "playerName") = Ok d'.
Proof.
  intros Hcols Hname Hkeys.
  destruct (df_select_returns d cols Hcols) as (a1 & -> & Hc1 & Hr1).
  cbn [mbind result_bind]. apply df_sort_values_returns.
  - by rewrite Hc1.
  - intros r Hr. rewrite Hr1 in Hr. apply list_elem_of_fmap in Hr as (r0 & -> & Hr0).
    rewrite restrict_row_get by done. by apply Hkeys.
Qed.

Lemma fields_differ_returns (cols : list string) (actual_df : DataFrame)
    (er ar : gmap string cell) :
  (∀ c, c ∈ cols → c ∈ columns actual_df) →
  ∃ b, fields_differ cols actual_df er ar = Ok b.
Proof.
  induction cols as [|c cols IH]; intros Hcols; [by eexists|].
  cbn [fields_differ]. unfold series_item.
  rewrite bool_decide_eq_true_2 by (apply Hcols; by left).
  cbn [mbind result_bind]. destruct (py_ne _ _); [by eexists|].
  apply IH. intros c' Hc'. apply Hcols. by right.
Qed.

Lemma row_fails_returns (actual_df : DataFrame) (er : gmap string cell) :
  (∀ c, c ∈ expected_cols → c ∈ columns actual_df) →
  ∃ b, row_fails actual_df er = Ok b.
Proof.
  intros Hcols. unfold row_fails, matching_rows, df_getitem.
  assert ("playerName" ∈ columns actual_df) as Hin
    by (apply Hcols; unfold expected_cols; list_mem).
  apply assoc_is_Some in Hin as [t Ht].
  change (assoc (header actual_df) "playerName")
    with (column_dtype actual_df "playerName") in Ht. rewrite Ht.
  cbn [mbind result_bind]. destruct (select _ _) as [|ar l]; [by eexists|].
  by apply fields_differ_returns.
Qed.

Lemma compare_rows_returns (actual_df : DataFrame) (todo : list (gmap string cell))
    (i : nat) (df : DataFrame) :
  (∀ c, c ∈ expected_cols → c ∈ columns actual_df) →
  ∃ res, compare_rows actual_df i todo df = Ok res.
Proof.
  intros Hcols. revert i df. induction todo as [|er todo IH]; intros i df.
  - by eexists.
  - rewrite compare_rows_cons.
    destruct (row_fails_returns actual_df er Hcols) as [b ->]. apply IH.
Qed.

Lemma validate_frames_returns (expected actual : DataFrame) :
  (∀ c, c ∈ expected_cols → c ∈ columns expected) →
  (∀ c, c ∈ expected_cols → c ∈ columns actual) →
  (∀ r, r ∈ rows expected → text_or_missing (row_get r "playerName") = true) →
  (∀ r, r ∈ rows actual → text_or_missing (row_get r "playerName") = true) →
  ∃ res, validate_frames expected actual = Ok res.
Proof.
  intros Hce Hca Hke Hka. unfold validate_frames, sorted_expected, sorted_actual.
  destruct (sorted_frame_returns expected expected_cols Hce) as [expected_df Hse];
    [unfold expected_cols; list_mem | done |].
  rewrite Hse. cbn [mbind result_bind].
  destruct (sorted_frame_returns actual (columns actual)) as [actual_df Hsa];
    [done | apply Hca; unfold expected_cols; list_mem | done |].
  rewrite Hsa. cbn [mbind result_bind].
  unfold df_setitem_scalar, df_setitem. cbn [s_values].
  rewrite length_replicate, bool_decide_eq_true_2 by done.
  cbn [mbind result_bind]. apply compare_rows_returns.
  intros c Hc. fold (sorted_actual actual) in Hsa.
  apply sorted_actual_Ok in Hsa as (-> & _ & _). by apply Hca.
Qed.

(** X11. [validate_output] returns a validation result, instead of raising,
    whenever both frames have the six projected columns and every
    [playerName] in them is text or missing. *)
Theorem validate_output_returns (self : DataProcessorTester)
    (expected_data actual_data : nat) (σ : world) (expected actual : DataFrame) :
  heap σ !! expected_data = Some expected →
  heap σ !! actual_data = Some actual →
  (∀ c, c ∈ expected_cols → c ∈ columns expected) →
  (∀ c, c ∈ expected_cols → c ∈ columns actual) →
  (∀ r, r ∈ rows expected → text_or_missing (row_get r "playerName") = true) →
  (∀ r, r ∈ rows actual → text_or_missing (row_get r "playerName") = true) →
  ∃ out σ', validate_output self expected_data actual_data σ = (Ok out, σ').
Proof.
  intros He Ha Hce Hca Hke Hka. rewrite (validate_output_run _ _ _ _ _ _ He Ha).
  destruct (validate_frames_returns expected actual Hce Hca Hke Hka) as [res ->].
  by eexists _, _.
Qed.

Lemma validate_output_returns_witness :
  ∃ out σ', validate_output sample_tester 0 1 validation_world = (Ok out, σ').
Proof.
  apply (validate_output_returns sample_tester 0%nat 1%nat validation_world
           expected_sample actual_sample).
  - reflexivity.
  - reflexivity.
  - intros c Hc. unfold expected_cols in Hc. vm_compute.
    repeat (apply elem_of_cons in Hc as [->|Hc]; [list_mem|]).
    by apply elem_of_nil in Hc.
  - intros c Hc. unfold expected_cols in Hc. vm_compute.
    repeat (apply elem_of_cons in Hc as [->|Hc]; [list_mem|]).
    by apply elem_of_nil in Hc.
  - intros r Hr. unfold expected_sample in Hr. cbn [rows] in Hr.
    repeat (apply elem_of_cons in Hr as [->|Hr]; [reflexivity|]).
    by apply elem_of_nil in Hr.
  - intros r Hr. unfold actual_sample in Hr. cbn [rows] in Hr.
    repeat (apply elem_of_cons in Hr as [->|Hr]; [reflexivity|]).
    by apply elem_of_nil in Hr.
Defined.

Lemma filter_all {A} (p : A → bool) (l : list A) :
  (∀ x, x ∈ l → p x = true) → List.filter p l = l.
Proof.
  induction l as [|x l IH]; intros Hall; simpl; [done|].
  rewrite Hall by left. f_equal. apply IH. intros y Hy. apply Hall. by right.
Qed.

Lemma filter_none {A} (p : A → bool) (l : list A) :
  (∀ x, x ∈ l → p x = false) → List.filter p l = [].
Proof.
  induction l as [|x l IH]; intros Hall; simpl; [done|].
  rewrite Hall by left. apply IH. intros y Hy. apply Hall. by right.
Qed.

(** X12. A dataset validated against itself passes on every record,
    provided it has the six projected columns, its player names are text and
    name its records apart, and none of the six fields is missing. *)
Theorem validate_output_against_itself (self : DataProcessorTester)
    (expected_data actual_data : nat) (σ : world) (d : DataFrame) :
  heap σ !! expected_data = Some d →
  heap σ !! actual_data = Some d →
  (∀ c, c ∈ expected_cols → c ∈ columns d) →
  (∀ r, r ∈ rows d → is_str_cell (row_get r "playerName") = true) →
  (∀ r c, r ∈ rows d → c ∈ expected_cols → isna (row_get r c) = false) →
  (∀ r1 r2, r1 ∈ rows d → r2 ∈ rows d →
            row_get r1 "playerName" = row_get r2 "playerName" → r1 = r2) →
  ∃ out σ' res,
    validate_output self expected_data actual_data σ = (Ok out, σ') ∧
    heap σ' !! out = Some res ∧
    (∀ r, r ∈ rows res → row_get r "Result" = CStr "PASS") ∧
    pass_count res = length (rows d) ∧ fail_count res = 0%nat.
Proof.
  intros He Ha Hcols Hstr Hna Huniq.
  rewrite (validate_output_run _ _ _ _ _ _ He Ha).
  destruct (validate_frames_returns d d Hcols Hcols) as [res Hres].
  { intros r Hr. unfold text_or_missing. by rewrite Hstr. }
  { intros r Hr. unfold text_or_missing. by rewrite Hstr. }
  rewrite Hres. eexists _, _, res. split; [done|]. cbn [heap]. split.
  { by rewrite lookup_app_r, Nat.sub_diag. }
  apply validate_frames_Ok in Hres
    as (expected_df & actual_df & Hse & Hsa & _ & Hrows).
  apply sorted_expected_Ok in Hse as [_ Hpe].
  apply sorted_actual_Ok in Hsa as (_ & Hpa & Hname).
  assert (Hpass : ∀ er, er ∈ rows expected_df → verdict actual_df er = "PASS").
  { intros er Her. rewrite Hpe in Her.
    apply list_elem_of_fmap in Her as (r & -> & Hr).
    unfold verdict.
    rewrite (restrict_row_get expected_cols r "playerName")
      by (unfold expected_cols; list_mem).
    pose proof (Hstr r Hr) as Hs.
    destruct (row_get r "playerName") as [| | |s|] eqn:Hn; try done.
    destruct (first_match (rows actual_df) (CStr s)) as [ar|] eqn:Hf.
    - destruct (first_match_Some _ _ _ Hf) as [Hin Hm].
      rewrite Hpa in Hin. apply list_elem_of_fmap in Hin as (r2 & -> & Hr2).
      rewrite name_matches_restrict in Hm by done.
      unfold name_matches in Hm.
      pose proof (Hstr r2 Hr2) as Hs2.
      destruct (row_get r2 "playerName") as [| | |s2|] eqn:Hn2; try done.
      unfold series_eq in Hm. cbn [py_eq isna negb andb] in Hm.
      apply bool_decide_eq_true in Hm. subst s2.
      assert (r2 = r) as -> by (apply Huniq; [done..|congruence]).
      assert (fields_equal (restrict expected_cols r) (restrict (columns d) r) = true)
        as ->; [|done].
      unfold fields_equal. apply forallb_forall. intros c Hc.
      apply list_elem_of_In in Hc.
      rewrite !restrict_row_get by (done || by apply Hcols).
      apply py_eq_refl. by apply Hna.
    - exfalso. rewrite first_match_None in Hf.
      assert (restrict (columns d) r ∈ rows actual_df) as Hin.
      { rewrite Hpa. apply list_elem_of_fmap. eauto. }
      specialize (Hf _ Hin). rewrite name_matches_restrict in Hf by done.
      unfold name_matches, series_eq in Hf. rewrite Hn in Hf.
      cbn [py_eq isna negb andb] in Hf.
      by rewrite bool_decide_eq_true_2 in Hf. }
  assert (Hall : ∀ r, r ∈ rows res → row_get r "Result" = CStr "PASS").
  { intros r Hr. rewrite Hrows in Hr.
    apply list_elem_of_fmap in Hr as (er & -> & Her).
    unfold verdict_row. rewrite row_get_insert_eq. by rewrite Hpass. }
  split; [done|]. unfold pass_count, fail_count, count_result. split.
  - rewrite filter_all.
    + rewrite Hrows, length_map, Hpe. apply length_map.
    + intros r Hr. by rewrite (Hall r Hr).
  - rewrite filter_none; [done|]. intros r Hr. by rewrite (Hall r Hr).
Qed.

Lemma validate_output_against_itself_witness :
  ∃ out σ' res,
    validate_output sample_tester 0 0 validation_world = (Ok out, σ') ∧
    heap σ' !! out = Some res ∧
    pass_count res = 3%nat ∧ fail_count res = 0%nat.
Proof.
  destruct (validate_output_against_itself sample_tester 0%nat 0%nat validation_world
              expected_sample)
    as (out & σ' & res & Hrun & Hout & _ & Hp & Hf).
  - reflexivity.
  - reflexivity.
  - intros c Hc. unfold expected_cols in Hc. vm_compute.
    repeat (apply elem_of_cons in Hc as [->|Hc]; [list_mem|]).
    by apply elem_of_nil in Hc.
  - intros r Hr. unfold expected_sample in Hr. cbn [rows] in Hr.
    repeat (apply elem_of_cons in Hr as [->|Hr]; [reflexivity|]).
    by apply elem_of_nil in Hr.
  - intros r c Hr Hc. unfold expected_sample in Hr. cbn [rows] in Hr.
    unfold expected_cols in Hc.
    repeat (apply elem_of_cons in Hr as [->|Hr];
            [repeat (apply elem_of_cons in Hc as [->|Hc]; [reflexivity|]);
             by apply elem_of_nil in Hc|]).
    by apply elem_of_nil in Hr.
  - intros r1 r2 Hr1 Hr2. unfold expected_sample in Hr1, Hr2. cbn [rows] in Hr1, Hr2.
    repeat (apply elem_of_cons in Hr1 as [->|Hr1];
            [repeat (apply elem_of_cons in Hr2 as [->|Hr2];
                     [intros Hname; vm_compute in Hname;
                      first [discriminate Hname | reflexivity]|]);
             by apply elem_of_nil in Hr2|]).
    by apply elem_of_nil in Hr1.
  - exists out, σ', res.
    split; [exact Hrun|]. split; [exact Hout|]. split; [exact Hp | exact Hf].
Defined.

(** ** More on [validate_schema] *)

Section SchemaMore.
Context `{NumericParser}.

Lemma check_schema_eq (d : DataFrame) :
  check_schema d
  = Ok (bool_decide (omap (violation d) expected_schema = []),
        omap (violation d) expected_schema).
Proof. unfold check_schema. by rewrite for_items_check. Qed.

Lemma violation_str_None (d : DataFrame) (column : string) :
  violation d (column, PyStr) = None ↔
  column_dtype d column = Some object_ ∧
  ∀ r, r ∈ rows d → is_str_cell (row_get r column) = true.
Proof.
  unfold violation, str_check_fails, df_getitem. cbn [fst snd].
  case_bool_decide as Hin.
  - apply assoc_is_Some in Hin as [t Ht].
    change (assoc (header d) column) with (column_dtype d column) in Ht.
    rewrite Ht. unfold is_string_dtype. cbn [s_dtype s_values].
    destruct (decide (t = object_)) as [->|Hne].
    + rewrite bool_decide_eq_true_2 by done. cbn [andb].
      destruct (forallb is_str_cell (map (λ r, row_get r column) (rows d))) eqn:Hall;
        cbn [negb].
      * split; [intros _ | done]. split; [done|]. intros r Hr.
        rewrite forallb_forall in Hall. apply Hall. apply in_map_iff.
        exists r. split; [done|]. by apply list_elem_of_In.
      * split; [done|]. intros [_ Hstr]. exfalso.
        assert (forallb is_str_cell (map (λ r, row_get r column) (rows d)) = true)
          as Htrue; [|congruence].
        apply forallb_forall. intros c (r & <- & Hr)%in_map_iff.
        by apply Hstr, list_elem_of_In.
    + rewrite bool_decide_eq_false_2 by done. cbn [andb negb].
      split; [done|]. intros [[= ->] _]. done.
  - split; [done|]. intros [Ht _]. exfalso. apply Hin, assoc_is_Some.
    unfold column_dtype in Ht. eauto.
Qed.

Lemma to_numeric_raise_Ok (s : Series) :
  s_dtype s = object_ →
  (∃ s', to_numeric ErrRaise DowncastInteger s = Ok s') ↔
  ∀ c, c ∈ s_values s → ∃ v, convert_cell ErrRaise c = Ok v.
Proof.
  intros Ht. unfold to_numeric. rewrite Ht. cbn [is_numeric_dtype].
  split.
  - intros [s' Hs'] c Hc.
    destruct (mapM (convert_cell ErrRaise) (s_values s)) as [cs|] eqn:Hm; [|done].
    apply list_elem_of_lookup in Hc as [i Hi].
    destruct (mapM_result_lookup _ _ _ _ _ Hm Hi) as (v & _ & Hv). eauto.
  - intros Hall. destruct (mapM_result_Ok _ _ Hall) as [cs ->].
    cbn [mbind result_bind]. by eexists.
Qed.

Lemma violation_int_None (d : DataFrame) (column : string) :
  violation d (column, PyInt) = None ↔
  ∃ t, column_dtype d column = Some t ∧
       (t = object_ →
        ∀ r, r ∈ rows d → ∃ v, convert_cell ErrRaise (row_get r column) = Ok v).
Proof.
  unfold violation, int_check_fails, df_getitem. cbn [fst snd].
  case_bool_decide as Hin.
  - apply assoc_is_Some in Hin as [t Ht].
    change (assoc (header d) column) with (column_dtype d column) in Ht.
    rewrite Ht. unfold is_integer_dtype. cbn [s_dtype].
    destruct (decide (t = object_)) as [->|Hne].
    + rewrite bool_decide_eq_false_2 by done. cbn [negb andb].
      pose proof (to_numeric_raise_Ok
                    (mkSeries object_ (map (λ r, row_get r column) (rows d))) eq_refl)
        as Hnum. cbn [s_values] in Hnum.
      destruct (to_numeric ErrRaise DowncastInteger _) as [s'|e] eqn:Hto.
      * split; [intros _ | done]. exists object_. split; [done|]. intros _ r Hr.
        apply (proj1 Hnum); [by eexists|]. apply list_elem_of_fmap. eauto.
      * split; [done|]. intros (t & [= <-] & Hall). exfalso.
        destruct (proj2 Hnum) as [s' Hs']; [|done].
        intros c (r & -> & Hr)%list_elem_of_fmap. by apply Hall.
    + assert (match (if negb (bool_decide (t = int64)) &&
                        match to_numeric ErrRaise DowncastInteger
                                (mkSeries t (map (λ r, row_get r column) (rows d)))
                        with Ok _ => false | Raise _ => true end
                     then Some (integer_message column) else None) with
              | Some _ => False | None => True end) as Hnone.
      { unfold to_numeric. cbn [s_dtype].
        assert (is_numeric_dtype t = true) as -> by (by destruct t).
        by rewrite andb_false_r. }
      destruct (if _ && _ then _ else _); [done|].
      split; [intros _ | done]. exists t. split; [done | done].
  - split; [done|]. intros (t & Ht & _). exfalso. apply Hin, assoc_is_Some.
    unfold column_dtype in Ht. eauto.
Qed.

Lemma omap_violation_nil (d : DataFrame) :
  omap (violation d) expected_schema = [] ↔
  (∀ c, c ∈ string_columns → violation d (c, PyStr) = None) ∧
  (∀ c, c ∈ integer_columns → violation d (c, PyInt) = None).
Proof.
  unfold expected_schema, string_columns, integer_columns. split.
  - intros Hnil.
    destruct (violation d ("eventType", PyStr)) eqn:E1; [by cbn in Hnil; rewrite E1 in Hnil|].
    cbn in Hnil. rewrite E1 in Hnil.
    destruct (violation d ("playerName", PyStr)) eqn:E2; [done|].
    destruct (violation d ("age", PyInt)) eqn:E3; [done|].
    destruct (violation d ("runs", PyInt)) eqn:E4; [done|].
    destruct (violation d ("wickets", PyInt)) eqn:E5; [done|].
    destruct (violation d ("playerType", PyStr)) eqn:E6; [done|].
    split; intros c Hc;
      repeat (apply elem_of_cons in Hc as [->|Hc]; [done|]);
      by apply elem_of_nil in Hc.
  - intros [Hs Hi]. cbn.
    rewrite (Hs "eventType"), (Hs "playerName"), (Hs "playerType") by list_mem.
    rewrite (Hi "age"), (Hi "runs"), (Hi "wickets") by list_mem. done.
Qed.

(** X13. [validate_schema] reports a valid schema with no message exactly
    when the three text columns are object columns holding strings only,
    and each of [age], [runs] and [wickets] is present and, if it is an
    object column, holds nothing but numbers, missing values and numeric
    text. *)
Theorem validate_schema_valid_iff (data : nat) (σ : world) (d : DataFrame) :
  heap σ !! data = Some d →
  validate_schema data σ = (Ok (true, []), σ) ↔
  (∀ c, c ∈ string_columns →
        column_dtype d c = Some object_ ∧
        ∀ r, r ∈ rows d → is_str_cell (row_get r c) = true) ∧
  (∀ c, c ∈ integer_columns →
        ∃ t, column_dtype d c = Some t ∧
             (t = object_ →
              ∀ r, r ∈ rows d → ∃ v, convert_cell ErrRaise (row_get r c) = Ok v)).
Proof.
  intros Hd.
  assert (Hrun : validate_schema data σ
                 = (Ok (bool_decide (omap (violation d) expected_schema = []),
                        omap (violation d) expected_schema), σ)).
  { unfold validate_schema, read_frame, lift, mbind, M_bind. rewrite Hd.
    by rewrite check_schema_eq. }
  rewrite Hrun. split.
  - intros [= Hvalid Herr]. apply omap_violation_nil in Herr as [Hs Hi].
    split; intros c Hc.
    + by apply violation_str_None, Hs.
    + by apply violation_int_None, Hi.
  - intros [Hs Hi].
    assert (omap (violation d) expected_schema = []) as ->; [|done].
    apply omap_violation_nil. split; intros c Hc.
    + by apply violation_str_None, Hs.
    + by apply violation_int_None, Hi.
Qed.
End SchemaMore.

Lemma validate_schema_valid_iff_witness :
  (∀ c, c ∈ string_columns →
        column_dtype expected_sample c = Some object_ ∧
        ∀ r, r ∈ rows expected_sample → is_str_cell (row_get r c) = true) ∧
  (∀ c, c ∈ integer_columns →
        ∃ t, column_dtype expected_sample c = Some t ∧
             (t = object_ →
              ∀ r, r ∈ rows expected_sample →
                   ∃ v, convert_cell (H := decimal_parser) ErrRaise (row_get r c) = Ok v)).
Proof.
  apply (validate_schema_valid_iff (H := decimal_parser) 0%nat validation_world
           expected_sample).
  - reflexivity.
  - vm_compute. reflexivity.
Defined.

(** ** Reading the output, in every case *)

Lemma read_output_data_eq (self : DataProcessorTester) (σ : world) :
  read_output_data self σ =
  match table_or_empty (files σ !! path_join (output_dir self) "test_results.csv") with
  | None => (Raise (FileError (path_join (output_dir self) "test_results.csv")), σ)
  | Some t =>
      match table_or_empty (files σ !! path_join (output_dir self) "odi_results.csv") with
      | None => (Raise (FileError (path_join (output_dir self) "odi_results.csv")), σ)
      | Some o =>
          (Ok (length (heap σ)), mkWorld (heap σ ++ [df_concat t o]) (files σ))
      end
  end.
Proof.
  unfold read_output_data. cbn zeta.
  unfold path_exists, read_csv, new_frame, mbind, M_bind, mret, M_ret.
  destruct (files σ !! path_join (output_dir self) "test_results.csv")
    as [[t|]|] eqn:Ht; cbn [table_or_empty].
  - rewrite bool_decide_eq_true_2 by eauto. rewrite Ht.
    destruct (files σ !! path_join (output_dir self) "odi_results.csv")
      as [[o|]|] eqn:Ho; cbn [table_or_empty].
    + rewrite bool_decide_eq_true_2 by eauto. by rewrite Ho.
    + rewrite bool_decide_eq_true_2 by eauto. by rewrite Ho.
    + rewrite bool_decide_eq_false_2 by (by intros [? ?]). done.
  - rewrite bool_decide_eq_true_2 by eauto. by rewrite Ht.
  - rewrite bool_decide_eq_false_2 by (by intros [? ?]).
    destruct (files σ !! path_join (output_dir self) "odi_results.csv")
      as [[o|]|] eqn:Ho; cbn [table_or_empty].
    + rewrite bool_decide_eq_true_2 by eauto. by rewrite Ho.
    + rewrite bool_decide_eq_true_2 by eauto. by rewrite Ho.
    + rewrite bool_decide_eq_false_2 by (by intros [? ?]). done.
Qed.



Section SchemaOfNothing.
Context `{NumericParser}.

(** X15. When both output files are absent, the schema check of what
    [read_output_data] returns is invalid and lists, in schema order, the
    six columns as missing, without any type message. *)
Theorem validate_schema_of_absent_output (self : DataProcessorTester) (σ : world) :
  files σ !! path_join (output_dir self) "test_results.csv" = None →
  files σ !! path_join (output_dir self) "odi_results.csv" = None →
  ∃ σ', (output_data ← read_output_data self; validate_schema output_data) σ
        = (Ok (false,
               map missing_message
                 ["eventType"; "playerName"; "age"; "runs"; "wickets"; "playerType"]),
           σ') ∧
        files σ' = files σ.
Proof.
  intros Ht Ho. unfold mbind at 1, M_bind at 1.
  rewrite read_output_data_eq, Ht, Ho. cbn [table_or_empty].
  unfold validate_schema, read_frame, lift, mbind, M_bind. cbn [heap].
  rewrite lookup_app_r, Nat.sub_diag by done. cbn [lookup list_lookup].
  eexists. split; [reflexivity | done].
Qed.
End SchemaOfNothing.

Lemma validate_schema_of_absent_output_witness :
  ∃ σ', (output_data ← read_output_data sample_tester;
         validate_schema (H := decimal_parser) output_data) no_output_world
        = (Ok (false,
               map missing_message
                 ["eventType"; "playerName"; "age"; "runs"; "wickets"; "playerType"]),
           σ') ∧
        files σ' = files no_output_world.
Proof.
  apply (validate_schema_of_absent_output (H := decimal_parser) sample_tester
           no_output_world); reflexivity.
Defined.

(** ** The whole pipeline: [run_test] *)

Lemma writes_only_ret {A} (ps : list string) (a : A) : writes_only ps (mret a).
Proof. by intros σ r σ' [= <- <-]. Qed.

Lemma writes_only_lift {A} (ps : list string) (r : result A) : writes_only ps (lift r).
Proof. by intros σ r' σ' [= <- <-]. Qed.

Lemma writes_only_bind {A B} (ps : list string) (m : M A) (f : A → M B) :
  writes_only ps m → (∀ a, writes_only ps (f a)) → writes_only ps (m ≫= f).
Proof.
  intros Hm Hf σ r σ' Hrun. unfold mbind, M_bind in Hrun.
  destruct (m σ) as [[a|e] σ1] eqn:Hm1.
  - destruct (Hm _ _ _ Hm1) as [Hfiles1 Hheap1].
    destruct (Hf a _ _ _ Hrun) as [Hfiles2 Hheap2]. split.
    + intros path Hp. by rewrite Hfiles2, Hfiles1.
    + intros l d Hl. by apply Hheap2, Hheap1.
  - injection Hrun as <- <-. by apply (Hm _ _ _ Hm1).
Qed.

Lemma writes_only_mono {A} (ps qs : list string) (m : M A) :
  (∀ p, p ∈ ps → p ∈ qs) → writes_only ps m → writes_only qs m.
Proof.
  intros Hsub Hm σ r σ' Hrun. destruct (Hm _ _ _ Hrun) as [Hfiles Hheap].
  split; [|done]. intros path Hp. apply Hfiles. intros Hin. by apply Hp, Hsub.
Qed.

Lemma merge_data_writes (self : DataProcessorTester) :
  writes_only [merged_path self] (merge_data self).
Proof.
  intros σ r σ' Hrun. rewrite merge_data_eq in Hrun.
  destruct (files σ !! path_join (input_dir self) "players_1990_2000.csv")
    as [[c|]|]; [|by injection Hrun as <- <-..].
  destruct (files σ !! path_join (input_dir self) "players_2000_onwards.json")
    as [[j|]|]; injection Hrun as <- <-; cbn [heap files].
  - split; [|intros l d Hl; by apply lookup_app_l_Some].
    intros path Hp. apply lookup_insert_ne. intros <-. apply Hp. by left.
  - split; [done | intros l d Hl; by apply lookup_app_l_Some].
  - split; [done | intros l d Hl; by apply lookup_app_l_Some].
Qed.

Lemma read_output_data_writes (self : DataProcessorTester) :
  writes_only [] (read_output_data self).
Proof.
  intros σ r σ' Hrun. rewrite read_output_data_eq in Hrun.
  destruct (table_or_empty _) as [t|]; [|by injection Hrun as <- <-].
  destruct (table_or_empty _) as [o|]; injection Hrun as <- <-; [|done].
  cbn [heap files]. split; [done | intros l d Hl; by apply lookup_app_l_Some].
Qed.

Lemma validate_output_writes (self : DataProcessorTester) (expected_data actual_data : nat) :
  writes_only [result_path self] (validate_output self expected_data actual_data).
Proof.
  intros σ r σ' Hrun.
  destruct (heap σ !! expected_data) as [expected|] eqn:He.
  2:{ unfold validate_output, read_frame in Hrun.
      unfold mbind at 1, M_bind at 1 in Hrun. rewrite He in Hrun.
      by injection Hrun as <- <-. }
  destruct (heap σ !! actual_data) as [actual|] eqn:Ha.
  2:{ unfold validate_output, read_frame in Hrun.
      unfold mbind at 1, M_bind at 1 in Hrun. rewrite He in Hrun.
      unfold mbind at 1, M_bind at 1 in Hrun. rewrite Ha in Hrun.
      by injection Hrun as <- <-. }
  rewrite (validate_output_run _ _ _ _ _ _ He Ha) in Hrun.
  destruct (validate_frames expected actual) as [res|]; injection Hrun as <- <-; [|done].
  cbn [heap files]. split; [|intros l d Hl; by apply lookup_app_l_Some].
  intros path Hp. apply lookup_insert_ne. intros <-. apply Hp. by left.
Qed.

Section RunTestFrame.
Context `{NumericParser}.

Lemma process_data_writes (self : DataProcessorTester) (data : nat) :
  writes_only [processed_path self] (process_data self data).
Proof.
  intros σ r σ' Hrun.
  assert (Hfresh : ∀ path x, path ∉ [processed_path self] →
            <[path_join (temp_dir self) "processed_data.csv" := x]> (files σ) !! path
            = files σ !! path).
  { intros path x Hp. apply lookup_insert_ne. intros <-. apply Hp. by left. }
  destruct (heap σ !! data) as [d|] eqn:Hd.
  - rewrite (process_data_run self data σ d Hd) in Hrun. cbn zeta in Hrun.
    destruct (df_dropna _ _) as [d2|].
    2:{ injection Hrun as <- <-. split; [done|]. intros l x Hl. by apply lookup_app_l_Some. }
    destruct (age_mask d2) as [m|].
    2:{ injection Hrun as <- <-. split; [done|]. intros l x Hl. by apply lookup_app_l_Some. }
    destruct (classify_frame _) as [d4|].
    2:{ injection Hrun as <- <-. split; [done|]. intros l x Hl. by apply lookup_app_l_Some. }
    injection Hrun as <- <-. cbn [heap files]. split.
    + intros path Hp. by apply Hfresh.
    + intros l x Hl. by apply lookup_app_l_Some.
  - unfold process_data, ref_copy, read_frame in Hrun.
    unfold mbind at 1, M_bind at 1 in Hrun. unfold mbind at 1, M_bind at 1 in Hrun.
    rewrite Hd in Hrun. by injection Hrun as <- <-.
Qed.

Lemma validate_schema_writes (data : nat) : writes_only [] (validate_schema data).
Proof.
  intros σ r σ' Hrun. unfold validate_schema, read_frame, lift in Hrun.
  unfold mbind, M_bind in Hrun.
  destruct (heap σ !! data); by injection Hrun as <- <-.
Qed.

Lemma run_test_writes (self : DataProcessorTester) :
  writes_only (snapshot_paths self) (run_test self).
Proof.
  unfold run_test, snapshot_paths.
  apply writes_only_bind.
  { apply (writes_only_mono [merged_path self]); [|apply merge_data_writes].
    intros p Hp. apply list_elem_of_singleton in Hp as ->. list_mem. }
  intros merged_data. apply writes_only_bind.
  { apply (writes_only_mono [processed_path self]); [|apply process_data_writes].
    intros p Hp. apply list_elem_of_singleton in Hp as ->. list_mem. }
  intros processed_data. apply writes_only_bind.
  { apply (writes_only_mono []); [|apply read_output_data_writes].
    by intros p Hp%elem_of_nil. }
  intros output_data. apply writes_only_bind.
  { apply (writes_only_mono [result_path self]); [|apply validate_output_writes].
    intros p Hp. apply list_elem_of_singleton in Hp as ->. list_mem. }
  intros validation_result. apply writes_only_bind.
  { apply (writes_only_mono []); [|apply validate_schema_writes].
    by intros p Hp%elem_of_nil. }
  intros schema. apply writes_only_ret.
Qed.

Lemma not_snapshot_path (self : DataProcessorTester) (dir name : string) :
  ends_with "/merged_data.csv" ("/" ++ name) = false →
  ends_with ("/" ++ name) "/merged_data.csv" = false →
  ends_with "/processed_data.csv" ("/" ++ name) = false →
  ends_with ("/" ++ name) "/processed_data.csv" = false →
  ends_with "/test_result.csv" ("/" ++ name) = false →
  ends_with ("/" ++ name) "/test_result.csv" = false →
  path_join dir name ∉ snapshot_paths self.
Proof.
  intros H1 H2 H3 H4 H5 H6 Hin. unfold snapshot_paths in Hin.
  apply elem_of_cons in Hin as [Hin|Hin]; [by eapply path_join_ne, Hin|].
  apply elem_of_cons in Hin as [Hin|Hin]; [by eapply path_join_ne, Hin|].
  apply elem_of_cons in Hin as [Hin|Hin]; [by eapply path_join_ne, Hin|].
  by apply elem_of_nil in Hin.
Qed.

(** X16. Whatever its outcome, [run_test] changes no file other than the
    three snapshots in the temporary directory: the two input files and the
    two output files of the processor under test in particular are what
    they were, in whatever directories they lie; and every frame that
    existed before the run is unchanged. *)
Theorem run_test_touches_only_snapshots (self : DataProcessorTester) (σ σ' : world)
    (r : result test_report) :
  run_test self σ = (r, σ') →
  (∀ path, path ∉ snapshot_paths self → files σ' !! path = files σ !! path) ∧
  (∀ name, name ∈ ["players_1990_2000.csv"; "players_2000_onwards.json"] →
           files σ' !! path_join (input_dir self) name
           = files σ !! path_join (input_dir self) name) ∧
  (∀ name, name ∈ ["test_results.csv"; "odi_results.csv"] →
           files σ' !! path_join (output_dir self) name
           = files σ !! path_join (output_dir self) name) ∧
  (∀ l d, heap σ !! l = Some d → heap σ' !! l = Some d).
Proof.
  intros Hrun. destruct (run_test_writes self _ _ _ Hrun) as [Hfiles Hheap].
  split; [done|]. split; [|split; [|done]].
  - intros name Hn. apply Hfiles.
    apply elem_of_cons in Hn as [->|Hn];
      [by apply not_snapshot_path|].
    apply elem_of_cons in Hn as [->|Hn];
      [by apply not_snapshot_path|].
    by apply elem_of_nil in Hn.
  - intros name Hn. apply Hfiles.
    apply elem_of_cons in Hn as [->|Hn];
      [by apply not_snapshot_path|].
    apply elem_of_cons in Hn as [->|Hn];
      [by apply not_snapshot_path|].
    by apply elem_of_nil in Hn.
Qed.
End RunTestFrame.

Lemma run_test_touches_only_snapshots_witness :
  files (run_test (H := decimal_parser) sample_tester full_world).2
    !! path_join (output_dir sample_tester) "test_results.csv"
  = files full_world !! path_join (output_dir sample_tester) "test_results.csv".
Proof.
  destruct (run_test_touches_only_snapshots (H := decimal_parser) sample_tester full_world
              (run_test (H := decimal_parser) sample_tester full_world).2
              (run_test (H := decimal_parser) sample_tester full_world).1)
    as (_ & _ & Hout & _).
  - by destruct (run_test (H := decimal_parser) sample_tester full_world).
  - apply Hout. list_mem.
Defined.

Lemma output_path_fresh (self : DataProcessorTester) (name : string)
    (fs : gmap string file) (x y : file) :
  name ∈ ["test_results.csv"; "odi_results.csv"] →
  <[processed_path self := x]> (<[merged_path self := y]> fs)
    !! path_join (output_dir self) name
  = fs !! path_join (output_dir self) name.
Proof.
  intros Hn. unfold processed_path, merged_path.
  apply elem_of_cons in Hn as [->|Hn].
  { rewrite !lookup_insert_ne; [done|by apply path_join_ne..]. }
  apply elem_of_cons in Hn as [->|Hn].
  { rewrite !lookup_insert_ne; [done|by apply path_join_ne..]. }
  by apply elem_of_nil in Hn.
Qed.

Lemma validate_frames_no_name (expected actual : DataFrame) :
  "playerName" ∉ columns actual → ∃ e, validate_frames expected actual = Raise e.
Proof.
  intros Hno. unfold validate_frames.
  destruct (sorted_expected expected) as [expected_df|e]; [|by exists e].
  cbn [mbind result_bind].
  destruct (sorted_actual actual) as [actual_df|e] eqn:Hsa; [|by exists e].
  by apply sorted_actual_Ok in Hsa as (_ & _ & Hin).
Qed.

Lemma validate_frames_tally (expected actual res : DataFrame) :
  validate_frames expected actual = Ok res →
  (pass_count res + fail_count res = length (rows expected))%nat.
Proof.
  intros Hres. apply validate_frames_Ok in Hres
    as (expected_df & actual_df & Hse & _ & _ & Hrows).
  apply sorted_expected_Ok in Hse as [_ Hperm].
  destruct res as [h rs]. cbn [rows] in Hrows. subst rs.
  rewrite count_result_verdicts, Hperm. apply length_map.
Qed.

Section RunTestOutcome.
Context `{NumericParser}.

Lemma processed_length (d d2 d4 : DataFrame) (m : list bool) :
  df_dropna (coerce_frame d) ["runs"; "wickets"] = Ok d2 →
  age_mask d2 = Ok m →
  classify_frame (df_mask d2 m) = Ok d4 →
  length (rows d4) = length (List.filter kept (rows (coerce_frame d))).
Proof.
  intros E2 Em E4.
  apply dropna_filter in E2 as [_ Hrows2].
  pose proof (age_mask_filter _ _ Em) as Hsel.
  apply classify_frame_Ok in E4 as (vs & Hvs & _ & Hrows4).
  cbn [df_mask rows] in Hvs, Hrows4. rewrite Hsel in Hvs, Hrows4.
  rewrite Hrows2, filter_filter_andb in Hvs, Hrows4.
  assert (Hkept : List.filter
                    (λ x, forallb (λ c, negb (isna (row_get x c))) ["runs"; "wickets"]
                          && in_age_range (row_get x "age")) (rows (coerce_frame d))
                  = List.filter kept (rows (coerce_frame d))).
  { apply filter_ext. intros r. unfold kept. cbn [forallb].
    by rewrite andb_true_r. }
  rewrite Hkept in Hvs, Hrows4. rewrite Hrows4.
  rewrite length_zip_with, (mapM_result_length _ _ _ Hvs). apply Nat.min_id.
Qed.

(** A successful run, stage by stage. *)
Lemma run_test_Ok (self : DataProcessorTester) (σ σ' : world) (rep : test_report) :
  run_test self σ = (Ok rep, σ') →
  ∃ c j d2 m d4 t o res,
    files σ !! path_join (input_dir self) "players_1990_2000.csv" = Some (Csv c) ∧
    files σ !! path_join (input_dir self) "players_2000_onwards.json" = Some (Csv j) ∧
    df_dropna (coerce_frame (df_concat c j)) ["runs"; "wickets"] = Ok d2 ∧
    age_mask d2 = Ok m ∧
    classify_frame (df_mask d2 m) = Ok d4 ∧
    table_or_empty (files σ !! path_join (output_dir self) "test_results.csv") = Some t ∧
    table_or_empty (files σ !! path_join (output_dir self) "odi_results.csv") = Some o ∧
    validate_frames d4 (df_concat t o) = Ok res ∧
    heap σ' !! validation_result rep = Some res ∧
    check_schema (df_concat t o) = Ok (schema_valid rep, schema_errors rep) ∧
    files σ' = <[result_path self := Csv res]>
                 (<[processed_path self := Csv d4]>
                    (<[merged_path self := Csv (df_concat c j)]> (files σ))).
Proof.
  intros Hrun. unfold run_test in Hrun.
  unfold mbind at 1, M_bind at 1 in Hrun. rewrite merge_data_eq in Hrun.
  destruct (files σ !! path_join (input_dir self) "players_1990_2000.csv")
    as [[c|]|] eqn:Hc; [|done..].
  destruct (files σ !! path_join (input_dir self) "players_2000_onwards.json")
    as [[j|]|] eqn:Hj; [|done..].
  set (σ1 := mkWorld (heap σ ++ [c; j; df_concat c j]) _) in Hrun.
  unfold mbind at 1, M_bind at 1 in Hrun.
  destruct (process_data self (length (heap σ) + 2) σ1) as [[p|e] σ2] eqn:Hp; [|done].
  assert (Hl1 : heap σ1 !! (length (heap σ) + 2)%nat = Some (df_concat c j)).
  { unfold σ1. cbn [heap]. rewrite lookup_app_r by lia.
    by replace (length (heap σ) + 2 - length (heap σ))%nat with 2%nat by lia. }
  destruct (process_data_Ok _ _ _ _ _ _ Hl1 Hp)
    as (d2 & m & d4 & E2 & Em & E4 & Hout2 & Hf2).
  unfold mbind at 1, M_bind at 1 in Hrun. rewrite read_output_data_eq in Hrun.
  rewrite Hf2 in Hrun. unfold σ1 in Hrun. cbn [files] in Hrun.
  rewrite !output_path_fresh in Hrun by list_mem.
  destruct (table_or_empty (files σ !! path_join (output_dir self) "test_results.csv"))
    as [t|] eqn:Ht; [|done].
  destruct (table_or_empty (files σ !! path_join (output_dir self) "odi_results.csv"))
    as [o|] eqn:Ho; [|done].
  unfold mbind at 1, M_bind at 1 in Hrun.
  rewrite (validate_output_run self p (length (heap σ2)) _ d4 (df_concat t o)) in Hrun.
  2:{ cbn [heap]. by apply lookup_app_l_Some. }
  2:{ cbn [heap]. by rewrite lookup_app_r, Nat.sub_diag. }
  destruct (validate_frames d4 (df_concat t o)) as [res|] eqn:Hres; [|done].
  cbn [heap files] in Hrun.
  unfold validate_schema, read_frame, lift in Hrun.
  unfold mbind, M_bind in Hrun. cbn [heap] in Hrun.
  rewrite lookup_app_l in Hrun by (rewrite length_app; cbn [length]; lia).
  rewrite lookup_app_r, Nat.sub_diag in Hrun by done.
  cbn [lookup list_lookup] in Hrun.
  destruct (check_schema (df_concat t o)) as [[valid errors]|] eqn:Hs; [|done].
  injection Hrun as <- <-. cbn [validation_result schema_valid schema_errors heap files].
  exists c, j, d2, m, d4, t, o, res. repeat (split; [done|]).
  split; [|done].
  by rewrite lookup_app_r, Nat.sub_diag.
Qed.
End RunTestOutcome.

Section RunTestMore.
Context `{NumericParser}.

(** X17. [run_test] produces no report when no output file offers a
    [playerName] column: it raises instead.  This is the case when the
    processor under test wrote neither [test_results.csv] nor
    [odi_results.csv], whatever the input. *)
Theorem run_test_needs_output (self : DataProcessorTester) (σ : world) :
  (∀ name d, name ∈ ["test_results.csv"; "odi_results.csv"] →
             files σ !! path_join (output_dir self) name = Some (Csv d) →
             "playerName" ∉ columns d) →
  ∃ e σ', run_test self σ = (Raise e, σ').
Proof.
  intros Hno. destruct (run_test self σ) as [[rep|e] σ'] eqn:Hrun; [|eauto].
  exfalso.
  destruct (run_test_Ok _ _ _ _ Hrun)
    as (c & j & d2 & m & d4 & t & o & res & _ & _ & _ & _ & _ & Ht & Ho & Hres & _).
  assert (Hcols : ∀ name x,
            name ∈ ["test_results.csv"; "odi_results.csv"] →
            table_or_empty (files σ !! path_join (output_dir self) name) = Some x →
            "playerName" ∉ columns x).
  { intros name x Hn Hx.
    destruct (files σ !! path_join (output_dir self) name) as [[d|]|] eqn:Hf;
      cbn [table_or_empty] in Hx; [| done |].
    - injection Hx as <-. by apply (Hno name).
    - injection Hx as <-. vm_compute. by intros ?%elem_of_nil. }
  destruct (validate_frames_no_name d4 (df_concat t o)) as [e He]; [|congruence].
  rewrite df_concat_columns. intros Hin. apply elem_of_app in Hin as [Hin|Hin].
  - by apply (Hcols "test_results.csv" t); [list_mem|..].
  - apply list_elem_of_In, filter_In in Hin as [Hin _]. apply list_elem_of_In in Hin.
    by apply (Hcols "odi_results.csv" o); [list_mem|..].
Qed.

(** X18. When [run_test] returns a report, the PASS and FAIL counts of the
    summary add up to the number of records of the merged input (CSV
    records, then JSON records) that have runs, wickets and an age from 15
    to 50; the schema flag is set exactly when the list of schema errors is
    empty; and the snapshots of the merged input and of the validation
    result hold those very frames. *)
Theorem run_test_report (self : DataProcessorTester) (σ σ' : world)
    (rep : test_report) :
  run_test self σ = (Ok rep, σ') →
  ∃ c j res,
    files σ !! path_join (input_dir self) "players_1990_2000.csv" = Some (Csv c) ∧
    files σ !! path_join (input_dir self) "players_2000_onwards.json" = Some (Csv j) ∧
    heap σ' !! validation_result rep = Some res ∧
    (pass_count res + fail_count res
     = length (List.filter kept (rows (coerce_frame (df_concat c j)))))%nat ∧
    (schema_valid rep = true ↔ schema_errors rep = []) ∧
    files σ' !! merged_path self = Some (Csv (df_concat c j)) ∧
    files σ' !! result_path self = Some (Csv res).
Proof.
  intros Hrun.
  destruct (run_test_Ok _ _ _ _ Hrun)
    as (c & j & d2 & m & d4 & t & o & res
        & Hc & Hj & E2 & Em & E4 & _ & _ & Hres & Hout & Hs & Hf).
  exists c, j, res. repeat (split; [done|]). split; [|split; [|split]].
  - rewrite (validate_frames_tally _ _ _ Hres).
    by apply (processed_length _ d2 d4 m).
  - rewrite check_schema_eq in Hs. injection Hs as <- <-.
    apply bool_decide_eq_true.
  - rewrite Hf. unfold result_path, processed_path, merged_path.
    rewrite !lookup_insert_ne by (by apply path_join_ne).
    apply lookup_insert_eq.
  - rewrite Hf. apply lookup_insert_eq.
Qed.
End RunTestMore.

Lemma run_test_needs_output_witness :
  ∃ e σ', run_test (H := decimal_parser) sample_tester input_world = (Raise e, σ').
Proof.
  apply (run_test_needs_output (H := decimal_parser) sample_tester input_world).
  intros name d Hn Hf. exfalso.
  apply elem_of_cons in Hn as [->|Hn]; [vm_compute in Hf; discriminate Hf|].
  apply elem_of_cons in Hn as [->|Hn]; [vm_compute in Hf; discriminate Hf|].
  by apply elem_of_nil in Hn.
Defined.

Lemma run_test_report_witness :
  ∃ rep σ' res,
    run_test (H := decimal_parser) sample_tester full_world = (Ok rep, σ') ∧
    heap σ' !! validation_result rep = Some res ∧
    (pass_count res + fail_count res = 2)%nat.
Proof.
  destruct (run_test (H := decimal_parser) sample_tester full_world)
    as [[rep|e] σ'] eqn:Hrun.
  - destruct (run_test_report (H := decimal_parser) sample_tester full_world σ' rep Hrun)
      as (c & j & res & Hc & Hj & Hres & Hcount & _).
    exists rep, σ', res. split; [reflexivity|]. split; [exact Hres|].
    assert (Hc' : files full_world !! path_join (input_dir sample_tester)
                    "players_1990_2000.csv" = Some (Csv csv_sample))
      by (vm_compute; reflexivity).
    assert (Hj' : files full_world !! path_join (input_dir sample_tester)
                    "players_2000_onwards.json" = Some (Csv json_sample))
      by (vm_compute; reflexivity).
    rewrite Hc' in Hc. rewrite Hj' in Hj.
    injection Hc as <-. injection Hj as <-.
    rewrite Hcount. vm_compute. reflexivity.
  - exfalso.
    assert (Hok : match (run_test (H := decimal_parser) sample_tester full_world).1 with
                  | Ok _ => True | Raise _ => False end)
      by (vm_compute; exact I).
    rewrite Hrun in Hok. exact Hok.
Defined.
